(** * Countries XML generators: a shallow embedding and its properties

    The development follows the three Python scripts of the repository:
    [improved_xml_generator.py] (module [Improved]), [simple_xml_generator.py]
    (module [Simple]) and [automated_generator.py] (module [Automated]).

    Python strings are represented by their UTF-8 encoding, decoded JSON
    values by the inductive type [json], dictionaries by association lists in
    insertion order, exceptions by the error monad [outcome].  Console
    output ([print]) is not part of the model. *)

From Stdlib Require Import String Ascii List Bool Arith ZArith Lia DecimalString.
Import ListNotations.
Local Open Scope string_scope.

(** ** Exceptions and outcomes *)

Inductive exn : Type :=
| AttributeError
| TypeError
| KeyError
| IndexError
| ValueError
| ConnectionError
| Timeout
| HTTPError
| InvalidJSONError
| FileNotFoundError
| FileExistsError
| NotADirectoryError
| IsADirectoryError
| ParseError.

(** [isinstance(e, requests.exceptions.RequestException)]. *)
Definition is_request_exception (e : exn) : bool :=
  match e with
  | ConnectionError | Timeout | HTTPError | InvalidJSONError => true
  | _ => false
  end.

(** A call returns a value, raises, or leaves the modelled fragment of
    Python (for instance the [repr] of a list spliced into an f-string). *)
Inductive outcome (A : Type) : Type :=
| Ok (a : A)
| Raise (e : exn)
| Unmodelled.

Arguments Ok {A} a.
Arguments Raise {A} e.
Arguments Unmodelled {A}.

Definition bind {A B : Type} (c : outcome A) (k : A -> outcome B) : outcome B :=
  match c with
  | Ok a => k a
  | Raise e => Raise e
  | Unmodelled => Unmodelled
  end.

Notation "x <- c ;; k" := (bind c (fun x => k))
  (at level 61, c at next level, right associativity).

(** ** Decoded JSON values *)

#[warnings="-register-all"] Inductive json : Type :=
| JNull
| JBool (b : bool)
| JNum (n : Z)
| JStr (s : string)
| JList (l : list json)
| JDict (d : list (string * json)).

(** Dictionary lookup; the first binding of a key is the one Python sees. *)
Fixpoint assoc {V : Type} (k : string) (d : list (string * V)) : option V :=
  match d with
  | [] => None
  | (k', v) :: d' => if String.eqb k k' then Some v else assoc k d'
  end.

Definition is_some {V : Type} (o : option V) : bool :=
  match o with Some _ => true | None => false end.

Definition is_empty {V : Type} (l : list V) : bool :=
  match l with [] => true | _ => false end.

(** [bool(v)]. *)
Definition truthy (v : json) : bool :=
  match v with
  | JNull => false
  | JBool b => b
  | JNum n => negb (Z.eqb n 0)
  | JStr s => negb (String.eqb s "")
  | JList l => negb (is_empty l)
  | JDict d => negb (is_empty d)
  end.

(** [obj.get(key, default)]: only dictionaries have a [get] method. *)
Definition py_get (obj : json) (key : string) (default : json) : outcome json :=
  match obj with
  | JDict d => Ok (match assoc key d with Some v => v | None => default end)
  | _ => Raise AttributeError
  end.

Fixpoint has_prefix (p s : string) : bool :=
  match p, s with
  | EmptyString, _ => true
  | String a p', String b s' => Ascii.eqb a b && has_prefix p' s'
  | String _ _, EmptyString => false
  end.

(** [sub in s] on strings. *)
Fixpoint is_substring (sub s : string) : bool :=
  has_prefix sub s ||
  match s with
  | EmptyString => false
  | String _ s' => is_substring sub s'
  end.

Definition json_eq_str (k : string) (v : json) : bool :=
  match v with JStr s => String.eqb k s | _ => false end.

(** [key in obj] for a string [key]. *)
Definition py_contains (obj : json) (key : string) : outcome bool :=
  match obj with
  | JDict d => Ok (is_some (assoc key d))
  | JList l => Ok (existsb (json_eq_str key) l)
  | JStr s => Ok (is_substring key s)
  | _ => Raise TypeError
  end.

(** [obj[key]] for a string [key]. *)
Definition py_getitem (obj : json) (key : string) : outcome json :=
  match obj with
  | JDict d => match assoc key d with Some v => Ok v | None => Raise KeyError end
  | _ => Raise TypeError
  end.

(** [list(obj.keys())[0]]. *)
Definition first_key (obj : json) : outcome string :=
  match obj with
  | JDict ((k, _) :: _) => Ok k
  | JDict [] => Raise IndexError
  | _ => Raise AttributeError
  end.

(** ** Extracted countries *)

(** The dictionary [{"code": .., "name": .., "symbol": ..}]. *)
Record CurrencyInfo : Type := mkCurrency {
  cur_code : json;
  cur_name : json;
  cur_symbol : json
}.

(** The dictionary returned by [extract_xml_data]. *)
Record ExtractedCountry : Type := mkExtracted {
  code : json;
  original_name : json;
  common_name : json;
  local_name : json;
  currency : CurrencyInfo
}.

Definition empty_currency : CurrencyInfo :=
  mkCurrency (JStr "") (JStr "") (JStr "").

(** The currency part shared verbatim by both generators. *)
Definition extract_currency (currencies : json) : outcome CurrencyInfo :=
  if truthy currencies then
    currency_code <- first_key currencies ;;
    currency_data <- py_getitem currencies currency_code ;;
    name <- py_get currency_data "name" (JStr "") ;;
    symbol <- py_get currency_data "symbol" (JStr "") ;;
    Ok (mkCurrency (JStr currency_code) name symbol)
  else Ok empty_currency.

(** [native_names[lang].get("official", "")]. *)
Definition official_of (native_names : json) (lang : string) : outcome json :=
  entry <- py_getitem native_names lang ;;
  py_get entry "official" (JStr "").

(** ** Strings *)

Definition nl : string := String (ascii_of_nat 10) EmptyString.
Definition dq : string := String (ascii_of_nat 34) EmptyString.

(** [sep.join(l)]. *)
Fixpoint join (sep : string) (l : list string) : string :=
  match l with
  | [] => EmptyString
  | [x] => x
  | x :: rest => x ++ sep ++ join sep rest
  end.

(** [s.replace(old, new)] for a non-empty [old]: a left-to-right scan that
    skips the matched characters.  [skip] counts the characters of the
    current match that are still to be dropped. *)
Fixpoint replace_from (old new : string) (skip : nat) (s : string) : string :=
  match s with
  | EmptyString => EmptyString
  | String c s' =>
      match skip with
      | S k => replace_from old new k s'
      | O =>
          if has_prefix old s
          then new ++ replace_from old new (String.length old - 1) s'
          else String c (replace_from old new 0 s')
      end
  end.

Definition replace (old new s : string) : string := replace_from old new 0 s.

(** [str(v)], as an f-string applies it.  The [repr] of lists and
    dictionaries is outside the model. *)
Definition py_str (v : json) : outcome string :=
  match v with
  | JNull => Ok "None"
  | JBool true => Ok "True"
  | JBool false => Ok "False"
  | JNum n => Ok (NilZero.string_of_int (Z.to_int n))
  | JStr s => Ok s
  | JList _ | JDict _ => Unmodelled
  end.

(** The declaration line both generators write. *)
Definition xml_declaration : string :=
  "<?xml version=" ++ dq ++ "1.0" ++ dq ++ " encoding=" ++ dq ++ "UTF-8" ++ dq ++ "?>".

(** ** ElementTree elements and their serialisation *)

#[warnings="-register-all"] Inductive element : Type :=
| Element (tag : string) (text : option string) (children : list element)
    (tail : option string).

(** [_escape_cdata]. *)
Definition escape_cdata (text : string) : string :=
  replace ">" "&gt;" (replace "<" "&lt;" (replace "&" "&amp;" text)).

Definition escape_opt (text : option string) : string :=
  match text with Some t => escape_cdata t | None => EmptyString end.

Definition has_text (text : option string) : bool :=
  match text with Some t => negb (String.eqb t EmptyString) | None => false end.

(** [ET.tostring(e, encoding='unicode')] for elements without attributes:
    [_serialize_xml] with [short_empty_elements=True]. *)
Fixpoint tostring (e : element) : string :=
  match e with
  | Element tag text children tail =>
      (if has_text text || negb (is_empty children)
       then "<" ++ tag ++ ">" ++ escape_opt text
            ++ String.concat EmptyString (map tostring children)
            ++ "</" ++ tag ++ ">"
       else "<" ++ tag ++ " />")
      ++ escape_opt tail
  end.

(** ** The file system

    Directories and regular files only: no permissions, links or quotas.
    A resolved path is a root (absolute, or the working directory) and the
    components below it.  Both roots always exist; paths with a [.] or [..]
    component are outside the model. *)

Definition path : Type := bool * list string.

Record filesystem : Type := mkFS {
  dirs : list path;
  files : list (path * string)
}.

Definition path_eqb (p q : path) : bool :=
  Bool.eqb (fst p) (fst q) &&
  (if list_eq_dec string_dec (snd p) (snd q) then true else false).

Definition is_dir (fs : filesystem) (p : path) : bool :=
  is_empty (snd p) || existsb (path_eqb p) (dirs fs).

Fixpoint lookup_file (p : path) (l : list (path * string)) : option string :=
  match l with
  | [] => None
  | (q, content) :: l' => if path_eqb p q then Some content else lookup_file p l'
  end.

Definition is_file (fs : filesystem) (p : path) : bool :=
  is_some (lookup_file p (files fs)).

Definition slash : ascii := ascii_of_nat 47.

Fixpoint split_slash (s : string) : list string :=
  match s with
  | EmptyString => [EmptyString]
  | String c s' =>
      if Ascii.eqb c slash then EmptyString :: split_slash s'
      else match split_slash s' with
           | [] => [String c EmptyString]
           | h :: t => String c h :: t
           end
  end.

Definition starts_with_slash (s : string) : bool :=
  match s with String c _ => Ascii.eqb c slash | EmptyString => false end.

Fixpoint ends_with_slash (s : string) : bool :=
  match s with
  | EmptyString => false
  | String c EmptyString => Ascii.eqb c slash
  | String _ s' => ends_with_slash s'
  end.

Definition is_dot (c : string) : bool := String.eqb c "." || String.eqb c "..".

(** The root and components a path name denotes; repeated and trailing
    slashes contribute no component. *)
Definition resolve (name : string) : outcome path :=
  let comps := filter (fun c => negb (String.eqb c EmptyString)) (split_slash name) in
  if existsb is_dot comps then Unmodelled
  else Ok (starts_with_slash name, comps).

(** [posixpath.dirname]: the part up to the last slash, without its
    trailing slashes unless it consists of slashes only. *)
Fixpoint has_slash (p : string) : bool :=
  match p with
  | EmptyString => false
  | String c p' => Ascii.eqb c slash || has_slash p'
  end.

Fixpoint upto_last_slash (p : string) : string :=
  match p with
  | EmptyString => EmptyString
  | String c p' =>
      if has_slash p' then String c (upto_last_slash p')
      else if Ascii.eqb c slash then String c EmptyString
      else EmptyString
  end.

Fixpoint all_slashes (s : string) : bool :=
  match s with
  | EmptyString => true
  | String c s' => Ascii.eqb c slash && all_slashes s'
  end.

Fixpoint rstrip_slash (s : string) : string :=
  match s with
  | EmptyString => EmptyString
  | String c s' =>
      let r := rstrip_slash s' in
      if String.eqb r EmptyString && Ascii.eqb c slash then EmptyString
      else String c r
  end.

Definition dirname (p : string) : string :=
  let head := upto_last_slash p in
  if negb (String.eqb head EmptyString) && negb (all_slashes head)
  then rstrip_slash head else head.

Definition add_dir (p : path) (fs : filesystem) : filesystem :=
  mkFS (p :: dirs fs) (files fs).

(** The chain of [mkdir] calls [os.makedirs] ends up making below [here]:
    existing directories are kept, a regular file in the way raises. *)
Fixpoint make_chain (root : bool) (here rest : list string) (fs : filesystem)
  : outcome filesystem :=
  match rest with
  | [] => Ok fs
  | c :: rest' =>
      let p : path := (root, (here ++ [c])%list) in
      if is_dir fs p then make_chain root (here ++ [c])%list rest' fs
      else if is_file fs p
      then Raise (if is_empty rest' then FileExistsError else NotADirectoryError)
      else make_chain root (here ++ [c])%list rest' (add_dir p fs)
  end.

(** [os.makedirs(name, exist_ok=True)].  The empty name reaches [mkdir("")],
    which fails with ENOENT, and [path.isdir("")] is false, so the error is
    re-raised. *)
Definition makedirs (name : string) (fs : filesystem) : outcome filesystem :=
  if String.eqb name EmptyString then Raise FileNotFoundError
  else
    p <- resolve name ;;
    make_chain (fst p) [] (snd p) fs.

(** Every proper ancestor of the path below [here] must be a directory. *)
Fixpoint check_ancestors (fs : filesystem) (root : bool) (here rest : list string)
  : outcome unit :=
  match rest with
  | [] | [_] => Ok tt
  | c :: rest' =>
      let p : path := (root, (here ++ [c])%list) in
      if is_dir fs p then check_ancestors fs root (here ++ [c])%list rest'
      else if is_file fs p then Raise NotADirectoryError
      else Raise FileNotFoundError
  end.

Fixpoint set_file (p : path) (content : string) (l : list (path * string))
  : list (path * string) :=
  match l with
  | [] => [(p, content)]
  | (q, old) :: l' =>
      if path_eqb p q then (q, content) :: l' else (q, old) :: set_file p content l'
  end.

(** [with open(name, 'w', encoding='utf-8') as f: f.write(content)]. *)
Definition write_file (name content : string) (fs : filesystem)
  : outcome filesystem :=
  if String.eqb name EmptyString then Raise FileNotFoundError
  else
    p <- resolve name ;;
    _ <- check_ancestors fs (fst p) [] (snd p) ;;
    if is_dir fs p then Raise IsADirectoryError
    else if ends_with_slash name
    then Raise (if is_file fs p then NotADirectoryError else IsADirectoryError)
    else Ok (mkFS (dirs fs) (set_file p content (files fs))).

(** [os.path.exists(name)]. *)
Definition path_exists (name : string) (fs : filesystem) : outcome bool :=
  p <- resolve name ;;
  Ok (negb (String.eqb name EmptyString) &&
      match check_ancestors fs (fst p) [] (snd p) with
      | Ok _ => is_dir fs p || (is_file fs p && negb (ends_with_slash name))
      | _ => false
      end).

(** Reading a file back, as [ET.parse] does first. *)
Definition read_file (name : string) (fs : filesystem) : outcome string :=
  if String.eqb name EmptyString then Raise FileNotFoundError
  else
    p <- resolve name ;;
    _ <- check_ancestors fs (fst p) [] (snd p) ;;
    if is_dir fs p then Raise IsADirectoryError
    else match lookup_file p (files fs) with
         | Some content =>
             if ends_with_slash name then Raise NotADirectoryError else Ok content
         | None => Raise FileNotFoundError
         end.

(** ** The network and the state of a run *)

(** What the code uses of a [requests.Response]: the status code and the
    result of decoding the body, which [response.json()] returns or raises. *)
Record response : Type := mkResponse {
  status_code : Z;
  json_body : outcome json
}.

(** [response.raise_for_status()]. *)
Definition raise_for_status (r : response) : outcome unit :=
  if (400 <=? status_code r)%Z && (status_code r <? 600)%Z
  then Raise HTTPError else Ok tt.

(** The world a run acts on: [net i url] is what the [i]-th request of the
    run gets when it asks for [url]; [sent] lists the URLs requested so far,
    oldest first; [disk] is the file system. *)
Record world : Type := mkWorld {
  net : nat -> string -> outcome response;
  sent : list string;
  disk : filesystem
}.

(** Stateful computations that may raise. *)
Definition M (A : Type) : Type := world -> outcome A * world.

Definition ret {A : Type} (a : A) : M A := fun w => (Ok a, w).

Definition bindM {A B : Type} (c : M A) (k : A -> M B) : M B :=
  fun w =>
    match c w with
    | (Ok a, w') => k a w'
    | (Raise e, w') => (Raise e, w')
    | (Unmodelled, w') => (Unmodelled, w')
    end.

Notation "x <~ c ;; k" := (bindM c (fun x => k))
  (at level 61, c at next level, right associativity).

Definition lift {A : Type} (c : outcome A) : M A := fun w => (c, w).

(** [session.get(url)] and [requests.get(url, timeout=10)]. *)
Definition http_get (url : string) : M response :=
  fun w => (net w (List.length (sent w)) url,
            mkWorld (net w) (sent w ++ [url])%list (disk w)).

(** A file-system operation; a failed one leaves the disk as it was. *)
Definition on_disk (op : filesystem -> outcome filesystem) : M unit :=
  fun w =>
    match op (disk w) with
    | Ok fs' => (Ok tt, mkWorld (net w) (sent w) fs')
    | Raise e => (Raise e, w)
    | Unmodelled => (Unmodelled, w)
    end.

Definition from_disk {A : Type} (op : filesystem -> outcome A) : M A :=
  fun w => (op (disk w), w).

(** [len(v)]; for a string the length is that of its encoding, which is
    zero exactly when the string is empty. *)
Definition py_len (v : json) : outcome nat :=
  match v with
  | JStr s => Ok (String.length s)
  | JList l => Ok (List.length l)
  | JDict d => Ok (List.length d)
  | _ => Raise TypeError
  end.

(** The number of bytes of the UTF-8 sequence a lead byte starts. *)
Definition utf8_width (c : ascii) : nat :=
  let n := nat_of_ascii c in
  (if n <? 192 then 1 else if n <? 224 then 2 else if n <? 240 then 3 else 4)%nat.

(** [v[0]]: decoded JSON objects have string keys only, so [0] is never a
    key. *)
Definition py_item0 (v : json) : outcome json :=
  match v with
  | JList (x :: _) => Ok x
  | JList [] => Raise IndexError
  | JStr EmptyString => Raise IndexError
  | JStr (String c s) => Ok (JStr (String c (substring 0 (utf8_width c - 1) s)))
  | JDict _ => Raise KeyError
  | _ => Raise TypeError
  end.

Definition api_base : string := "https://restcountries.com/v3.1".

(** The body of the [try] in [fetch_country_data], identical in both
    generators; the result is [countries_data] after the iteration. *)
Definition fetch_one (country_name : string) (countries_data : list json)
  : M (list json) :=
  response <~ http_get (api_base ++ "/name/" ++ country_name) ;;
  _ <~ lift (raise_for_status response) ;;
  data <~ lift (json_body response) ;;
  nonempty <~ lift (if truthy data
                    then (n <- py_len data ;; Ok (0 <? n)%nat)
                    else Ok false) ;;
  if (nonempty : bool)
  then first <~ lift (py_item0 data) ;; ret (countries_data ++ [first])%list
  else ret countries_data.

(** The [for] loop with its [except requests.exceptions.RequestException]
    handler: a request exception skips the name, any other one leaves the
    loop and the function. *)
Fixpoint fetch_loop (country_names : list string) (countries_data : list json)
  : M (list json) :=
  fun w =>
    match country_names with
    | [] => (Ok countries_data, w)
    | country_name :: rest =>
        match fetch_one country_name countries_data w with
        | (Ok countries_data', w') => fetch_loop rest countries_data' w'
        | (Raise e, w') =>
            if is_request_exception e then fetch_loop rest countries_data w'
            else (Raise e, w')
        | (Unmodelled, w') => (Unmodelled, w')
        end
    end.

Definition fetch_country_data (country_names : list string) : M (list json) :=
  fetch_loop country_names [].

(** ** Reading XML back

    [ET.parse] on the fragment of XML the generators can produce: an
    optional declaration (exactly [xml_declaration]), elements with plain
    ASCII names and no attributes, character data with the five predefined
    entities.  Text that is certainly rejected by the parser raises
    [ParseError]; comments, CDATA sections, other processing instructions,
    DOCTYPE, attributes, name spaces, character references, carriage
    returns, control characters and non-ASCII bytes are [Unmodelled]. *)

Inductive token : Type :=
| TDecl
| TText (s : string)
| TOpen (n : string)
| TClose (n : string)
| TEmpty (n : string).

Definition is_letter (c : ascii) : bool :=
  let n := nat_of_ascii c in
  ((65 <=? n) && (n <=? 90) || (97 <=? n) && (n <=? 122))%nat.

Definition is_digit (c : ascii) : bool :=
  let n := nat_of_ascii c in ((48 <=? n) && (n <=? 57))%nat.

Definition is_name_start (c : ascii) : bool := is_letter c || Ascii.eqb c "_".

Definition is_name_char (c : ascii) : bool :=
  is_name_start c || is_digit c || Ascii.eqb c "-" || Ascii.eqb c ".".

Definition is_space (c : ascii) : bool :=
  let n := nat_of_ascii c in ((n =? 32) || (n =? 9) || (n =? 10))%nat.

(** Printable ASCII, tab and line feed. *)
Definition is_plain (c : ascii) : bool :=
  let n := nat_of_ascii c in ((32 <=? n) && (n <=? 126))%nat || is_space c.

Fixpoint all_chars (p : ascii -> bool) (s : string) : bool :=
  match s with
  | EmptyString => true
  | String c s' => p c && all_chars p s'
  end.

Fixpoint ends_with (suf s : string) : bool :=
  String.eqb suf s ||
  match s with
  | EmptyString => false
  | String _ s' => ends_with suf s'
  end.

Definition is_name (s : string) : bool :=
  match s with
  | EmptyString => false
  | String c s' => is_name_start c && all_chars is_name_char s'
  end.

(** Splits a tag body into its leading name characters and the rest. *)
Fixpoint span_name (s : string) : string * string :=
  match s with
  | EmptyString => (EmptyString, EmptyString)
  | String c s' =>
      if is_name_char c
      then let (n, r) := span_name s' in (String c n, r)
      else (EmptyString, s)
  end.

Fixpoint lstrip_space (s : string) : string :=
  match s with
  | String c s' => if is_space c then lstrip_space s' else s
  | EmptyString => EmptyString
  end.

(** The token a tag body (the text between [<] and [>]) stands for. *)
Definition classify (body : string) : outcome token :=
  if negb (all_chars (fun c => negb (Ascii.eqb c ":")) body) then Unmodelled
  else
    match body with
    | String "/" rest =>
        let (n, r) := span_name rest in
        if is_name n && String.eqb (lstrip_space r) EmptyString
        then Ok (TClose n) else Raise ParseError
    | _ =>
        let (n, r) := span_name body in
        if is_name n then
          if String.eqb (lstrip_space r) EmptyString then Ok (TOpen n)
          else if String.eqb (lstrip_space r) "/" then Ok (TEmpty n)
          else Raise ParseError
        else Raise ParseError
    end.

(** The replacement text of a reference [&ref;]. *)
Definition entity (ref : string) : outcome string :=
  if String.eqb ref "amp" then Ok "&"
  else if String.eqb ref "lt" then Ok "<"
  else if String.eqb ref "gt" then Ok ">"
  else if String.eqb ref "quot" then Ok dq
  else if String.eqb ref "apos" then Ok "'"
  else if has_prefix "#" ref then Unmodelled
  else Raise ParseError.

Inductive lex_mode : Type :=
| InText (txt : string)
| InTag (body : string)
| InPI (body : string)
| InRef (txt ref : string).

Definition text_token (txt : string) : list token :=
  if String.eqb txt EmptyString then [] else [TText txt].

Definition snoc (s : string) (c : ascii) : string := s ++ String c EmptyString.

(** The body of the declaration, between [<] and [>]. *)
Definition declaration_body : string :=
  "?xml version=" ++ dq ++ "1.0" ++ dq ++ " encoding=" ++ dq ++ "UTF-8" ++ dq ++ "?".

(** The tokens of a document, one character at a time. *)
Fixpoint lex (m : lex_mode) (s : string) : outcome (list token) :=
  match s with
  | EmptyString =>
      match m with
      | InText txt => Ok (text_token txt)
      | _ => Raise ParseError
      end
  | String c s' =>
      match m with
      | InText txt =>
          if Ascii.eqb c "<" then
            toks <- lex (InTag EmptyString) s' ;; Ok (text_token txt ++ toks)%list
          else if Ascii.eqb c "&" then lex (InRef txt EmptyString) s'
          else if Ascii.eqb c ">" && ends_with "]]" txt then Raise ParseError
          else if is_plain c then lex (InText (snoc txt c)) s'
          else Unmodelled
      | InTag body =>
          if Ascii.eqb c ">" then
            tok <- classify body ;;
            toks <- lex (InText EmptyString) s' ;;
            Ok (tok :: toks)
          else if Ascii.eqb c "<" then Raise ParseError
          else if String.eqb body EmptyString && Ascii.eqb c "?"
          then lex (InPI (String c EmptyString)) s'
          else if Ascii.eqb c "!" || Ascii.eqb c "'"
                  || Ascii.eqb c (ascii_of_nat 34) || negb (is_plain c)
          then Unmodelled
          else lex (InTag (snoc body c)) s'
      | InPI body =>
          if Ascii.eqb c ">" && ends_with "?" body then
            if String.eqb body declaration_body
            then toks <- lex (InText EmptyString) s' ;; Ok (TDecl :: toks)
            else Unmodelled
          else if is_plain c then lex (InPI (snoc body c)) s'
          else Unmodelled
      | InRef txt ref =>
          if Ascii.eqb c ";" then
            r <- entity ref ;; lex (InText (txt ++ r)) s'
          else if is_name_char c || Ascii.eqb c "#" then lex (InRef txt (snoc ref c)) s'
          else if is_plain c then Raise ParseError
          else Unmodelled
      end
  end.

(** An open element of the tree builder: its tag, its text, and the
    children closed so far, last first. *)
Definition frame : Type := string * option string * list element.

Definition set_tail (e : element) (t : string) : element :=
  match e with Element tag text children _ => Element tag text children (Some t) end.

(** [TreeBuilder._flush]: text goes to the open element when it has no
    child yet, and to the tail of its last child otherwise. *)
Definition add_text (f : frame) (t : string) : frame :=
  match f with
  | (tag, text, []) => (tag, Some t, [])
  | (tag, text, last :: before) => (tag, text, set_tail last t :: before)
  end.

Definition add_child (f : frame) (e : element) : frame :=
  match f with (tag, text, children) => (tag, text, e :: children) end.

(** Closes the element [e]: it becomes the root, or a child of the
    enclosing open element. *)
Definition close_into (e : element) (stack : list frame)
  : list frame * option element :=
  match stack with
  | [] => ([], Some e)
  | parent :: outer => (add_child parent e :: outer, None)
  end.

Fixpoint build (toks : list token) (stack : list frame) (root : option element)
  : outcome element :=
  match toks with
  | [] =>
      match stack, root with
      | [], Some r => Ok r
      | _, _ => Raise ParseError
      end
  | TDecl :: _ => Raise ParseError
  | TText t :: toks' =>
      match stack with
      | [] => if all_chars is_space t then build toks' [] root else Raise ParseError
      | f :: outer => build toks' (add_text f t :: outer) root
      end
  | TOpen n :: toks' =>
      match stack, root with
      | [], Some _ => Raise ParseError
      | _, _ => build toks' ((n, None, []) :: stack) root
      end
  | TEmpty n :: toks' =>
      match stack, root with
      | [], Some _ => Raise ParseError
      | _, _ =>
          let (stack', root') := close_into (Element n None [] None) stack in
          build toks' stack' (match root' with Some r => Some r | None => root end)
      end
  | TClose n :: toks' =>
      match stack with
      | [] => Raise ParseError
      | (tag, text, children) :: outer =>
          if String.eqb tag n then
            let (stack', root') :=
              close_into (Element tag text (rev children) None) outer in
            build toks' stack' (match root' with Some r => Some r | None => root end)
          else Raise ParseError
      end
  end.

(** [ET.fromstring]: the root element of a document. *)
Definition parse_xml (doc : string) : outcome element :=
  toks <- lex (InText EmptyString) doc ;;
  match toks with
  | TDecl :: toks' => build toks' [] None
  | _ => build toks [] None
  end.

Definition tag_of (e : element) : string :=
  match e with Element tag _ _ _ => tag end.

Definition children_of (e : element) : list element :=
  match e with Element _ _ children _ => children end.

Definition text_of (e : element) : option string :=
  match e with Element _ text _ _ => text end.

(** [e.findall(".//" + tag)]: the proper descendants of [e] with this tag,
    in document order. *)
Fixpoint findall_descendants (tag : string) (e : element) : list element :=
  match e with
  | Element _ _ children _ =>
      flat_map (fun c =>
                  (if String.eqb (tag_of c) tag then [c] else [])
                  ++ findall_descendants tag c)%list children
  end.

(** ** [improved_xml_generator.py] *)

Module Improved.

Definition language_priority : list string :=
  ["hin"; "jpn"; "deu"; "fra"; "spa"; "ara"; "zho"].

(** The [for lang in language_priority] loop with its [break]; the result
    is the value of [local_name] after the loop. *)
Fixpoint priority_loop (native_names : json) (langs : list string)
  : outcome json :=
  match langs with
  | [] => Ok (JStr EmptyString)
  | lang :: rest =>
      found <- py_contains native_names lang ;;
      if (found : bool) then official_of native_names lang
      else priority_loop native_names rest
  end.

Definition extract_local_name (native_names : json) : outcome json :=
  local_name <- priority_loop native_names language_priority ;;
  if negb (truthy local_name) && truthy native_names then
    first_lang <- first_key native_names ;;
    official_of native_names first_lang
  else Ok local_name.

Definition extract_xml_data (country_data : json) : outcome ExtractedCountry :=
  name_data <- py_get country_data "name" (JDict []) ;;
  currencies <- py_get country_data "currencies" (JDict []) ;;
  native_names <- py_get name_data "nativeName" (JDict []) ;;
  local_name <- extract_local_name native_names ;;
  currency_info <- extract_currency currencies ;;
  code <- py_get country_data "cca2" (JStr EmptyString) ;;
  original_name <- py_get name_data "official" (JStr EmptyString) ;;
  common_name <- py_get name_data "common" (JStr EmptyString) ;;
  Ok (mkExtracted code original_name common_name local_name currency_info).

(** The twelve lines one country adds to [xml_lines]. *)
Definition country_block (xml_data : ExtractedCountry) : outcome (list string) :=
  code <- py_str (code xml_data) ;;
  original_name <- py_str (original_name xml_data) ;;
  common_name <- py_str (common_name xml_data) ;;
  local_name <- py_str (local_name xml_data) ;;
  currency_code <- py_str (cur_code (currency xml_data)) ;;
  currency_name <- py_str (cur_name (currency xml_data)) ;;
  currency_symbol <- py_str (cur_symbol (currency xml_data)) ;;
  Ok [ "  <Countries>";
       "    <Code>" ++ code ++ "</Code>";
       "    <OriginalName>" ++ original_name ++ "</OriginalName>";
       "    <CommonName>" ++ common_name ++ "</CommonName>";
       "    <LocalName>" ++ local_name ++ "</LocalName>";
       "    <OfficialCurrency>";
       "      <Code>" ++ currency_code ++ "</Code>";
       "      <Name>" ++ currency_name ++ "</Name>";
       "      <Symbol>" ++ currency_symbol ++ "</Symbol>";
       "    </OfficialCurrency>";
       "  </Countries>";
       EmptyString ].

(** The loop over [countries_data], extending [xml_lines]. *)
Fixpoint format_loop (countries_data : list json) (xml_lines : list string)
  : outcome (list string) :=
  match countries_data with
  | [] => Ok xml_lines
  | country_data :: rest =>
      xml_data <- extract_xml_data country_data ;;
      block <- country_block xml_data ;;
      format_loop rest (xml_lines ++ block)%list
  end.

(** [xml_lines] as it stands before the join. *)
Definition document_lines (countries_data : list json) : outcome (list string) :=
  xml_lines <- format_loop countries_data [xml_declaration; "<CountriesCollection>"] ;;
  Ok (xml_lines ++ ["</CountriesCollection>"])%list.

(** [final_xml]. *)
Definition render_document (countries_data : list json) : outcome string :=
  xml_lines <- document_lines countries_data ;;
  Ok (join nl xml_lines).

Definition generate_formatted_xml (countries_data : list json) (output_file : string)
  : M string :=
  final_xml <~ lift (render_document countries_data) ;;
  _ <~ on_disk (makedirs (dirname output_file)) ;;
  _ <~ on_disk (write_file output_file final_xml) ;;
  ret output_file.

(** Returns [None] when nothing was fetched, the output path otherwise. *)
Definition generate_countries_xml (country_names : list string) (output_file : string)
  : M (option string) :=
  countries_data <~ fetch_country_data country_names ;;
  if is_empty countries_data then ret None
  else
    output_path <~ generate_formatted_xml countries_data output_file ;;
    ret (Some output_path).

End Improved.

(** ** [simple_xml_generator.py] *)

Module Simple.

(** The [if "hin" .. elif "jpn" .. elif native_names] chain. *)
Definition extract_local_name (native_names : json) : outcome json :=
  has_hin <- py_contains native_names "hin" ;;
  if (has_hin : bool) then official_of native_names "hin"
  else
    has_jpn <- py_contains native_names "jpn" ;;
    if (has_jpn : bool) then official_of native_names "jpn"
    else if truthy native_names then
      first_lang <- first_key native_names ;;
      official_of native_names first_lang
    else Ok (JStr EmptyString).

Definition extract_xml_data (country_data : json) : outcome ExtractedCountry :=
  name_data <- py_get country_data "name" (JDict []) ;;
  currencies <- py_get country_data "currencies" (JDict []) ;;
  native_names <- py_get name_data "nativeName" (JDict []) ;;
  local_name <- extract_local_name native_names ;;
  currency_info <- extract_currency currencies ;;
  code <- py_get country_data "cca2" (JStr EmptyString) ;;
  original_name <- py_get name_data "official" (JStr EmptyString) ;;
  common_name <- py_get name_data "common" (JStr EmptyString) ;;
  Ok (mkExtracted code original_name common_name local_name currency_info).

(** [create_xml_element]: the new sub-element; its text is set only when
    [text] is truthy. *)
Definition create_xml_element (tag : string) (text : json) : outcome element :=
  if truthy text
  then t <- py_str text ;; Ok (Element tag (Some t) [] None)
  else Ok (Element tag None [] None).

(** The [Countries] element built for one record. *)
Definition country_element (xml_data : ExtractedCountry) : outcome element :=
  code <- create_xml_element "Code" (code xml_data) ;;
  original_name <- create_xml_element "OriginalName" (original_name xml_data) ;;
  common_name <- create_xml_element "CommonName" (common_name xml_data) ;;
  local_name <- create_xml_element "LocalName" (local_name xml_data) ;;
  currency_code <- create_xml_element "Code" (cur_code (currency xml_data)) ;;
  currency_name <- create_xml_element "Name" (cur_name (currency xml_data)) ;;
  currency_symbol <- create_xml_element "Symbol" (cur_symbol (currency xml_data)) ;;
  Ok (Element "Countries" None
        [ code; original_name; common_name; local_name;
          Element "OfficialCurrency" None
            [currency_code; currency_name; currency_symbol] None ]
        None).

(** The loop over [countries_data], appending to the children of the
    temporary root. *)
Fixpoint build_loop (countries_data : list json) (children : list element)
  : outcome (list element) :=
  match countries_data with
  | [] => Ok children
  | country_data :: rest =>
      xml_data <- extract_xml_data country_data ;;
      country_elem <- country_element xml_data ;;
      build_loop rest (children ++ [country_elem])%list
  end.

(** [final_xml].  The pretty-printing [try] block never completes: when
    [minidom.parseString] succeeds, [documentElement.innerHTML] raises
    [AttributeError] (minidom elements have no such attribute), and the
    handler keeps the [final_xml] computed before the block. *)
Definition render_document (countries_data : list json) : outcome string :=
  children <- build_loop countries_data [] ;;
  let xml_str := tostring (Element "root" None children None) in
  let xml_str := replace "</root>" EmptyString (replace "<root>" EmptyString xml_str) in
  Ok (xml_declaration ++ nl ++ xml_str).

Definition generate_xml (countries_data : list json) (output_file : string)
  : M string :=
  final_xml <~ lift (render_document countries_data) ;;
  _ <~ on_disk (makedirs (dirname output_file)) ;;
  _ <~ on_disk (write_file output_file final_xml) ;;
  ret output_file.

Definition generate_countries_xml (country_names : list string) (output_file : string)
  : M (option string) :=
  countries_data <~ fetch_country_data country_names ;;
  if is_empty countries_data then ret None
  else
    output_path <~ generate_xml countries_data output_file ;;
    ret (Some output_path).

End Simple.

(** ** [automated_generator.py] *)

Module Automated.

(** The entries of [result["errors"]]; an exception is recorded by its
    class instead of its message. *)
Inductive error_entry : Type :=
| ConnectivityTestFailed
| FileNotCreated
| Exception (e : exn).

(** The dictionary returned by [generate_xml_with_validation];
    [warnings] holds the count of each "could not be processed" warning. *)
Record result : Type := mkResult {
  success : bool;
  countries_requested : nat;
  countries_processed : nat;
  output_file : string;
  file_size : option nat;
  errors : list error_entry;
  warnings : list nat
}.

(** [test_api_connectivity]: any exception means "not accessible". *)
Definition test_api_connectivity : M bool :=
  fun w =>
    match (response <~ http_get "https://restcountries.com/v3.1/name/india" ;;
           lift (raise_for_status response)) w with
    | (Ok _, w') => (Ok true, w')
    | (Raise _, w') => (Ok false, w')
    | (Unmodelled, w') => (Unmodelled, w')
    end.

Definition initial_result (countries : list string) (output_file : string) : result :=
  mkResult false (List.length countries) 0 output_file None [] [].

Definition with_error (r : result) (e : error_entry) : result :=
  mkResult (success r) (countries_requested r) (countries_processed r)
    (output_file r) (file_size r) (errors r ++ [e])%list (warnings r).

(** The body of the [try] block. *)
Definition validation_body (countries : list string) (output_file : string)
  : M result :=
  let result := initial_result countries output_file in
  accessible <~ test_api_connectivity ;;
  if negb accessible then ret (with_error result ConnectivityTestFailed)
  else
    output_path <~ Improved.generate_countries_xml countries output_file ;;
    created <~ match output_path with
               | Some p =>
                   if String.eqb p EmptyString then ret false
                   else from_disk (path_exists p)
               | None => ret false
               end ;;
    match output_path, (created : bool) with
    | Some p, true =>
        doc <~ from_disk (read_file p) ;;
        tree <~ lift (parse_xml doc) ;;
        let country_elements := findall_descendants "Countries" tree in
        let processed := List.length country_elements in
        ret (mkResult true (List.length countries) processed output_file
               (Some (String.length doc)) []
               (if (processed <? List.length countries)%nat
                then [List.length countries - processed] else []))
    | _, _ => ret (with_error result FileNotCreated)
    end.

(** [generate_xml_with_validation]: the [except Exception] handler turns an
    exception into an entry of the error list. *)
Definition generate_xml_with_validation (countries : list string) (output_file : string)
  : M result :=
  fun w =>
    match validation_body countries output_file w with
    | (Raise e, w') =>
        (Ok (with_error (initial_result countries output_file) (Exception e)), w')
    | r => r
    end.

End Automated.

(** ** Records of the documented shape

    The API documents a record as a mapping in which every key the
    extractor reads is either absent or holds a value of the documented
    kind: strings for [cca2], [name.official], [name.common] and the
    [official], [name] and [symbol] sub-fields, mappings of mappings for
    [name.nativeName] and [currencies]. *)

Definition is_str (v : json) : bool :=
  match v with JStr _ => true | _ => false end.

Definition absent_or (p : json -> bool) (o : option json) : bool :=
  match o with Some v => p v | None => true end.

(** A mapping whose listed keys are absent or strings. *)
Definition entry_ok (keys : list string) (v : json) : bool :=
  match v with
  | JDict e => forallb (fun k => absent_or is_str (assoc k e)) keys
  | _ => false
  end.

(** A mapping all of whose values satisfy [p]. *)
Definition dict_of (p : json -> bool) (v : json) : bool :=
  match v with
  | JDict d => forallb (fun kv => p (snd kv)) d
  | _ => false
  end.

Definition name_ok (v : json) : bool :=
  match v with
  | JDict d =>
      absent_or is_str (assoc "official" d)
      && absent_or is_str (assoc "common" d)
      && absent_or (dict_of (entry_ok ["official"])) (assoc "nativeName" d)
  | _ => false
  end.

Definition well_shaped (r : json) : bool :=
  match r with
  | JDict d =>
      absent_or is_str (assoc "cca2" d)
      && absent_or name_ok (assoc "name" d)
      && absent_or (dict_of (entry_ok ["name"; "symbol"])) (assoc "currencies" d)
  | _ => false
  end.

(** The value found by following [keys] through nested mappings. *)
Fixpoint get_path (keys : list string) (v : json) : option json :=
  match keys with
  | [] => Some v
  | k :: keys' =>
      match v with
      | JDict d =>
          match assoc k d with
          | Some v' => get_path keys' v'
          | None => None
          end
      | _ => None
      end
  end.

(** A mapping that is absent or empty. *)
Definition no_entries (o : option json) : Prop :=
  o = None \/ o = Some (JDict []).

(** The string a field holds, the empty string when it is absent. *)
Definition or_empty (o : option json) : json :=
  match o with Some v => v | None => JStr EmptyString end.

(** The lines of a country block whose fields are the given strings. *)
Definition block_lines (c o m l cc cn cs : string) : list string :=
  [ "  <Countries>";
    "    <Code>" ++ c ++ "</Code>";
    "    <OriginalName>" ++ o ++ "</OriginalName>";
    "    <CommonName>" ++ m ++ "</CommonName>";
    "    <LocalName>" ++ l ++ "</LocalName>";
    "    <OfficialCurrency>";
    "      <Code>" ++ cc ++ "</Code>";
    "      <Name>" ++ cn ++ "</Name>";
    "      <Symbol>" ++ cs ++ "</Symbol>";
    "    </OfficialCurrency>";
    "  </Countries>";
    EmptyString ].

(** An extracted country all of whose fields are strings. *)
Definition extracted (c o m l cc cn cs : string) : ExtractedCountry :=
  mkExtracted (JStr c) (JStr o) (JStr m) (JStr l)
    (mkCurrency (JStr cc) (JStr cn) (JStr cs)).

(** ** Sample records *)

Definition india : json :=
  JDict
    [ ("name",
       JDict
         [ ("common", JStr "India");
           ("official", JStr "Republic of India");
           ("nativeName",
            JDict
              [ ("eng", JDict [("official", JStr "Republic of India");
                               ("common", JStr "India")]);
                ("hin", JDict [("official", JStr "Bharat Ganarajya");
                               ("common", JStr "Bharat")]) ]) ]);
      ("cca2", JStr "IN");
      ("currencies",
       JDict [("INR", JDict [("name", JStr "Indian rupee"); ("symbol", JStr "Rs")])]) ].

(** A record with a name and nothing else. *)
Definition bare_record : json :=
  JDict [("name", JDict [("common", JStr "Atlantis")])].

(** India's record with a blank Hindi official name. *)
Definition hindi_blank : json :=
  JDict
    [ ("name",
       JDict
         [ ("common", JStr "India");
           ("official", JStr "Republic of India");
           ("nativeName",
            JDict
              [ ("eng", JDict [("official", JStr "Republic of India")]);
                ("hin", JDict [("official", JStr EmptyString)]) ]) ]);
      ("cca2", JStr "IN") ].

(** ** Lookups, as the fetcher's contract describes them *)

Definition lookup_url (country_name : string) : string :=
  api_base ++ "/name/" ++ country_name.

(** A lookup the contract covers: it fails with a request exception (at
    the request, the status check or the decoding) or answers a list. *)
Definition lookup_ok (o : outcome response) : bool :=
  match o with
  | Raise e => is_request_exception e
  | Ok r =>
      match raise_for_status r with
      | Ok _ =>
          match json_body r with
          | Ok (JList _) => true
          | Raise e => is_request_exception e
          | _ => false
          end
      | _ => true
      end
  | Unmodelled => false
  end.

(** The record a lookup contributes: the first element of a non-empty
    result list, nothing otherwise. *)
Definition fetched_record (o : outcome response) : list json :=
  match o with
  | Ok r =>
      match raise_for_status r, json_body r with
      | Ok _, Ok (JList (x :: _)) => [x]
      | _, _ => []
      end
  | _ => []
  end.

(** The lookups of [names], issued as requests number [i], [i+1], ... *)
Fixpoint orderly (net : nat -> string -> outcome response) (i : nat)
  (names : list string) : bool :=
  match names with
  | [] => true
  | n :: rest => lookup_ok (net i (lookup_url n)) && orderly net (S i) rest
  end.

Fixpoint successes (net : nat -> string -> outcome response) (i : nat)
  (names : list string) : list json :=
  match names with
  | [] => []
  | n :: rest => (fetched_record (net i (lookup_url n)) ++ successes net (S i) rest)%list
  end.

(** ** Sample worlds *)

Definition empty_disk : filesystem := mkFS [] [].

Definition answer (data : json) : outcome response := Ok (mkResponse 200 (Ok data)).

(** Every lookup finds India. *)
Definition india_world : world :=
  mkWorld (fun _ _ => answer (JList [india])) [] empty_disk.

(** The first request is answered with India, the second fails with a
    time-out, the third finds nothing, later bodies are not JSON and the
    decoder raises [ValueError]. *)
Definition mixed_world : world :=
  mkWorld
    (fun i _ =>
       match i with
       | 0 => answer (JList [india; bare_record])
       | 1 => Raise Timeout
       | 2 => answer (JList [])
       | _ => Ok (mkResponse 200 (Raise ValueError))
       end)
    [] empty_disk.

(** The number of lines of [xml_lines] that open a country block. *)
Definition block_openers (xml_lines : list string) : nat :=
  List.length (filter (String.eqb "  <Countries>") xml_lines).

(** A file or directory name: not empty, no slash, neither [.] nor [..]. *)
Definition simple_name (s : string) : bool :=
  negb (String.eqb s EmptyString) && negb (has_slash s) && negb (is_dot s).

(** A record whose names hold an ampersand. *)
Definition ampersand_record : json :=
  JDict
    [ ("name",
       JDict [ ("common", JStr "Antigua & Barbuda");
               ("official", JStr "Antigua & Barbuda") ]);
      ("cca2", JStr "AG") ].

(** A record whose common name holds markup. *)
Definition markup_record : json :=
  JDict
    [ ("name", JDict [("common", JStr "Utopia<Countries/>")]);
      ("cca2", JStr "UT") ].

Definition ampersand_world : world :=
  mkWorld (fun _ _ => answer (JList [ampersand_record])) [] empty_disk.

Definition markup_world : world :=
  mkWorld (fun _ _ => answer (JList [markup_record])) [] empty_disk.

(** ** Documents of the improved generator, read back *)

(** The seven strings of an extracted country. *)
Record fields : Type := mkFields {
  f_code : string;
  f_original : string;
  f_common : string;
  f_local : string;
  f_cur_code : string;
  f_cur_name : string;
  f_cur_symbol : string
}.

Definition fields_extracted (f : fields) : ExtractedCountry :=
  extracted (f_code f) (f_original f) (f_common f) (f_local f)
    (f_cur_code f) (f_cur_name f) (f_cur_symbol f).

Definition fields_block (f : fields) : list string :=
  block_lines (f_code f) (f_original f) (f_common f) (f_local f)
    (f_cur_code f) (f_cur_name f) (f_cur_symbol f).

(** Printable ASCII text without the three characters XML text has to
    escape. *)
Definition is_safe (c : ascii) : bool :=
  is_plain c && negb (Ascii.eqb c "<") && negb (Ascii.eqb c "&")
  && negb (Ascii.eqb c ">").

Definition safe_text (s : string) : bool := all_chars is_safe s.

Definition fields_safe (f : fields) : bool :=
  safe_text (f_code f) && safe_text (f_original f) && safe_text (f_common f)
  && safe_text (f_local f) && safe_text (f_cur_code f)
  && safe_text (f_cur_name f) && safe_text (f_cur_symbol f).

(** [lexes m s k m']: reading [s] in mode [m] leaves the lexer in mode
    [m'] and puts the tokens [k] in front of those of the rest. *)
Definition lexes (m : lex_mode) (s : string) (k : list token -> list token)
  (m' : lex_mode) : Prop :=
  forall rest, lex m (s ++ rest) = toks <- lex m' rest ;; Ok (k toks).

(** The indentations between the elements of a block. *)
Definition ws2 : string := nl ++ "  ".
Definition ws4 : string := nl ++ "    ".
Definition ws6 : string := nl ++ "      ".

Definition opt_text (v : string) : option string :=
  if String.eqb v EmptyString then None else Some v.

(** A leaf element as the parser builds it. *)
Definition leaf (n v tl : string) : element :=
  Element n (opt_text v) [] (Some tl).

(** The element the parser builds for one block, before its tail is set. *)
Definition country_element (f : fields) : element :=
  Element "Countries" (Some ws4)
    [ leaf "Code" (f_code f) ws4;
      leaf "OriginalName" (f_original f) ws4;
      leaf "CommonName" (f_common f) ws4;
      leaf "LocalName" (f_local f) ws4;
      Element "OfficialCurrency" (Some ws6)
        [ leaf "Code" (f_cur_code f) ws6;
          leaf "Name" (f_cur_name f) ws6;
          leaf "Symbol" (f_cur_symbol f) ws4 ]
        (Some ws2) ]
    None.

Definition clear_tail (e : element) : element :=
  match e with Element tag text children _ => Element tag text children None end.

(** The tokens of a leaf element, in front of [rest]. *)
Definition leaf_tokens (n v : string) (rest : list token) : list token :=
  (TOpen n :: text_token v ++ TClose n :: rest)%list.

(** The tokens of one block read with the text [t] pending. *)
Definition block_tokens (t : string) (f : fields) (rest : list token) : list token :=
  (text_token (t ++ "  ") ++
   TOpen "Countries" :: TText ws4 ::
   leaf_tokens "Code" (f_code f) (TText ws4 ::
   leaf_tokens "OriginalName" (f_original f) (TText ws4 ::
   leaf_tokens "CommonName" (f_common f) (TText ws4 ::
   leaf_tokens "LocalName" (f_local f) (TText ws4 ::
   TOpen "OfficialCurrency" :: TText ws6 ::
   leaf_tokens "Code" (f_cur_code f) (TText ws6 ::
   leaf_tokens "Name" (f_cur_name f) (TText ws6 ::
   leaf_tokens "Symbol" (f_cur_symbol f) (TText ws4 ::
   TClose "OfficialCurrency" :: TText ws2 ::
   TClose "Countries" :: rest))))))))%list.

(** The tokens from the first block to the end of the document. *)
Fixpoint body_tokens (t : string) (fs : list fields) : list token :=
  match fs with
  | [] => (text_token t ++ [TClose "CountriesCollection"])%list
  | f :: fs' => block_tokens t f (body_tokens (nl ++ nl) fs')
  end.

(** The text of an element, the empty string when it has none. *)
Definition text_or_empty (e : element) : string :=
  match text_of e with Some t => t | None => EmptyString end.

(** The fields a parsed [Countries] element holds. *)
Definition read_fields (e : element) : option fields :=
  match children_of e with
  | [c; o; m; l; oc] =>
      match children_of oc with
      | [cc; cn; cs] =>
          Some (mkFields (text_or_empty c) (text_or_empty o) (text_or_empty m)
                  (text_or_empty l) (text_or_empty cc) (text_or_empty cn)
                  (text_or_empty cs))
      | _ => None
      end
  | _ => None
  end.

(** Each line followed by a line feed. *)
Definition unlines (l : list string) : string :=
  String.concat EmptyString (map (fun x => x ++ nl) l).

(** The text of a leaf element and of a block, piece by piece. *)
Definition open_tag (n : string) : string := String "<" (n ++ ">").
Definition close_tag (n : string) : string := String "<" (String "/" (n ++ ">")).
Definition leaf_text (n v : string) : string := open_tag n ++ v ++ close_tag n.

Definition block_text (f : fields) : string :=
  "  " ++ open_tag "Countries" ++ ws4 ++
  leaf_text "Code" (f_code f) ++ ws4 ++
  leaf_text "OriginalName" (f_original f) ++ ws4 ++
  leaf_text "CommonName" (f_common f) ++ ws4 ++
  leaf_text "LocalName" (f_local f) ++ ws4 ++
  open_tag "OfficialCurrency" ++ ws6 ++
  leaf_text "Code" (f_cur_code f) ++ ws6 ++
  leaf_text "Name" (f_cur_name f) ++ ws6 ++
  leaf_text "Symbol" (f_cur_symbol f) ++ ws4 ++
  close_tag "OfficialCurrency" ++ ws2 ++
  close_tag "Countries" ++ (nl ++ nl).

(** The text from the first block to the end of the document. *)
Fixpoint body_text (fs : list fields) : string :=
  match fs with
  | [] => close_tag "CountriesCollection"
  | f :: fs' => block_text f ++ body_text fs'
  end.

(** ** Documents of the simple generator *)

(** A leaf element as [create_xml_element] makes it. *)
Definition new_leaf (n v : string) : element := Element n (opt_text v) [] None.

(** The [Countries] element the simple generator builds from the fields. *)
Definition simple_country (f : fields) : element :=
  Element "Countries" None
    [ new_leaf "Code" (f_code f);
      new_leaf "OriginalName" (f_original f);
      new_leaf "CommonName" (f_common f);
      new_leaf "LocalName" (f_local f);
      Element "OfficialCurrency" None
        [ new_leaf "Code" (f_cur_code f);
          new_leaf "Name" (f_cur_name f);
          new_leaf "Symbol" (f_cur_symbol f) ]
        None ]
    None.

(** [passes old s]: removing the occurrences of [old] leaves [s] as it
    is, whatever text follows it. *)
Definition passes (old s : string) : Prop :=
  forall t, replace old EmptyString (s ++ t) = s ++ replace old EmptyString t.

Definition no_lt (s : string) : bool :=
  all_chars (fun c => negb (Ascii.eqb c "<")) s.

(** The three forms of a tag pass a pattern that starts with [<]. *)
Definition tag_passes (old n : string) : Prop :=
  passes old (open_tag n) /\ passes old (close_tag n)
  /\ passes old (String "<" (n ++ " />")).

(** The fields of the sample records. *)
Definition india_fields : fields :=
  mkFields "IN" "Republic of India" "India" "Bharat Ganarajya" "INR" "Indian rupee" "Rs".

Definition bare_fields : fields :=
  mkFields EmptyString EmptyString "Atlantis" EmptyString EmptyString EmptyString
    EmptyString.

(** ** More sample data *)

(** Every lookup is answered with a JSON object instead of a list. *)
Definition object_world : world :=
  mkWorld
    (fun _ _ => answer (JDict [("status", JNum 404); ("message", JStr "Not Found")]))
    [] empty_disk.

(** Native names without Hindi or Japanese. *)
Definition german_names : list (string * json) :=
  [ ("bar", JDict [("official", JStr "Bundesrepublik Deutschland (bar)")]);
    ("deu", JDict [("official", JStr "Bundesrepublik Deutschland")]) ].

(** Native names without any language of the priority list. *)
Definition english_names : list (string * json) :=
  [ ("eng", JDict [("official", JStr "Commonwealth of Australia")]);
    ("mri", JDict [("official", JStr "Aotearoa")]) ].

(** A disk that already holds an output file and another file. *)
Definition used_disk : filesystem :=
  mkFS [(false, ["output"])]
    [ ((false, ["output"; "countries.xml"]), "stale");
      ((false, ["notes.txt"]), "keep me") ].

Definition used_world : world :=
  mkWorld (fun _ _ => answer (JList [india])) [] used_disk.

(** The connectivity probe fails: the request raises, or the status is an
    error status. *)
Definition probe_failed (o : outcome response) : bool :=
  match o with
  | Raise _ => true
  | Ok r => match raise_for_status r with Raise _ => true | _ => false end
  | Unmodelled => false
  end.

(** No lookup gets through. *)
Definition offline_world : world :=
  mkWorld (fun _ _ => Raise ConnectionError) [] empty_disk.

(** ** The simple generator's document, read back *)

(** What [_escape_cdata] makes of one character. *)
Definition escape_char (c : ascii) : string :=
  if Ascii.eqb c "&" then "&amp;"
  else if Ascii.eqb c "<" then "&lt;"
  else if Ascii.eqb c ">" then "&gt;"
  else String c EmptyString.

Definition plain_text (s : string) : bool := all_chars is_plain s.

(** Every field is printable ASCII text. *)
Definition fields_plain (f : fields) : bool :=
  plain_text (f_code f) && plain_text (f_original f) && plain_text (f_common f)
  && plain_text (f_local f) && plain_text (f_cur_code f)
  && plain_text (f_cur_name f) && plain_text (f_cur_symbol f).

(** The tokens of a serialised leaf: the short form when it has no text. *)
Definition new_leaf_tokens (n v : string) (rest : list token) : list token :=
  if String.eqb v EmptyString then TEmpty n :: rest
  else TOpen n :: TText v :: TClose n :: rest.

(** The tokens of a serialised [Countries] element. *)
Definition simple_tokens (f : fields) (rest : list token) : list token :=
  TOpen "Countries" ::
  new_leaf_tokens "Code" (f_code f) (
  new_leaf_tokens "OriginalName" (f_original f) (
  new_leaf_tokens "CommonName" (f_common f) (
  new_leaf_tokens "LocalName" (f_local f) (
  TOpen "OfficialCurrency" ::
  new_leaf_tokens "Code" (f_cur_code f) (
  new_leaf_tokens "Name" (f_cur_name f) (
  new_leaf_tokens "Symbol" (f_cur_symbol f) (
  TClose "OfficialCurrency" :: TClose "Countries" :: rest))))))).

(** The fields of [ampersand_record]. *)
Definition ampersand_fields : fields :=
  mkFields "AG" "Antigua & Barbuda" "Antigua & Barbuda" EmptyString EmptyString
    EmptyString EmptyString.

(** ** [parse_country_list]

    [str.strip] and [str.lower] follow the Unicode tables; on ASCII text
    they are the functions below, and text with a non-ASCII byte is
    outside the model. *)

Definition is_ascii_char (c : ascii) : bool := (nat_of_ascii c <? 128)%nat.

(** [c.isspace()] for an ASCII character. *)
Definition is_py_space (c : ascii) : bool :=
  let n := nat_of_ascii c in
  ((9 <=? n) && (n <=? 13) || (28 <=? n) && (n <=? 32))%nat.

Definition is_upper (c : ascii) : bool :=
  let n := nat_of_ascii c in ((65 <=? n) && (n <=? 90))%nat.

Definition lower_char (c : ascii) : ascii :=
  if is_upper c then ascii_of_nat (nat_of_ascii c + 32) else c.

(** [s.lower()]. *)
Fixpoint lower (s : string) : string :=
  match s with
  | EmptyString => EmptyString
  | String c s' => String (lower_char c) (lower s')
  end.

(** [s.lstrip()], [s.rstrip()] and [s.strip()]. *)
Fixpoint lstrip (s : string) : string :=
  match s with
  | String c s' => if is_py_space c then lstrip s' else s
  | EmptyString => EmptyString
  end.

Fixpoint rstrip (s : string) : string :=
  match s with
  | EmptyString => EmptyString
  | String c s' =>
      let r := rstrip s' in
      if String.eqb r EmptyString && is_py_space c then EmptyString
      else String c r
  end.

Definition strip (s : string) : string := rstrip (lstrip s).

(** [s.split(sep)] for a one-character separator. *)
Fixpoint split_on (sep : ascii) (s : string) : list string :=
  match s with
  | EmptyString => [EmptyString]
  | String c s' =>
      if Ascii.eqb c sep then EmptyString :: split_on sep s'
      else match split_on sep s' with
           | [] => [String c EmptyString]
           | h :: t => String c h :: t
           end
  end.

Definition comma : ascii := ",".

Module Cli.

(** [AutomatedCountryGenerator.parse_country_list] and [main] of
    [automated_generator.py]. *)
Definition parse_country_list (countries_input : string) : outcome (list string) :=
  if negb (all_chars is_ascii_char countries_input) then Unmodelled
  else if String.eqb countries_input EmptyString then Ok []
  else
    let countries :=
      map (fun country => lower (strip country)) (split_on comma countries_input) in
    Ok (filter (fun country => negb (String.eqb country EmptyString)) countries).

(** The parsed command line; [--verbose] only affects logging. *)
Record arguments : Type := mkArguments {
  arg_countries : string;
  arg_output : string;
  arg_config : option string;
  arg_test_only : bool
}.

(** The names a [countries] value of a config file stands for.  Only a
    list of strings is modelled: iterating over an object's keys or a
    string's characters, as the code would, is not. *)
Fixpoint strings_of (l : list json) : option (list string) :=
  match l with
  | [] => Some []
  | JStr s :: l' =>
      match strings_of l' with Some names => Some (s :: names) | None => None end
  | _ :: _ => None
  end.

Definition names_of (countries : json) : outcome (list string) :=
  match countries with
  | JList l => match strings_of l with Some names => Ok names | None => Unmodelled end
  | _ => Unmodelled
  end.

(** [sys.exit(0 if ok else 1)]. *)
Definition exit_status (ok : bool) : nat := if ok then 0 else 1.

Section Main.

(** [json.loads]: the decoder of the standard library, not modelled. *)
Variable json_loads : string -> outcome json.

(** The [try] block that loads the config file; the result is
    [countries]. *)
Definition load_config (config_path : string) : M json :=
  text <~ from_disk (read_file config_path) ;;
  config <~ lift (json_loads text) ;;
  countries <~ lift (py_get config "countries" (JList [])) ;;
  _ <~ lift (py_len countries) ;;
  ret countries.

(** The rest of [main] once [countries] is known. *)
Definition run (countries : list string) (output : string) : M nat :=
  if is_empty countries then ret 1
  else
    result <~ Automated.generate_xml_with_validation countries output ;;
    ret (exit_status (Automated.success result)).

(** [main]; the result is the exit status. *)
Definition main (args : arguments) : M nat :=
  if arg_test_only args then
    success <~ Automated.test_api_connectivity ;;
    ret (exit_status success)
  else
    use_config <~ match arg_config args with
                  | Some p =>
                      if String.eqb p EmptyString then ret false
                      else from_disk (path_exists p)
                  | None => ret false
                  end ;;
    match arg_config args, (use_config : bool) with
    | Some p, true =>
        fun w =>
          match load_config p w with
          | (Ok countries, w') =>
              if truthy countries
              then (names <~ lift (names_of countries) ;; run names (arg_output args)) w'
              else (Ok 1, w')
          | (Raise _, w') => (Ok 1, w')
          | (Unmodelled, w') => (Unmodelled, w')
          end
    | _, _ =>
        countries <~ lift (parse_country_list (arg_countries args)) ;;
        run countries (arg_output args)
    end.

End Main.

End Cli.

(** A name as [parse_country_list] returns them: ASCII, not empty, no
    comma, no white space at either end, no capital letter. *)
Definition starts_clean (s : string) : bool :=
  match s with String c _ => negb (is_py_space c) | EmptyString => true end.

Fixpoint ends_clean (s : string) : bool :=
  match s with
  | EmptyString => true
  | String c EmptyString => negb (is_py_space c)
  | String _ s' => ends_clean s'
  end.

Definition clean_name (s : string) : bool :=
  all_chars is_ascii_char s
  && negb (String.eqb s EmptyString)
  && all_chars (fun c => negb (Ascii.eqb c comma)) s
  && starts_clean s && ends_clean s
  && all_chars (fun c => negb (is_upper c)) s.

(** The number of commas of a string. *)
Fixpoint commas (s : string) : nat :=
  match s with
  | EmptyString => 0
  | String c s' => (if Ascii.eqb c comma then 1 else 0) + commas s'
  end.

(** A decoder for the sample runs: it knows one config text. *)
Definition sample_loads (text : string) : outcome json :=
  if String.eqb text "{countries: [india]}"
  then Ok (JDict [("countries", JList [JStr "india"])])
  else Raise ValueError.


(** A disk with a config file, on a network where every lookup finds India. *)
Definition config_disk : filesystem :=
  mkFS [(false, ["config"])]
    [ ((false, ["config"; "countries.json"]), "{countries: [india]}");
      ((false, ["config"; "broken.json"]), "{countries: ") ].

Definition config_world : world :=
  mkWorld (fun _ _ => answer (JList [india])) [] config_disk.

(** ** [examples/test_api.py] *)

Module Examples.

(** The dictionary returned by [extract_xml_relevant_data]; its currency
    is the empty dictionary ([None]) when the record has no currency. *)
Record Relevant : Type := mkRelevant {
  code : json;
  original_name : json;
  common_name : json;
  local_name : json;
  currency : option CurrencyInfo
}.

(** [fetch_single_country]: the first record, or the empty dictionary. *)
Definition fetch_single_country (country_name : string) : M json :=
  fun w =>
    match (response <~ http_get (api_base ++ "/name/" ++ country_name) ;;
           _ <~ lift (raise_for_status response) ;;
           data <~ lift (json_body response) ;;
           nonempty <~ lift (if truthy data
                             then (n <- py_len data ;; Ok (0 <? n)%nat)
                             else Ok false) ;;
           if (nonempty : bool) then lift (py_item0 data) else ret (JDict [])) w with
    | (Raise e, w') =>
        if is_request_exception e then (Ok (JDict []), w') else (Raise e, w')
    | r => r
    end.

(** The [if "hin" .. elif native_names] chain. *)
Definition extract_local_name (native_names : json) : outcome json :=
  has_hin <- py_contains native_names "hin" ;;
  if (has_hin : bool) then official_of native_names "hin"
  else if truthy native_names then
    first_lang <- first_key native_names ;;
    official_of native_names first_lang
  else Ok (JStr EmptyString).

Definition extract_currency (currencies : json) : outcome (option CurrencyInfo) :=
  if truthy currencies then
    currency_code <- first_key currencies ;;
    currency_data <- py_getitem currencies currency_code ;;
    name <- py_get currency_data "name" (JStr EmptyString) ;;
    symbol <- py_get currency_data "symbol" (JStr EmptyString) ;;
    Ok (Some (mkCurrency (JStr currency_code) name symbol))
  else Ok None.

Definition extract_xml_relevant_data (country_data : json) : outcome Relevant :=
  name_data <- py_get country_data "name" (JDict []) ;;
  currencies <- py_get country_data "currencies" (JDict []) ;;
  native_names <- py_get name_data "nativeName" (JDict []) ;;
  local_name <- extract_local_name native_names ;;
  currency_info <- extract_currency currencies ;;
  code <- py_get country_data "cca2" (JStr EmptyString) ;;
  original_name <- py_get name_data "official" (JStr EmptyString) ;;
  common_name <- py_get name_data "common" (JStr EmptyString) ;;
  Ok (mkRelevant code original_name common_name local_name currency_info).

End Examples.

(* ================================================================= *)
(** * Properties *)

(** ** Extraction *)

Lemma assoc_forallb (p : json -> bool) (k : string) (d : list (string * json)) (v : json) :
  forallb (fun kv => p (snd kv)) d = true -> assoc k d = Some v -> p v = true.
Proof.
  induction d as [|[k' v'] d IH]; simpl; [discriminate|].
  intros H; apply andb_true_iff in H as [Hv Hd].
  destruct (String.eqb k k'); [intros [= <-]; exact Hv | auto].
Qed.

Lemma is_str_inv (v : json) : is_str v = true -> exists s, v = JStr s.
Proof. destruct v; try discriminate; eauto. Qed.

Lemma entry_get (keys : list string) (k : string) (v : json) :
  entry_ok keys v = true -> In k keys ->
  exists e s, v = JDict e /\ py_get v k (JStr EmptyString) = Ok (JStr s)
              /\ JStr s = or_empty (assoc k e).
Proof.
  destruct v; try discriminate. simpl. intros H Hin.
  rewrite forallb_forall in H. specialize (H k Hin).
  destruct (assoc k d) as [v|] eqn:E; simpl in *.
  - apply is_str_inv in H as [s ->]. exists d, s. rewrite E. auto.
  - exists d, EmptyString. rewrite E. auto.
Qed.

Lemma official_of_entry (d : list (string * json)) (k : string) (v : json) :
  forallb (fun kv => entry_ok ["official"] (snd kv)) d = true ->
  assoc k d = Some v ->
  exists s, official_of (JDict d) k = Ok (JStr s).
Proof.
  intros Hd Hk. unfold official_of; simpl. rewrite Hk; simpl.
  pose proof (assoc_forallb _ _ _ _ Hd Hk) as Hv.
  destruct (entry_get ["official"] "official" v Hv) as (e & s & _ & -> & _);
    [left; reflexivity | eauto].
Qed.

Lemma priority_loop_shaped (d : list (string * json)) (langs : list string) :
  forallb (fun kv => entry_ok ["official"] (snd kv)) d = true ->
  exists s, Improved.priority_loop (JDict d) langs = Ok (JStr s).
Proof.
  intros Hd. induction langs as [|lang rest IH]; simpl; [eauto|].
  destruct (assoc lang d) as [v|] eqn:Hk; simpl; [|exact IH].
  exact (official_of_entry d lang v Hd Hk).
Qed.

Lemma priority_loop_empty (langs : list string) :
  Improved.priority_loop (JDict []) langs = Ok (JStr EmptyString).
Proof. induction langs; simpl; auto. Qed.

Lemma assoc_head (k : string) (v : json) (d : list (string * json)) :
  assoc k ((k, v) :: d) = Some v.
Proof. simpl. rewrite String.eqb_refl. reflexivity. Qed.

Lemma improved_local_name_shaped (nn : json) :
  dict_of (entry_ok ["official"]) nn = true ->
  exists s, Improved.extract_local_name nn = Ok (JStr s)
            /\ (nn = JDict [] -> s = EmptyString).
Proof.
  destruct nn as [| | | | |d]; try discriminate. simpl. intros Hd.
  unfold Improved.extract_local_name.
  destruct (priority_loop_shaped d Improved.language_priority Hd) as [s Hs].
  rewrite Hs. cbn [bind].
  destruct (negb (truthy (JStr s)) && truthy (JDict d)) eqn:Hfb.
  - destruct d as [|[k v] d]; [rewrite andb_false_r in Hfb; discriminate|].
    cbn [first_key bind].
    destruct (official_of_entry _ k v Hd (assoc_head k v d)) as [s' Hs'].
    exists s'. split; [exact Hs' | discriminate].
  - exists s. split; [reflexivity|]. intros [= ->].
    rewrite priority_loop_empty in Hs. congruence.
Qed.

Lemma extract_currency_shaped (cur : json) :
  dict_of (entry_ok ["name"; "symbol"]) cur = true ->
  exists cc cn cs,
    extract_currency cur = Ok (mkCurrency (JStr cc) (JStr cn) (JStr cs))
    /\ (cur = JDict [] -> cc = EmptyString /\ cn = EmptyString /\ cs = EmptyString)
    /\ (forall k e rest, cur = JDict ((k, JDict e) :: rest) ->
          cc = k /\ JStr cn = or_empty (assoc "name" e)
          /\ JStr cs = or_empty (assoc "symbol" e)).
Proof.
  destruct cur as [| | | | |d]; try discriminate. simpl. intros Hd.
  destruct d as [|[k v] d].
  - exists EmptyString, EmptyString, EmptyString. repeat split; discriminate.
  - unfold extract_currency. cbn [truthy is_empty negb first_key bind py_getitem].
    rewrite assoc_head. cbn [bind].
    simpl in Hd. apply andb_true_iff in Hd as [Hv _].
    destruct (entry_get _ "name" v Hv) as (e & cn & He & -> & Hcn); [simpl; auto|].
    destruct (entry_get _ "symbol" v Hv) as (e' & cs & He' & -> & Hcs); [simpl; auto|].
    exists k, cn, cs. cbn [bind]. split; [reflexivity|]. split; [discriminate|].
    intros k0 e0 rest [= -> -> _]. injection He as <-. injection He' as <-. auto.
Qed.

Lemma country_block_strings (c o m l cc cn cs : string) :
  Improved.country_block (extracted c o m l cc cn cs)
  = Ok (block_lines c o m l cc cn cs).
Proof. reflexivity. Qed.

(** Extraction of a record of the documented shape: it returns, every
    field is a string, and each field is the value the record holds at the
    corresponding key, or the empty string. *)
Lemma improved_extract_shaped (r : json) :
  well_shaped r = true ->
  exists c o m l cc cn cs,
    Improved.extract_xml_data r = Ok (extracted c o m l cc cn cs)
    /\ JStr c = or_empty (get_path ["cca2"] r)
    /\ JStr o = or_empty (get_path ["name"; "official"] r)
    /\ JStr m = or_empty (get_path ["name"; "common"] r)
    /\ (no_entries (get_path ["name"; "nativeName"] r) -> l = EmptyString)
    /\ (no_entries (get_path ["currencies"] r) ->
        cc = EmptyString /\ cn = EmptyString /\ cs = EmptyString)
    /\ (forall k e rest,
          get_path ["currencies"] r = Some (JDict ((k, JDict e) :: rest)) ->
          cc = k /\ JStr cn = or_empty (assoc "name" e)
          /\ JStr cs = or_empty (assoc "symbol" e)).
Proof.
  destruct r as [| | | | |d]; try discriminate.
  unfold well_shaped. rewrite !andb_true_iff. intros [[Hc Hn] Hcur].
  unfold Improved.extract_xml_data. cbn [py_get bind].
  (* the name mapping and its native names *)
  set (name_data := match assoc "name" d with Some v => v | None => JDict [] end).
  assert (Hname : name_ok name_data = true).
  { subst name_data. destruct (assoc "name" d); [exact Hn | reflexivity]. }
  destruct name_data as [| | | | |nd] eqn:End; try discriminate.
  unfold name_ok in Hname. rewrite !andb_true_iff in Hname.
  destruct Hname as [[Ho Hm] Hnn]. cbn [py_get bind].
  set (nn := match assoc "nativeName" nd with Some v => v | None => JDict [] end).
  assert (Hnn' : dict_of (entry_ok ["official"]) nn = true).
  { subst nn. destruct (assoc "nativeName" nd); [exact Hnn | reflexivity]. }
  destruct (improved_local_name_shaped nn Hnn') as (l & -> & Hl). cbn [bind].
  (* the currencies *)
  set (cur := match assoc "currencies" d with Some v => v | None => JDict [] end).
  assert (Hcur' : dict_of (entry_ok ["name"; "symbol"]) cur = true).
  { subst cur. destruct (assoc "currencies" d); [exact Hcur | reflexivity]. }
  destruct (extract_currency_shaped cur Hcur') as (cc & cn & cs & -> & Hce & Hc1).
  cbn [bind].
  (* the three plain fields *)
  assert (Hcs : exists c, or_empty (assoc "cca2" d) = JStr c).
  { destruct (assoc "cca2" d) as [v|]; simpl in *;
      [apply is_str_inv in Hc as [c ->]|]; eauto. }
  assert (Hos : exists o, or_empty (assoc "official" nd) = JStr o).
  { destruct (assoc "official" nd) as [v|]; simpl in *;
      [apply is_str_inv in Ho as [o ->]|]; eauto. }
  assert (Hms : exists m, or_empty (assoc "common" nd) = JStr m).
  { destruct (assoc "common" nd) as [v|]; simpl in *;
      [apply is_str_inv in Hm as [m ->]|]; eauto. }
  destruct Hcs as [c Hcs], Hos as [o Hos], Hms as [m Hms].
  exists c, o, m, l, cc, cn, cs.
  assert (Hnd : forall k, get_path ["name"; k] (JDict d) = assoc k nd
                          \/ (assoc "name" d = None /\ nd = [])).
  { intros k. cbn [get_path]. subst name_data.
    destruct (assoc "name" d) as [v|]; [left; subst v | right; split; congruence].
    destruct (assoc k nd); reflexivity. }
  assert (Hpath : forall k, or_empty (get_path ["name"; k] (JDict d))
                            = or_empty (assoc k nd)).
  { intros k. destruct (Hnd k) as [-> | [Hnone ->]]; [reflexivity|].
    cbn [get_path]. rewrite Hnone. reflexivity. }
  split; [|split; [|split; [|split; [|split; [|split]]]]].
  - unfold or_empty in Hcs, Hos, Hms. unfold extracted.
    rewrite Hcs, Hos, Hms. reflexivity.
  - cbn [get_path]. destruct (assoc "cca2" d); simpl in *; congruence.
  - rewrite Hpath. congruence.
  - rewrite Hpath. congruence.
  - intros Hno. apply Hl. subst nn.
    destruct (Hnd "nativeName") as [Heq | [_ ->]]; [|reflexivity].
    rewrite Heq in Hno. destruct Hno as [-> | ->]; reflexivity.
  - intros Hno. apply Hce. subst cur. cbn [get_path] in Hno.
    destruct (assoc "currencies" d) as [v|]; [|reflexivity].
    destruct Hno as [Hno | Hno]; [discriminate | congruence].
  - intros k e rest Hk. apply (Hc1 k e rest). subst cur. cbn [get_path] in Hk.
    destruct (assoc "currencies" d) as [v|]; congruence.
Qed.

(** C7: for every record of the documented shape, whichever of the nested
    fields are absent, extraction returns without raising: every missing
    field yields the empty string, a record without currencies yields the
    all-empty currency sub-record, and the rendered block has all five
    top-level elements and all three currency sub-elements. *)
Theorem missing_fields_degrade_to_empty (r : json) :
  well_shaped r = true ->
  exists c o m l cc cn cs,
    Improved.extract_xml_data r = Ok (extracted c o m l cc cn cs)
    /\ Improved.country_block (extracted c o m l cc cn cs)
       = Ok (block_lines c o m l cc cn cs)
    /\ (get_path ["cca2"] r = None -> c = EmptyString)
    /\ (get_path ["name"] r = None ->
        o = EmptyString /\ m = EmptyString /\ l = EmptyString)
    /\ (get_path ["name"; "official"] r = None -> o = EmptyString)
    /\ (get_path ["name"; "common"] r = None -> m = EmptyString)
    /\ (no_entries (get_path ["name"; "nativeName"] r) -> l = EmptyString)
    /\ (no_entries (get_path ["currencies"] r) ->
        currency (extracted c o m l cc cn cs) = empty_currency)
    /\ (forall k e rest,
          get_path ["currencies"] r = Some (JDict ((k, JDict e) :: rest)) ->
          (assoc "name" e = None -> cn = EmptyString)
          /\ (assoc "symbol" e = None -> cs = EmptyString)).
Proof.
  intros Hr.
  destruct (improved_extract_shaped r Hr)
    as (c & o & m & l & cc & cn & cs & Hx & Hc & Ho & Hm & Hl & Hcur & Hone).
  exists c, o, m, l, cc, cn, cs.
  assert (Hsub : forall k, get_path ["name"] r = None -> get_path ["name"; k] r = None).
  { intros k. cbn [get_path]. destruct r; auto. destruct (assoc "name" d); congruence. }
  split; [exact Hx|]. split; [apply country_block_strings|].
  split; [intros E; rewrite E in Hc; simpl in Hc; congruence|].
  split.
  { intros E. pose proof (Hsub "official" E) as E1. pose proof (Hsub "common" E) as E2.
    pose proof (Hsub "nativeName" E) as E3.
    rewrite E1 in Ho. rewrite E2 in Hm. simpl in Ho, Hm.
    repeat split; try congruence. apply Hl. left. exact E3. }
  split; [intros E; rewrite E in Ho; simpl in Ho; congruence|].
  split; [intros E; rewrite E in Hm; simpl in Hm; congruence|].
  split; [exact Hl|].
  split.
  { intros E. destruct (Hcur E) as (-> & -> & ->). reflexivity. }
  intros k e rest E. destruct (Hone k e rest E) as (_ & Hn & Hs).
  split; intros E'; rewrite E' in *; simpl in *; congruence.
Qed.

Lemma missing_fields_degrade_to_empty_witness :
  exists x, Improved.extract_xml_data bare_record = Ok x
            /\ code x = JStr EmptyString
            /\ currency x = empty_currency.
Proof.
  destruct (missing_fields_degrade_to_empty bare_record eq_refl)
    as (c & o & m & l & cc & cn & cs & Hx & _ & Hc & _ & _ & _ & _ & Hcur & _).
  exists (extracted c o m l cc cn cs). split; [exact Hx|]. split.
  - simpl. rewrite (Hc eq_refl). reflexivity.
  - apply Hcur. left. reflexivity.
Defined.

(** C8: for every record of the documented shape whose currency mapping
    has exactly one entry, the rendered [OfficialCurrency] block holds the
    entry's key in [Code] and the entry's [name] and [symbol] sub-fields in
    [Name] and [Symbol], the empty string standing for an absent one. *)
Theorem single_currency_rendering (r : json) (k : string) (e : list (string * json)) :
  well_shaped r = true ->
  get_path ["currencies"] r = Some (JDict [(k, JDict e)]) ->
  exists x lines nm sy,
    Improved.extract_xml_data r = Ok x
    /\ Improved.country_block x = Ok lines
    /\ JStr nm = or_empty (assoc "name" e)
    /\ JStr sy = or_empty (assoc "symbol" e)
    /\ firstn 5 (skipn 5 lines)
       = [ "    <OfficialCurrency>";
           "      <Code>" ++ k ++ "</Code>";
           "      <Name>" ++ nm ++ "</Name>";
           "      <Symbol>" ++ sy ++ "</Symbol>";
           "    </OfficialCurrency>" ].
Proof.
  intros Hr Hk.
  destruct (improved_extract_shaped r Hr)
    as (c & o & m & l & cc & cn & cs & Hx & _ & _ & _ & _ & _ & Hone).
  destruct (Hone k e [] Hk) as (-> & Hn & Hs).
  exists (extracted c o m l k cn cs), (block_lines c o m l k cn cs), cn, cs.
  repeat split; auto.
Qed.

Lemma single_currency_rendering_witness :
  exists x lines,
    Improved.extract_xml_data india = Ok x
    /\ Improved.country_block x = Ok lines
    /\ firstn 5 (skipn 5 lines)
       = [ "    <OfficialCurrency>";
           "      <Code>INR</Code>";
           "      <Name>Indian rupee</Name>";
           "      <Symbol>Rs</Symbol>";
           "    </OfficialCurrency>" ].
Proof.
  destruct (single_currency_rendering india "INR"
              [("name", JStr "Indian rupee"); ("symbol", JStr "Rs")]
              eq_refl eq_refl)
    as (x & lines & nm & sy & Hx & Hl & Hn & Hs & Hb).
  exists x, lines. split; [exact Hx|]. split; [exact Hl|].
  simpl in Hn, Hs. injection Hn as ->. injection Hs as ->. exact Hb.
Defined.

(** The Hindi entry comes first in the simple generator, whatever its
    official value. *)
Lemma simple_hindi_first (d e : list (string * json)) :
  assoc "hin" d = Some (JDict e) ->
  Simple.extract_local_name (JDict d) = Ok (or_empty (assoc "official" e)).
Proof.
  intros H. unfold Simple.extract_local_name, official_of. simpl. rewrite H. simpl.
  destruct (assoc "official" e); reflexivity.
Qed.

(** In the improved generator it does when the official value is truthy. *)
Lemma improved_hindi_first_nonempty (d e : list (string * json)) :
  assoc "hin" d = Some (JDict e) ->
  truthy (or_empty (assoc "official" e)) = true ->
  Improved.extract_local_name (JDict d) = Ok (or_empty (assoc "official" e)).
Proof.
  intros H Ht. unfold Improved.extract_local_name. simpl. rewrite H.
  unfold official_of. simpl. rewrite H. simpl.
  unfold or_empty in *. rewrite Ht. reflexivity.
Qed.

(** C4 at the record [hindi_blank]: the Hindi entry is present with an
    empty official value; the improved generator's fallback test
    [not local_name and native_names] then replaces it by the first
    entry's value, while the simple generator keeps the empty string. *)
Theorem hindi_blank_official_falls_back :
  get_path ["name"; "nativeName"; "hin"; "official"] hindi_blank
    = Some (JStr EmptyString)
  /\ (exists x, Improved.extract_xml_data hindi_blank = Ok x
                /\ local_name x = JStr "Republic of India")
  /\ (exists x, Simple.extract_xml_data hindi_blank = Ok x
                /\ local_name x = JStr EmptyString).
Proof.
  split; [reflexivity|]. split; eexists; split; reflexivity.
Qed.

(** ** The fetcher *)

Lemma sent_length_snoc (l : list string) (u : string) :
  List.length (l ++ [u])%list = S (List.length l).
Proof. rewrite length_app. simpl. lia. Qed.

(** One iteration of the loop on a lookup the contract covers. *)
Lemma fetch_step_orderly (name : string) (rest : list string) (acc : list json) (w : world) :
  lookup_ok (net w (List.length (sent w)) (lookup_url name)) = true ->
  fetch_loop (name :: rest) acc w
  = fetch_loop rest
      (acc ++ fetched_record (net w (List.length (sent w)) (lookup_url name)))%list
      (mkWorld (net w) (sent w ++ [lookup_url name])%list (disk w)).
Proof.
  intros Hok. cbn [fetch_loop]. unfold fetch_one, bindM, http_get, lift.
  fold (lookup_url name).
  destruct (net w (List.length (sent w)) (lookup_url name)) as [r|e|] eqn:Hnet;
    simpl in Hok |- *.
  - destruct (raise_for_status r) as [[]|e|] eqn:Hst; simpl.
    + destruct (json_body r) as [data|e|] eqn:Hj; simpl.
      * destruct data as [| | | |l|]; try discriminate.
        destruct l as [|x l]; simpl; [rewrite app_nil_r|]; reflexivity.
      * rewrite Hok, app_nil_r. reflexivity.
      * discriminate.
    + unfold raise_for_status in Hst.
      destruct ((400 <=? status_code r)%Z && (status_code r <? 600)%Z);
        [injection Hst as <- | discriminate].
      simpl. rewrite app_nil_r. reflexivity.
    + unfold raise_for_status in Hst.
      destruct ((400 <=? status_code r)%Z && (status_code r <? 600)%Z); discriminate.
  - rewrite Hok, app_nil_r. reflexivity.
  - discriminate.
Qed.

Lemma fetch_loop_orderly (names : list string) :
  forall (acc : list json) (w : world),
    orderly (net w) (List.length (sent w)) names = true ->
    fetch_loop names acc w
    = (Ok (acc ++ successes (net w) (List.length (sent w)) names)%list,
       mkWorld (net w) (sent w ++ map lookup_url names)%list (disk w)).
Proof.
  induction names as [|name rest IH]; intros acc w Hord.
  - simpl. rewrite !app_nil_r. destruct w; reflexivity.
  - simpl in Hord. apply andb_true_iff in Hord as [Hok Hrest].
    rewrite (fetch_step_orderly name rest acc w Hok).
    rewrite IH; cbn [net sent disk]; rewrite sent_length_snoc; [|exact Hrest].
    cbn [successes map]. rewrite <- !app_assoc. reflexivity.
Qed.

Lemma successes_length (net : nat -> string -> outcome response) (names : list string) :
  forall i, List.length (successes net i names) <= List.length names.
Proof.
  induction names as [|n rest IH]; intros i; simpl; [lia|].
  rewrite length_app. specialize (IH (S i)).
  assert (List.length (fetched_record (net i (lookup_url n))) <= 1); [|lia].
  unfold fetched_record. destruct (net i (lookup_url n)) as [r|e|]; simpl; try lia.
  destruct (raise_for_status r); simpl; try lia.
  destruct (json_body r) as [[| | | |[|x l]|]|e|]; simpl; lia.
Qed.

Lemma country_block_inv (x : ExtractedCountry) (block : list string) :
  Improved.country_block x = Ok block ->
  exists c o m l cc cn cs, block = block_lines c o m l cc cn cs.
Proof.
  unfold Improved.country_block.
  destruct (py_str (code x)) as [c| |]; try discriminate.
  destruct (py_str (original_name x)) as [o| |]; try discriminate.
  destruct (py_str (common_name x)) as [m| |]; try discriminate.
  destruct (py_str (local_name x)) as [l| |]; try discriminate.
  destruct (py_str (cur_code (currency x))) as [cc| |]; try discriminate.
  destruct (py_str (cur_name (currency x))) as [cn| |]; try discriminate.
  destruct (py_str (cur_symbol (currency x))) as [cs| |]; try discriminate.
  cbn [bind]. intros [= <-]. exists c, o, m, l, cc, cn, cs. reflexivity.
Qed.

Lemma block_openers_app (l1 l2 : list string) :
  block_openers (l1 ++ l2) = block_openers l1 + block_openers l2.
Proof. unfold block_openers. rewrite filter_app, length_app. reflexivity. Qed.

Lemma block_openers_block (c o m l cc cn cs : string) :
  block_openers (block_lines c o m l cc cn cs) = 1.
Proof. reflexivity. Qed.

(** Every record adds exactly one block to [xml_lines]. *)
Lemma format_loop_openers (records : list json) :
  forall xml_lines lines,
    Improved.format_loop records xml_lines = Ok lines ->
    block_openers lines = block_openers xml_lines + List.length records.
Proof.
  induction records as [|r rest IH]; intros xml_lines lines; simpl.
  - intros [= <-]. lia.
  - destruct (Improved.extract_xml_data r) as [x| |]; try discriminate. cbn [bind].
    destruct (Improved.country_block x) as [block| |] eqn:Hb; try discriminate.
    cbn [bind]. intros H. apply IH in H. rewrite H, block_openers_app.
    destruct (country_block_inv x block Hb) as (c & o & m & l & cc & cn & cs & ->).
    rewrite block_openers_block. lia.
Qed.

Lemma document_lines_openers (records : list json) (lines : list string) :
  Improved.document_lines records = Ok lines ->
  block_openers lines = List.length records.
Proof.
  unfold Improved.document_lines.
  destruct (Improved.format_loop records _) as [xml_lines| |] eqn:Hf; try discriminate.
  cbn [bind]. intros [= <-]. apply format_loop_openers in Hf.
  rewrite block_openers_app, Hf.
  change (block_openers [xml_declaration; "<CountriesCollection>"]) with 0.
  change (block_openers ["</CountriesCollection>"]) with 0. lia.
Qed.

(** C6: when every lookup either fails with a request exception or
    answers a list, the fetcher issues one request per name, in order,
    returns the first element of every non-empty answer in the order of
    the names, skipping the others, and leaves the disk alone; so there
    are at most as many records, and as many country blocks in the
    formatter's lines, as input names. *)
Theorem fetcher_keeps_first_records_in_order (names : list string) (w : world) :
  orderly (net w) (List.length (sent w)) names = true ->
  let records := successes (net w) (List.length (sent w)) names in
  fetch_country_data names w
  = (Ok records, mkWorld (net w) (sent w ++ map lookup_url names)%list (disk w))
  /\ List.length records <= List.length names
  /\ (forall lines, Improved.document_lines records = Ok lines ->
                    block_openers lines = List.length records
                    /\ block_openers lines <= List.length names).
Proof.
  intros Hord records. split; [|split].
  - unfold fetch_country_data. rewrite fetch_loop_orderly by exact Hord. reflexivity.
  - apply successes_length.
  - intros lines Hl. apply document_lines_openers in Hl. split; [exact Hl|].
    rewrite Hl. apply successes_length.
Qed.

Lemma fetcher_keeps_first_records_in_order_witness :
  fetch_country_data ["india"; "atlantis"; "nowhere"] mixed_world
  = (Ok [india],
     mkWorld (net mixed_world)
       [lookup_url "india"; lookup_url "atlantis"; lookup_url "nowhere"]
       empty_disk).
Proof.
  exact (proj1 (fetcher_keeps_first_records_in_order
                  ["india"; "atlantis"; "nowhere"] mixed_world eq_refl)).
Defined.

(** The loop stops at the first exception that is not a request
    exception: the records collected so far are dropped and the remaining
    names are never requested. *)
Lemma fetch_loop_abort (pre : list string) (name : string) (post : list string)
  (r : response) (e : exn) :
  forall (acc : list json) (w : world),
    orderly (net w) (List.length (sent w)) pre = true ->
    net w (List.length (sent w) + List.length pre) (lookup_url name) = Ok r ->
    raise_for_status r = Ok tt ->
    json_body r = Raise e ->
    is_request_exception e = false ->
    fetch_loop (pre ++ name :: post) acc w
    = (Raise e,
       mkWorld (net w) (sent w ++ map lookup_url (pre ++ [name]))%list (disk w)).
Proof.
  induction pre as [|p pre IH]; intros acc w Hord Hnet Hst Hj He.
  - rewrite Nat.add_0_r in Hnet. cbn [app fetch_loop map].
    unfold fetch_one, bindM, http_get, lift. fold (lookup_url name).
    rewrite Hnet. cbn. rewrite Hst. cbn. rewrite Hj. cbn. rewrite He. reflexivity.
  - simpl in Hord. apply andb_true_iff in Hord as [Hok Hrest].
    rewrite <- app_comm_cons, (fetch_step_orderly p _ acc w Hok).
    rewrite IH; cbn [net sent disk]; rewrite ?sent_length_snoc; auto.
    + cbn [map app]. rewrite <- app_assoc. reflexivity.
    + rewrite <- Hnet. f_equal. simpl. lia.
Qed.

(** C10: the handler of the fetch loop covers request exceptions only.
    When the lookups of [pre] go as the contract describes and the next
    response has a good status but a body whose decoding raises an
    exception [e] that is not a request exception, [e] leaves the fetcher:
    the records fetched for [pre] are lost, the names after it are never
    requested, and both generators' entry points raise [e] without
    touching the disk. *)
Theorem undecodable_body_aborts_batch (pre post : list string) (name output_file : string)
  (w : world) (r : response) (e : exn) :
  orderly (net w) (List.length (sent w)) pre = true ->
  net w (List.length (sent w) + List.length pre) (lookup_url name) = Ok r ->
  raise_for_status r = Ok tt ->
  json_body r = Raise e ->
  is_request_exception e = false ->
  let w' := mkWorld (net w) (sent w ++ map lookup_url (pre ++ [name]))%list (disk w) in
  fetch_country_data (pre ++ name :: post) w = (Raise e, w')
  /\ Improved.generate_countries_xml (pre ++ name :: post) output_file w = (Raise e, w')
  /\ Simple.generate_countries_xml (pre ++ name :: post) output_file w = (Raise e, w').
Proof.
  intros Hord Hnet Hst Hj He w'.
  assert (Hf : fetch_country_data (pre ++ name :: post) w = (Raise e, w')).
  { unfold fetch_country_data. apply (fetch_loop_abort pre name post r e); assumption. }
  split; [exact Hf|].
  unfold Improved.generate_countries_xml, Simple.generate_countries_xml, bindM.
  rewrite Hf. split; reflexivity.
Qed.

Lemma undecodable_body_aborts_batch_witness :
  successes (net mixed_world) 0 ["india"; "atlantis"; "nowhere"] = [india]
  /\ fetch_country_data ["india"; "atlantis"; "nowhere"; "utopia"; "japan"] mixed_world
     = (Raise ValueError,
        mkWorld (net mixed_world)
          [lookup_url "india"; lookup_url "atlantis"; lookup_url "nowhere";
           lookup_url "utopia"]
          empty_disk).
Proof.
  split; [reflexivity|].
  exact (proj1 (undecodable_body_aborts_batch
                  ["india"; "atlantis"; "nowhere"] ["japan"] "utopia"
                  "output/countries.xml" mixed_world
                  (mkResponse 200 (Raise ValueError)) ValueError
                  eq_refl eq_refl eq_refl eq_refl eq_refl)).
Defined.

(** ** Paths and the file system *)

Lemma path_eqb_eq (p q : path) : path_eqb p q = true <-> p = q.
Proof.
  destruct p as [a l], q as [b m]. unfold path_eqb. simpl.
  destruct (list_eq_dec string_dec l m) as [->|Hne].
  - rewrite andb_true_r, Bool.eqb_true_iff. split; [intros ->; reflexivity | congruence].
  - rewrite andb_false_r. split; [discriminate | congruence].
Qed.

Lemma path_eqb_refl (p : path) : path_eqb p p = true.
Proof. apply path_eqb_eq. reflexivity. Qed.

Lemma lookup_set_file (p : path) (content : string) (l : list (path * string)) :
  lookup_file p (set_file p content l) = Some content.
Proof.
  induction l as [|[q old] l IH]; simpl.
  - rewrite path_eqb_refl. reflexivity.
  - destruct (path_eqb p q) eqn:E; simpl; rewrite E; [reflexivity | exact IH].
Qed.

Lemma split_slash_plain (s : string) :
  has_slash s = false -> split_slash s = [s].
Proof.
  induction s as [|c s IH]; simpl; [reflexivity|].
  intros H. apply orb_false_iff in H as [Hc Hs]. rewrite Hc, (IH Hs). reflexivity.
Qed.

Lemma split_slash_app (d b : string) :
  has_slash d = false ->
  split_slash (d ++ String slash b) = d :: split_slash b.
Proof.
  induction d as [|c d IH]; simpl.
  - intros _. reflexivity.
  - intros H. apply orb_false_iff in H as [Hc Hd]. rewrite Hc, (IH Hd). reflexivity.
Qed.

Lemma has_slash_app_slash (d b : string) : has_slash (d ++ String slash b) = true.
Proof.
  induction d as [|c d IH]; simpl; [|rewrite IH; apply orb_true_r].
  reflexivity.
Qed.

Lemma upto_last_slash_app (d b : string) :
  has_slash b = false ->
  upto_last_slash (d ++ String slash b) = d ++ String slash EmptyString.
Proof.
  intros Hb. induction d as [|c d IH]; simpl.
  - rewrite Hb. reflexivity.
  - rewrite has_slash_app_slash, IH. reflexivity.
Qed.

Lemma rstrip_slash_snoc (d : string) :
  has_slash d = false -> d <> EmptyString ->
  rstrip_slash (d ++ String slash EmptyString) = d.
Proof.
  induction d as [|c d IH]; [congruence|]. simpl.
  intros H _. apply orb_false_iff in H as [Hc Hd].
  destruct d as [|c' d'].
  - simpl. rewrite Hc. reflexivity.
  - rewrite IH by (auto; discriminate). simpl. reflexivity.
Qed.

Lemma simple_name_inv (s : string) :
  simple_name s = true ->
  s <> EmptyString /\ has_slash s = false /\ is_dot s = false.
Proof.
  unfold simple_name. rewrite !andb_true_iff, !negb_true_iff.
  intros [[H1 H2] H3]. repeat split; auto.
  intros ->. discriminate.
Qed.

Lemma simple_name_head (s : string) :
  simple_name s = true -> starts_with_slash s = false /\ all_slashes s = false.
Proof.
  intros H. apply simple_name_inv in H as (Hne & Hs & _).
  destruct s as [|c s]; [congruence|]. simpl in *.
  apply orb_false_iff in Hs as [-> _]. auto.
Qed.

Lemma dirname_of_child (d b : string) :
  simple_name d = true -> simple_name b = true ->
  dirname (d ++ String slash b) = d.
Proof.
  intros Hd Hb. pose proof (simple_name_head d Hd) as [_ Hall].
  apply simple_name_inv in Hd as (Hne & Hs & _).
  apply simple_name_inv in Hb as (_ & Hbs & _).
  unfold dirname. rewrite upto_last_slash_app by exact Hbs.
  assert (Hall' : all_slashes (d ++ String slash EmptyString) = false).
  { destruct d as [|c d]; [congruence|]. simpl in *.
    destruct (Ascii.eqb c slash); [discriminate | reflexivity]. }
  assert (Hnn : String.eqb (d ++ String slash EmptyString) EmptyString = false).
  { destruct d; reflexivity. }
  rewrite Hall', Hnn. simpl. apply rstrip_slash_snoc; assumption.
Qed.

Lemma nonempty_eqb (s : string) : s <> EmptyString -> String.eqb s EmptyString = false.
Proof. destruct s; [congruence | reflexivity]. Qed.

Lemma resolve_simple (d : string) :
  simple_name d = true -> resolve d = Ok (false, [d]).
Proof.
  intros Hd. pose proof (simple_name_head d Hd) as [Hst _].
  apply simple_name_inv in Hd as (Hne & Hs & Hdot).
  unfold resolve. rewrite split_slash_plain by exact Hs. simpl.
  rewrite (nonempty_eqb d Hne). simpl. rewrite Hdot, Hst. reflexivity.
Qed.

Lemma starts_with_slash_app (d b : string) :
  d <> EmptyString -> starts_with_slash (d ++ b) = starts_with_slash d.
Proof. destruct d; [congruence | reflexivity]. Qed.

Lemma resolve_child (d b : string) :
  simple_name d = true -> simple_name b = true ->
  resolve (d ++ String slash b) = Ok (false, [d; b]).
Proof.
  intros Hd Hb. pose proof (simple_name_head d Hd) as [Hst _].
  apply simple_name_inv in Hd as (Hne & Hs & Hdot).
  apply simple_name_inv in Hb as (Hbne & Hbs & Hbdot).
  unfold resolve. rewrite split_slash_app, split_slash_plain by assumption. simpl.
  rewrite (nonempty_eqb d Hne), (nonempty_eqb b Hbne). simpl.
  rewrite Hdot, Hbdot, starts_with_slash_app, Hst by exact Hne. reflexivity.
Qed.

Lemma ends_with_slash_child (d b : string) :
  simple_name b = true -> ends_with_slash (d ++ String slash b) = false.
Proof.
  intros Hb. apply simple_name_inv in Hb as (Hbne & Hbs & _).
  assert (Hb' : ends_with_slash b = false).
  { clear Hbne. induction b as [|c b IH]; [reflexivity|]. simpl in *.
    apply orb_false_iff in Hbs as [Hc Hbs]. destruct b; [exact Hc | exact (IH Hbs)]. }
  assert (Hsb : ends_with_slash (String slash b) = false).
  { simpl. destruct b; [congruence | exact Hb']. }
  induction d as [|c d IH]; [exact Hsb|].
  simpl. destruct (d ++ String slash b) eqn:E; [|exact IH].
  destruct d; discriminate.
Qed.

Lemma path_eqb_neq (p q : path) : p <> q -> path_eqb p q = false.
Proof.
  intros H. destruct (path_eqb p q) eqn:E; [|reflexivity].
  apply path_eqb_eq in E. contradiction.
Qed.

(** [makedirs] on a single directory name below the working directory. *)
Lemma makedirs_simple (d : string) (fs : filesystem) :
  simple_name d = true ->
  is_file fs (false, [d]) = false ->
  exists fs1,
    makedirs d fs = Ok fs1
    /\ files fs1 = files fs
    /\ is_dir fs1 (false, [d]) = true
    /\ (forall b, is_dir fs1 (false, [d; b]) = is_dir fs (false, [d; b])).
Proof.
  intros Hd Hfile. pose proof (simple_name_inv d Hd) as (Hne & _ & _).
  unfold makedirs. rewrite (nonempty_eqb d Hne), (resolve_simple d Hd).
  cbn [bind fst snd make_chain app].
  destruct (is_dir fs (false, [d])) eqn:Hdir.
  - exists fs. auto.
  - rewrite Hfile. exists (add_dir (false, [d]) fs).
    split; [reflexivity|]. split; [reflexivity|]. split.
    + unfold is_dir, add_dir. simpl. rewrite path_eqb_refl. reflexivity.
    + intros b. unfold is_dir, add_dir. simpl.
      rewrite path_eqb_neq by congruence. reflexivity.
Qed.

(** Creating the parent directory and writing the file succeed for a
    path [d/b] when no regular file is named [d] and no directory [d/b]. *)
Lemma write_under_directory (d b doc : string) (fs : filesystem) :
  simple_name d = true -> simple_name b = true ->
  is_file fs (false, [d]) = false ->
  is_dir fs (false, [d; b]) = false ->
  exists fs1 fs2,
    makedirs (dirname (d ++ String slash b)) fs = Ok fs1
    /\ write_file (d ++ String slash b) doc fs1 = Ok fs2
    /\ read_file (d ++ String slash b) fs2 = Ok doc
    /\ path_exists (d ++ String slash b) fs2 = Ok true.
Proof.
  intros Hd Hb Hfile Hdir.
  destruct (makedirs_simple d fs Hd Hfile) as (fs1 & Hmk & Hfiles & Hd1 & Hdb).
  pose proof (simple_name_inv d Hd) as (Hne & _ & _).
  assert (Hname : String.eqb (d ++ String slash b) EmptyString = false).
  { destruct d; [congruence | reflexivity]. }
  exists fs1, (mkFS (dirs fs1) (set_file (false, [d; b]) doc (files fs1))).
  rewrite dirname_of_child by assumption.
  split; [exact Hmk|].
  assert (Hdir2 : forall files',
             is_dir (mkFS (dirs fs1) files') (false, [d; b]) = false).
  { intros files'.
    change (is_dir fs1 (false, [d; b]) = false). rewrite Hdb. exact Hdir. }
  assert (Hd2 : forall files', is_dir (mkFS (dirs fs1) files') (false, [d]) = true).
  { intros files'. exact Hd1. }
  split; [|split].
  - unfold write_file. rewrite Hname, resolve_child by assumption.
    cbn [bind fst snd check_ancestors app]. rewrite Hd1. cbn [bind].
    rewrite Hdb, Hdir, ends_with_slash_child by assumption. reflexivity.
  - unfold read_file. rewrite Hname, resolve_child by assumption.
    cbn [bind fst snd check_ancestors app]. rewrite Hd2. cbn [bind].
    rewrite Hdir2. cbn [files]. rewrite lookup_set_file.
    rewrite ends_with_slash_child by assumption. reflexivity.
  - unfold path_exists. rewrite Hname, resolve_child by assumption.
    cbn [bind fst snd check_ancestors app]. rewrite Hd2, Hdir2.
    unfold is_file. cbn [files]. rewrite lookup_set_file.
    rewrite ends_with_slash_child by assumption. reflexivity.
Qed.

(** The formatter of the improved generator has no guard on its input:
    whenever the document renders, it is written under [d/b] and the path
    is returned. *)
Lemma improved_formatter_writes (records : list json) (d b doc : string) (w : world) :
  Improved.render_document records = Ok doc ->
  simple_name d = true -> simple_name b = true ->
  is_file (disk w) (false, [d]) = false ->
  is_dir (disk w) (false, [d; b]) = false ->
  exists fs,
    Improved.generate_formatted_xml records (d ++ String slash b) w
    = (Ok (d ++ String slash b), mkWorld (net w) (sent w) fs)
    /\ read_file (d ++ String slash b) fs = Ok doc
    /\ path_exists (d ++ String slash b) fs = Ok true.
Proof.
  intros Hdoc Hd Hb Hfile Hdir.
  destruct (write_under_directory d b doc (disk w) Hd Hb Hfile Hdir)
    as (fs1 & fs2 & Hmk & Hwr & Hrd & Hex).
  exists fs2. split; [|split; [exact Hrd | exact Hex]].
  unfold Improved.generate_formatted_xml, bindM, lift, on_disk, ret.
  rewrite Hdoc, Hmk. cbn [disk net sent]. rewrite Hwr. reflexivity.
Qed.

(** Without a directory part in the output path, [dirname] is empty and
    [os.makedirs] raises before anything is written. *)
Lemma improved_formatter_bare_name (records : list json) (name doc : string) (w : world) :
  Improved.render_document records = Ok doc ->
  has_slash name = false ->
  Improved.generate_formatted_xml records name w = (Raise FileNotFoundError, w).
Proof.
  intros Hdoc Hs.
  assert (Hdn : dirname name = EmptyString).
  { unfold dirname.
    assert (H : upto_last_slash name = EmptyString).
    { destruct name as [|c s]; [reflexivity|]. simpl in *.
      apply orb_false_iff in Hs as [-> ->]. reflexivity. }
    rewrite H. reflexivity. }
  unfold Improved.generate_formatted_xml, bindM, lift, on_disk.
  rewrite Hdoc, Hdn. reflexivity.
Qed.

(** The fetcher only talks to the network. *)
Lemma fetch_one_disk (name : string) (acc : list json) (w : world) :
  disk (snd (fetch_one name acc w)) = disk w
  /\ net (snd (fetch_one name acc w)) = net w.
Proof.
  unfold fetch_one, bindM, http_get, lift, ret.
  destruct (net w (List.length (sent w)) _) as [r| |]; simpl; auto.
  destruct (raise_for_status r) as [[]| |]; simpl; auto.
  destruct (json_body r) as [data| |]; simpl; auto.
  destruct (truthy data); simpl; auto.
  destruct (py_len data) as [n| |]; simpl; auto.
  destruct (0 <? n)%nat; simpl; auto.
  destruct (py_item0 data); simpl; auto.
Qed.

Lemma fetch_loop_disk (names : list string) :
  forall (acc : list json) (w : world),
    disk (snd (fetch_loop names acc w)) = disk w.
Proof.
  induction names as [|name rest IH]; intros acc w; [reflexivity|].
  cbn [fetch_loop]. pose proof (fetch_one_disk name acc w) as [Hd _].
  destruct (fetch_one name acc w) as [[acc'|e|] w1]; simpl in Hd.
  - rewrite IH. exact Hd.
  - destruct (is_request_exception e); [rewrite IH|]; exact Hd.
  - exact Hd.
Qed.

(** C9 at the output path [my_countries.xml], the one the usage text of
    the command line gives as an example: the path has no directory part,
    [os.path.dirname] is empty, [os.makedirs] raises [FileNotFoundError]
    and nothing is written, in both generators; the automation layer
    reports the failure.  With a directory part the same call succeeds. *)
Theorem bare_output_name_is_rejected :
  dirname "my_countries.xml" = EmptyString
  /\ Improved.generate_formatted_xml [india] "my_countries.xml" india_world
     = (Raise FileNotFoundError, india_world)
  /\ Simple.generate_xml [india] "my_countries.xml" india_world
     = (Raise FileNotFoundError, india_world)
  /\ (exists w,
        Automated.generate_xml_with_validation ["india"] "my_countries.xml" india_world
        = (Ok (Automated.mkResult false 1 0 "my_countries.xml" None
                 [Automated.Exception FileNotFoundError] []), w)
        /\ disk w = empty_disk)
  /\ (exists fs,
        Improved.generate_formatted_xml [india] "output/my_countries.xml" india_world
        = (Ok "output/my_countries.xml", mkWorld (net india_world) [] fs)).
Proof.
  split; [reflexivity|]. split; [reflexivity|]. split; [reflexivity|].
  split; eexists; [split|]; reflexivity.
Qed.

(** The claim C5 fails for the formatter proper: given no record it
    creates the directory, writes an empty collection and returns the
    path. *)
Lemma formatter_writes_empty_collection :
  path_exists "output/countries.xml" (disk india_world) = Ok false
  /\ exists fs,
       Improved.generate_formatted_xml [] "output/countries.xml" india_world
       = (Ok "output/countries.xml", mkWorld (net india_world) [] fs)
       /\ path_exists "output/countries.xml" fs = Ok true
       /\ read_file "output/countries.xml" fs
          = Ok (xml_declaration ++ nl ++ "<CountriesCollection>" ++ nl
                ++ "</CountriesCollection>").
Proof.
  split; [reflexivity|]. eexists. split; [reflexivity|]. split; reflexivity.
Qed.

(** C5, as the code has it: the guard against an empty input is in
    [generate_countries_xml].  When the fetcher returns no record, it
    returns [None] and the disk is as before the run; when the fetcher
    returns at least one record and the document renders, the document is
    written under the output path [d/b] and the path is returned. *)
Theorem no_record_no_file (names : list string) (records : list json) (w w1 : world) :
  fetch_country_data names w = (Ok records, w1) ->
  (records = [] ->
   forall output_file,
     Improved.generate_countries_xml names output_file w = (Ok None, w1)
     /\ disk w1 = disk w)
  /\ (records <> [] ->
      forall d b doc,
        Improved.render_document records = Ok doc ->
        simple_name d = true -> simple_name b = true ->
        is_file (disk w) (false, [d]) = false ->
        is_dir (disk w) (false, [d; b]) = false ->
        exists fs,
          Improved.generate_countries_xml names (d ++ String slash b) w
          = (Ok (Some (d ++ String slash b)), mkWorld (net w1) (sent w1) fs)
          /\ read_file (d ++ String slash b) fs = Ok doc).
Proof.
  intros Hf.
  assert (Hdisk : disk w1 = disk w).
  { pose proof (fetch_loop_disk names [] w) as H.
    unfold fetch_country_data in Hf. rewrite Hf in H. exact H. }
  split.
  - intros -> output_file. split; [|exact Hdisk].
    unfold Improved.generate_countries_xml, bindM. rewrite Hf. reflexivity.
  - intros Hne d b doc Hdoc Hd Hb Hfile Hdir.
    rewrite <- Hdisk in Hfile, Hdir.
    destruct (improved_formatter_writes records d b doc w1 Hdoc Hd Hb Hfile Hdir)
      as (fs & Hgen & Hrd & _).
    exists fs. split; [|exact Hrd].
    unfold Improved.generate_countries_xml, bindM. rewrite Hf.
    destruct records; [congruence|]. cbn [is_empty]. rewrite Hgen. reflexivity.
Qed.

Lemma no_record_no_file_witness :
  Improved.generate_countries_xml ["atlantis"; "nowhere"] "output/countries.xml"
    (mkWorld (fun i _ => net mixed_world (S i) EmptyString) [] empty_disk)
  = (Ok None,
     mkWorld (fun i _ => net mixed_world (S i) EmptyString)
       [lookup_url "atlantis"; lookup_url "nowhere"] empty_disk)
  /\ exists fs,
       Improved.generate_countries_xml ["india"] "output/countries.xml" india_world
       = (Ok (Some "output/countries.xml"),
          mkWorld (net india_world) [lookup_url "india"] fs).
Proof.
  split.
  - exact (proj1 (proj1 (no_record_no_file ["atlantis"; "nowhere"] []
                           (mkWorld (fun i _ => net mixed_world (S i) EmptyString)
                              [] empty_disk)
                           _ eq_refl)
                   eq_refl "output/countries.xml")).
  - destruct (proj2 (no_record_no_file ["india"] [india] india_world _ eq_refl)
                ltac:(discriminate) "output" "countries.xml" _
                eq_refl eq_refl eq_refl eq_refl eq_refl) as (fs & Hgen & _).
    exists fs. exact Hgen.
Defined.

(** ** Escaping *)

(** C1 at the record [ampersand_record]: the improved generator splices
    the name into the line as it is, so the document is not well-formed
    and nothing can be read back; the simple generator, which serialises
    an element tree, escapes the ampersand and the name round-trips. *)
Theorem improved_formatter_splices_raw_text :
  (exists lines,
      Improved.document_lines [ampersand_record] = Ok lines
      /\ nth_error lines 5 = Some "    <CommonName>Antigua & Barbuda</CommonName>")
  /\ (exists doc,
         Improved.render_document [ampersand_record] = Ok doc
         /\ parse_xml doc = Raise ParseError)
  /\ (exists doc tree,
         Simple.render_document [ampersand_record] = Ok doc
         /\ is_substring "<CommonName>Antigua &amp; Barbuda</CommonName>" doc = true
         /\ parse_xml doc = Ok tree
         /\ map text_of (children_of tree)
            = [Some "AG"; Some "Antigua & Barbuda"; Some "Antigua & Barbuda";
               None; None]).
Proof.
  split; [eexists; split; reflexivity|].
  split; [eexists; split; reflexivity|].
  do 2 eexists. split; [reflexivity|]. split; [reflexivity|]. split; reflexivity.
Qed.

(** C2 at two runs that each fetch one record.  With [ampersand_record]
    the file is written but cannot be parsed back: the run reports an
    exception and zero countries processed.  With [markup_record] it
    parses, and the count of [Countries] elements is two. *)
Theorem reparsed_count_differs_from_fetched :
  (exists w,
      fetch_country_data ["antigua"] ampersand_world = (Ok [ampersand_record], w))
  /\ (exists w,
         Automated.generate_xml_with_validation ["antigua"] "output/countries.xml"
           ampersand_world
         = (Ok (Automated.mkResult false 1 0 "output/countries.xml" None
                  [Automated.Exception ParseError] []), w)
         /\ path_exists "output/countries.xml" (disk w) = Ok true)
  /\ (exists w,
         fetch_country_data ["utopia"] markup_world = (Ok [markup_record], w))
  /\ (exists w size,
         Automated.generate_xml_with_validation ["utopia"] "output/countries.xml"
           markup_world
         = (Ok (Automated.mkResult true 1 2 "output/countries.xml" (Some size)
                  [] []), w)).
Proof.
  split; [eexists; reflexivity|].
  split; [eexists; split; reflexivity|].
  split; [eexists; reflexivity|].
  do 2 eexists. reflexivity.
Qed.

(** ** Reading documents back *)

Lemma append_nil_r (s : string) : s ++ EmptyString = s.
Proof. induction s as [|c s IH]; simpl; [|rewrite IH]; reflexivity. Qed.

Lemma append_assoc (s1 s2 s3 : string) : (s1 ++ s2) ++ s3 = s1 ++ (s2 ++ s3).
Proof. induction s1 as [|c s1 IH]; simpl; [|rewrite IH]; reflexivity. Qed.

Lemma bind_ret {A : Type} (c : outcome A) : (x <- c ;; Ok x) = c.
Proof. destruct c; reflexivity. Qed.

Lemma bind_bind_ok {A B C : Type} (c : outcome A) (f : A -> B) (g : B -> C) :
  (y <- (x <- c ;; Ok (f x)) ;; Ok (g y)) = (x <- c ;; Ok (g (f x))).
Proof. destruct c; reflexivity. Qed.

Lemma lexes_nil (m : lex_mode) : lexes m EmptyString (fun toks => toks) m.
Proof. intros rest. simpl. rewrite bind_ret. reflexivity. Qed.

Lemma lexes_app (m m1 m2 : lex_mode) (s1 s2 : string) (k1 k2 : list token -> list token) :
  lexes m s1 k1 m1 -> lexes m1 s2 k2 m2 ->
  lexes m (s1 ++ s2) (fun toks => k1 (k2 toks)) m2.
Proof.
  intros H1 H2 rest. rewrite append_assoc, H1, H2. apply bind_bind_ok.
Qed.

(** A safe character is plain text. *)
Lemma is_safe_inv (c : ascii) :
  is_safe c = true ->
  Ascii.eqb c "<" = false /\ Ascii.eqb c "&" = false /\ Ascii.eqb c ">" = false
  /\ is_plain c = true.
Proof.
  unfold is_safe. rewrite !andb_true_iff, !negb_true_iff. tauto.
Qed.

Lemma lexes_safe (s : string) :
  safe_text s = true ->
  forall t, lexes (InText t) s (fun toks => toks) (InText (t ++ s)).
Proof.
  induction s as [|c s IH]; intros Hs t.
  - rewrite append_nil_r. apply lexes_nil.
  - simpl in Hs. apply andb_true_iff in Hs as [Hc Hs].
    apply is_safe_inv in Hc as (H1 & H2 & H3 & H4).
    intros rest. cbn [append lex]. rewrite H1, H2, H3, H4. cbn [andb].
    rewrite (IH Hs (snoc t c) rest). unfold snoc. rewrite append_assoc. reflexivity.
Qed.

(** Name characters are collected into the tag body. *)
Lemma is_name_char_inv (c : ascii) :
  is_name_char c = true ->
  Ascii.eqb c ">" = false /\ Ascii.eqb c "<" = false /\ Ascii.eqb c "?" = false
  /\ Ascii.eqb c "!" = false /\ Ascii.eqb c "'" = false
  /\ Ascii.eqb c (ascii_of_nat 34) = false /\ is_plain c = true
  /\ Ascii.eqb c ":" = false /\ Ascii.eqb c "/" = false /\ is_space c = false.
Proof.
  destruct c as [[] [] [] [] [] [] [] []]; try discriminate; intros _;
    repeat split; reflexivity.
Qed.

Lemma lex_tag_name (n : string) :
  all_chars is_name_char n = true ->
  forall body rest,
    lex (InTag body) (n ++ String ">" rest)
    = tok <- classify (body ++ n) ;;
      toks <- lex (InText EmptyString) rest ;;
      Ok (tok :: toks).
Proof.
  induction n as [|c n IH]; intros Hn body rest.
  - rewrite append_nil_r. reflexivity.
  - simpl in Hn. apply andb_true_iff in Hn as [Hc Hn].
    apply is_name_char_inv in Hc as (H1 & H2 & H3 & H4 & H5 & H6 & H7 & _).
    cbn [append lex]. rewrite H1, H2, H3, H4, H5, H6, H7.
    rewrite andb_false_r. cbn [orb negb].
    rewrite (IH Hn). unfold snoc. rewrite append_assoc. reflexivity.
Qed.

Lemma name_char_no_colon (s : string) :
  all_chars is_name_char s = true ->
  all_chars (fun c => negb (Ascii.eqb c ":")) s = true.
Proof.
  induction s as [|c s IH]; simpl; [reflexivity|].
  intros H. apply andb_true_iff in H as [Hc Hs].
  apply is_name_char_inv in Hc as (_ & _ & _ & _ & _ & _ & _ & -> & _).
  simpl. exact (IH Hs).
Qed.

Lemma span_name_all (s : string) :
  all_chars is_name_char s = true -> span_name s = (s, EmptyString).
Proof.
  induction s as [|c s IH]; simpl; [reflexivity|].
  intros H. apply andb_true_iff in H as [-> Hs]. rewrite (IH Hs). reflexivity.
Qed.

Lemma is_name_inv (n : string) :
  is_name n = true ->
  all_chars is_name_char n = true
  /\ exists c n', n = String c n' /\ Ascii.eqb c "/" = false.
Proof.
  destruct n as [|c n']; [discriminate|]. simpl.
  intros H. apply andb_true_iff in H as [Hc Hn].
  assert (Hcc : is_name_char c = true).
  { unfold is_name_char. rewrite Hc. reflexivity. }
  rewrite Hcc, Hn. split; [reflexivity|].
  exists c, n'. split; [reflexivity|].
  apply is_name_char_inv in Hcc. tauto.
Qed.

Lemma classify_open (n : string) : is_name n = true -> classify n = Ok (TOpen n).
Proof.
  intros Hn. destruct (is_name_inv n Hn) as (Hall & c & n' & -> & Hc).
  unfold classify. rewrite (name_char_no_colon _ Hall). cbn [negb].
  rewrite (span_name_all _ Hall), Hn. cbn [lstrip_space].
  destruct c as [[] [] [] [] [] [] [] []]; try discriminate Hc; reflexivity.
Qed.

Lemma classify_close (n : string) :
  is_name n = true -> classify (String "/" n) = Ok (TClose n).
Proof.
  intros Hn. destruct (is_name_inv n Hn) as (Hall & _).
  unfold classify. cbn [all_chars]. rewrite (name_char_no_colon _ Hall). cbn.
  rewrite (span_name_all _ Hall), Hn. reflexivity.
Qed.

Lemma lex_text_lt (t s : string) :
  lex (InText t) (String "<" s)
  = toks <- lex (InTag EmptyString) s ;; Ok (text_token t ++ toks)%list.
Proof. reflexivity. Qed.

Lemma lex_tag_slash (s : string) :
  lex (InTag EmptyString) (String "/" s) = lex (InTag "/") s.
Proof. reflexivity. Qed.

Lemma lexes_open (n t : string) :
  is_name n = true ->
  lexes (InText t) (open_tag n)
    (fun toks => text_token t ++ TOpen n :: toks)%list (InText EmptyString).
Proof.
  intros Hn rest. destruct (is_name_inv n Hn) as (Hall & _).
  unfold open_tag. cbn [append]. rewrite lex_text_lt, append_assoc. cbn [append].
  rewrite (lex_tag_name n Hall). cbn [append]. rewrite (classify_open n Hn).
  cbn [bind]. destruct (lex (InText EmptyString) rest); reflexivity.
Qed.

Lemma lexes_close (n t : string) :
  is_name n = true ->
  lexes (InText t) (close_tag n)
    (fun toks => text_token t ++ TClose n :: toks)%list (InText EmptyString).
Proof.
  intros Hn rest. destruct (is_name_inv n Hn) as (Hall & _).
  unfold close_tag. cbn [append]. rewrite lex_text_lt, lex_tag_slash, append_assoc. cbn [append].
  rewrite (lex_tag_name n Hall). cbn [append]. rewrite (classify_close n Hn).
  cbn [bind]. destruct (lex (InText EmptyString) rest); reflexivity.
Qed.

(** A leaf element with safe text. *)
Lemma lexes_leaf (n v t : string) :
  is_name n = true -> safe_text v = true ->
  lexes (InText t) (leaf_text n v)
    (fun toks => text_token t ++ leaf_tokens n v toks)%list (InText EmptyString).
Proof.
  intros Hn Hv.
  pose proof (lexes_app _ _ _ _ _ _ _ (lexes_safe v Hv EmptyString)
                (lexes_close n (EmptyString ++ v) Hn)) as H1.
  pose proof (lexes_app _ _ _ _ _ _ _ (lexes_open n t Hn) H1) as H2.
  exact H2.
Qed.

Lemma lexes_ext (m m' : lex_mode) (s : string) (k k' : list token -> list token) :
  lexes m s k m' -> (forall toks, k toks = k' toks) -> lexes m s k' m'.
Proof.
  intros H Hk rest. rewrite (H rest).
  destruct (lex m' rest); simpl; [rewrite Hk|..]; reflexivity.
Qed.

Ltac lex_piece :=
  first [ apply lexes_leaf; [reflexivity | assumption]
        | apply lexes_open; reflexivity
        | apply lexes_close; reflexivity
        | apply lexes_safe; reflexivity ].

Lemma fields_safe_inv (f : fields) :
  fields_safe f = true ->
  safe_text (f_code f) = true /\ safe_text (f_original f) = true
  /\ safe_text (f_common f) = true /\ safe_text (f_local f) = true
  /\ safe_text (f_cur_code f) = true /\ safe_text (f_cur_name f) = true
  /\ safe_text (f_cur_symbol f) = true.
Proof. unfold fields_safe. rewrite !andb_true_iff. tauto. Qed.

Lemma lexes_block (t : string) (f : fields) :
  fields_safe f = true ->
  lexes (InText t) (block_text f) (block_tokens t f) (InText (nl ++ nl)).
Proof.
  intros Hf. apply fields_safe_inv in Hf as (H1 & H2 & H3 & H4 & H5 & H6 & H7).
  assert (H : exists k, lexes (InText t) (block_text f) k (InText (nl ++ nl))
                        /\ forall toks, k toks = block_tokens t f toks).
  { eexists. split.
    - unfold block_text.
      repeat (eapply lexes_app; [lex_piece|]). lex_piece.
    - intros toks. reflexivity. }
  destruct H as (k & Hk & Heq). exact (lexes_ext _ _ _ _ _ Hk Heq).
Qed.

Lemma lexes_declaration :
  lexes (InText EmptyString) xml_declaration (fun toks => TDecl :: toks)
    (InText EmptyString).
Proof.
  intros rest. cbn. destruct (lex (InText EmptyString) rest); reflexivity.
Qed.

Lemma lex_body (fs : list fields) :
  Forall (fun f => fields_safe f = true) fs ->
  forall t, lex (InText t) (body_text fs) = Ok (body_tokens t fs).
Proof.
  induction 1 as [|f fs Hf _ IH]; intros t.
  - cbn [body_text body_tokens].
    rewrite <- (append_nil_r (close_tag "CountriesCollection")).
    rewrite (lexes_close "CountriesCollection" t eq_refl EmptyString). reflexivity.
  - cbn [body_text body_tokens]. rewrite (lexes_block t f Hf), IH. reflexivity.
Qed.

(** The whole document, as one string. *)
Lemma lex_document (fs : list fields) :
  Forall (fun f => fields_safe f = true) fs ->
  lex (InText EmptyString)
    (xml_declaration ++ nl ++ open_tag "CountriesCollection" ++ nl ++ body_text fs)
  = Ok (TDecl :: TText nl :: TOpen "CountriesCollection" :: body_tokens nl fs).
Proof.
  intros Hfs.
  pose proof (lexes_app _ _ _ _ _ _ _
                (lexes_open "CountriesCollection" (EmptyString ++ nl) eq_refl)
                (lexes_safe nl eq_refl EmptyString)) as H1.
  pose proof (lexes_app _ _ _ _ _ _ _ (lexes_safe nl eq_refl EmptyString) H1) as H2.
  pose proof (lexes_app _ _ _ _ _ _ _ lexes_declaration H2) as H3.
  specialize (H3 (body_text fs)). rewrite !append_assoc in H3.
  rewrite H3, (lex_body fs Hfs). reflexivity.
Qed.

(** The tree builder on a leaf element. *)
Lemma build_leaf (n v : string) (rest : list token) (fr : frame) (outer : list frame)
  (root : option element) :
  build (leaf_tokens n v rest) (fr :: outer) root
  = build rest (add_child fr (Element n (opt_text v) [] None) :: outer) root.
Proof.
  unfold leaf_tokens, text_token, opt_text.
  destruct (String.eqb v EmptyString); cbn [app build add_text];
    rewrite String.eqb_refl; destruct fr as [[tag text] ch]; reflexivity.
Qed.

Lemma text_token_pending (t : string) :
  text_token (t ++ "  ") = [TText (t ++ "  ")].
Proof. destruct t; reflexivity. Qed.

(** The tree builder on a block: the pending text goes to the enclosing
    element, then the block's element becomes its last child. *)
Lemma build_block (t : string) (f : fields) (rest : list token) (fr : frame) :
  build (block_tokens t f rest) [fr] None
  = build rest [add_child (add_text fr (t ++ "  ")) (country_element f)] None.
Proof.
  unfold block_tokens. rewrite text_token_pending.
  cbn [app build]. destruct (add_text fr (t ++ "  ")) as [[tag text] ch].
  cbn [build add_text]. rewrite build_leaf. cbn [build add_text add_child set_tail].
  rewrite build_leaf. cbn [build add_text add_child set_tail].
  rewrite build_leaf. cbn [build add_text add_child set_tail].
  rewrite build_leaf. cbn [build add_text add_child set_tail].
  rewrite build_leaf. cbn [build add_text add_child set_tail].
  rewrite build_leaf. cbn [build add_text add_child set_tail].
  rewrite build_leaf. cbn [build add_text add_child set_tail].
  reflexivity.
Qed.

Lemma add_text_children (fr : frame) (t : string) :
  fst (fst (add_text fr t)) = fst (fst fr)
  /\ map clear_tail (snd (add_text fr t)) = map clear_tail (snd fr).
Proof.
  destruct fr as [[tag text] [|[n tx ch tl] before]]; simpl; auto.
Qed.

Lemma build_body (fs : list fields) :
  forall (t : string) (text : option string) (ch : list element),
  exists text' ch',
    build (body_tokens t fs) [("CountriesCollection", text, ch)] None
    = Ok (Element "CountriesCollection" text' ch' None)
    /\ map clear_tail ch' = (map clear_tail (rev ch) ++ map country_element fs)%list.
Proof.
  induction fs as [|f fs IH]; intros t text ch.
  - cbn [body_tokens map]. rewrite app_nil_r. unfold text_token.
    destruct (String.eqb t EmptyString).
    + exists text, (rev ch). split; reflexivity.
    + cbn [app build].
      pose proof (add_text_children ("CountriesCollection", text, ch) t) as [Htag Hch].
      destruct (add_text ("CountriesCollection", text, ch) t) as [[tag text'] ch'].
      simpl in Htag, Hch. subst tag. cbn.
      exists text', (rev ch'). split; [reflexivity|].
      rewrite !map_rev, Hch. reflexivity.
  - cbn [body_tokens]. rewrite build_block.
    pose proof (add_text_children ("CountriesCollection", text, ch) (t ++ "  "))
      as [Htag Hch].
    destruct (add_text ("CountriesCollection", text, ch) (t ++ "  "))
      as [[tag text'] ch'].
    simpl in Htag, Hch. subst tag. cbn [add_child].
    destruct (IH (nl ++ nl) text' (country_element f :: ch')) as (text2 & ch2 & Hb & Hc).
    exists text2, ch2. split; [exact Hb|].
    rewrite Hc. cbn [rev map]. rewrite map_app, !map_rev, Hch, <- app_assoc.
    reflexivity.
Qed.

Lemma read_fields_clear_tail (e : element) : read_fields (clear_tail e) = read_fields e.
Proof. destruct e; reflexivity. Qed.

Lemma text_or_empty_leaf (n v tl : string) : text_or_empty (leaf n v tl) = v.
Proof.
  unfold text_or_empty, leaf, opt_text. simpl.
  destruct (String.eqb_spec v EmptyString); auto.
Qed.

Lemma read_fields_country (f : fields) : read_fields (country_element f) = Some f.
Proof.
  unfold read_fields, country_element. cbn [children_of].
  rewrite !text_or_empty_leaf. destruct f; reflexivity.
Qed.

(** What counting and reading back see of a parsed block. *)
Lemma parsed_block_inv (e : element) (f : fields) :
  clear_tail e = country_element f ->
  tag_of e = "Countries"
  /\ findall_descendants "Countries" e = []
  /\ read_fields e = Some f.
Proof.
  intros H. split; [|split].
  - destruct e; injection H as -> _ _; reflexivity.
  - destruct e as [tag text ch tl]. injection H as _ _ ->. reflexivity.
  - rewrite <- read_fields_clear_tail, H. apply read_fields_country.
Qed.

Lemma parsed_blocks (ch : list element) :
  forall fs,
    map clear_tail ch = map country_element fs ->
    map read_fields ch = map Some fs
    /\ Forall (fun e => tag_of e = "Countries") ch
    /\ List.length
         (flat_map (fun c => (if String.eqb (tag_of c) "Countries" then [c] else [])
                             ++ findall_descendants "Countries" c)%list ch)
       = List.length fs.
Proof.
  induction ch as [|e ch IH]; intros [|f fs] H; try discriminate.
  - repeat split; constructor.
  - injection H as He Hch. destruct (IH fs Hch) as (Hr & Ht & Hn).
    destruct (parsed_block_inv e f He) as (Htag & Hnone & Hread).
    cbn [map flat_map]. rewrite Hread, Hr, Hnone, Htag, length_app, Hn.
    split; [reflexivity|]. split; [constructor; assumption | reflexivity].
Qed.

(** A document with safe field texts parses to one [CountriesCollection]
    element whose children are the blocks, each holding its fields. *)
Lemma parse_document (fs : list fields) :
  Forall (fun f => fields_safe f = true) fs ->
  exists tree,
    parse_xml (xml_declaration ++ nl ++ open_tag "CountriesCollection" ++ nl
               ++ body_text fs) = Ok tree
    /\ tag_of tree = "CountriesCollection"
    /\ map read_fields (children_of tree) = map Some fs
    /\ Forall (fun e => tag_of e = "Countries") (children_of tree)
    /\ List.length (findall_descendants "Countries" tree) = List.length fs.
Proof.
  intros Hfs. unfold parse_xml. rewrite (lex_document fs Hfs). cbn [bind].
  change (build (TText nl :: TOpen "CountriesCollection" :: body_tokens nl fs) [] None)
    with (build (body_tokens nl fs) [("CountriesCollection", None, [])] None).
  destruct (build_body fs nl None []) as (text' & ch' & Hb & Hc).
  rewrite Hb. exists (Element "CountriesCollection" text' ch' None).
  destruct (parsed_blocks ch' fs Hc) as (Hr & Ht & Hn).
  repeat split; assumption.
Qed.

Lemma concat_cons (x : string) (l : list string) :
  String.concat EmptyString (x :: l) = x ++ String.concat EmptyString l.
Proof. destruct l; simpl; [rewrite append_nil_r|]; reflexivity. Qed.

Lemma unlines_cons (x : string) (l : list string) :
  unlines (x :: l) = x ++ nl ++ unlines l.
Proof. unfold unlines. cbn [map]. rewrite concat_cons, append_assoc. reflexivity. Qed.

Lemma unlines_app (l1 l2 : list string) :
  unlines (l1 ++ l2) = unlines l1 ++ unlines l2.
Proof.
  induction l1 as [|x l1 IH]; [reflexivity|].
  cbn [app]. rewrite !unlines_cons, IH, !append_assoc. reflexivity.
Qed.

Lemma join_snoc (l : list string) (x : string) :
  join nl (l ++ [x]) = unlines l ++ x.
Proof.
  induction l as [|y l IH]; [reflexivity|].
  rewrite unlines_cons. cbn [app join]. rewrite IH.
  destruct (l ++ [x])%list eqn:E; [destruct l; discriminate|].
  rewrite !append_assoc. reflexivity.
Qed.

Lemma unlines_block (f : fields) : unlines (fields_block f) = block_text f.
Proof.
  unfold fields_block, block_lines, block_text, leaf_text, open_tag, close_tag.
  rewrite !unlines_cons. cbn [unlines map String.concat].
  cbn [append]. rewrite !append_assoc. cbn [append]. reflexivity.
Qed.

Lemma unlines_blocks (fs : list fields) :
  unlines (flat_map fields_block fs) ++ "</CountriesCollection>" = body_text fs.
Proof.
  induction fs as [|f fs IH]; [reflexivity|].
  cbn [flat_map body_text]. rewrite unlines_app, unlines_block, append_assoc, IH.
  reflexivity.
Qed.

(** The joined lines of a document, as the text the lexer lemmas read. *)
Lemma join_document (fs : list fields) :
  join nl ([xml_declaration; "<CountriesCollection>"] ++ flat_map fields_block fs
           ++ ["</CountriesCollection>"])%list
  = xml_declaration ++ nl ++ open_tag "CountriesCollection" ++ nl ++ body_text fs.
Proof.
  rewrite app_assoc, join_snoc, unlines_app, !unlines_cons.
  change (unlines []) with EmptyString. rewrite append_nil_r.
  rewrite !append_assoc, unlines_blocks. reflexivity.
Qed.

Lemma format_loop_fields (records : list json) (fs : list fields) :
  Forall2 (fun r f => Improved.extract_xml_data r = Ok (fields_extracted f)) records fs ->
  forall xml_lines,
    Improved.format_loop records xml_lines
    = Ok (xml_lines ++ flat_map fields_block fs)%list.
Proof.
  induction 1 as [|r f records fs Hr _ IH]; intros xml_lines.
  - simpl. rewrite app_nil_r. reflexivity.
  - cbn [Improved.format_loop flat_map]. rewrite Hr. cbn [bind].
    unfold fields_extracted. rewrite country_block_strings. cbn [bind].
    rewrite IH, <- app_assoc. reflexivity.
Qed.

Lemma document_lines_fields (records : list json) (fs : list fields) :
  Forall2 (fun r f => Improved.extract_xml_data r = Ok (fields_extracted f)) records fs ->
  Improved.document_lines records
  = Ok ([xml_declaration; "<CountriesCollection>"] ++ flat_map fields_block fs
        ++ ["</CountriesCollection>"])%list.
Proof.
  intros H. unfold Improved.document_lines.
  rewrite (format_loop_fields records fs H). cbn [bind].
  rewrite <- app_assoc. reflexivity.
Qed.

(** Round trip of the improved generator on safe text: when the fields
    extracted from the records hold no character that XML text has to
    escape, the document parses to a single [CountriesCollection] root with
    one [Countries] child per record, holding the record's fields. *)
Lemma improved_document_reads_back (records : list json) (fs : list fields) :
  Forall2 (fun r f => Improved.extract_xml_data r = Ok (fields_extracted f)) records fs ->
  Forall (fun f => fields_safe f = true) fs ->
  exists doc tree,
    Improved.render_document records = Ok doc
    /\ parse_xml doc = Ok tree
    /\ tag_of tree = "CountriesCollection"
    /\ map read_fields (children_of tree) = map Some fs
    /\ Forall (fun e => tag_of e = "Countries") (children_of tree)
    /\ List.length (findall_descendants "Countries" tree) = List.length records.
Proof.
  intros Hx Hs. destruct (parse_document fs Hs) as (tree & Hp & Ht & Hr & Hc & Hn).
  exists (xml_declaration ++ nl ++ open_tag "CountriesCollection" ++ nl ++ body_text fs),
    tree.
  split.
  - unfold Improved.render_document. rewrite (document_lines_fields records fs Hx).
    cbn [bind]. rewrite join_document. reflexivity.
  - rewrite (Forall2_length Hx). repeat split; assumption.
Qed.

(** ** The simple generator's document *)

Lemma passes_nil (old : string) : passes old EmptyString.
Proof. intros t. reflexivity. Qed.

Lemma passes_app (old s1 s2 : string) :
  passes old s1 -> passes old s2 -> passes old (s1 ++ s2).
Proof. intros H1 H2 t. rewrite !append_assoc, H1, H2. reflexivity. Qed.

Lemma passes_no_lt (old s : string) :
  no_lt s = true -> passes (String "<" old) s.
Proof.
  intros Hs t. induction s as [|c s IH]; [reflexivity|].
  simpl in Hs. apply andb_true_iff in Hs as [Hc Hs].
  apply negb_true_iff in Hc. unfold replace in *. cbn [append replace_from has_prefix].
  rewrite Ascii.eqb_sym, Hc. cbn [andb]. rewrite (IH Hs). reflexivity.
Qed.

(** Replacing a single character. *)
Lemma replace_char (a : ascii) (new : string) (c : ascii) (s : string) :
  replace (String a EmptyString) new (String c s)
  = (if Ascii.eqb a c then new else String c EmptyString)
    ++ replace (String a EmptyString) new s.
Proof.
  unfold replace. cbn [replace_from has_prefix String.length Nat.sub].
  destruct (Ascii.eqb a c); rewrite ?andb_true_r; reflexivity.
Qed.

Lemma no_lt_app (s1 s2 : string) : no_lt (s1 ++ s2) = no_lt s1 && no_lt s2.
Proof.
  unfold no_lt. induction s1 as [|c s1 IH]; simpl; [reflexivity|].
  rewrite IH, andb_assoc. reflexivity.
Qed.

Lemma replace_lt_no_lt (s : string) : no_lt (replace "<" "&lt;" s) = true.
Proof.
  induction s as [|c s IH]; [reflexivity|].
  rewrite replace_char, no_lt_app, IH, andb_true_r.
  destruct (Ascii.eqb "<" c) eqn:E; [reflexivity|].
  unfold no_lt. simpl. rewrite Ascii.eqb_sym, E. reflexivity.
Qed.

Lemma replace_gt_no_lt (s : string) :
  no_lt s = true -> no_lt (replace ">" "&gt;" s) = true.
Proof.
  induction s as [|c s IH]; [reflexivity|].
  intros H. change (no_lt (String c s)) with (negb (Ascii.eqb c "<") && no_lt s) in H.
  apply andb_true_iff in H as [Hc Hs].
  rewrite replace_char, no_lt_app, (IH Hs), andb_true_r.
  destruct (Ascii.eqb ">" c); [reflexivity|].
  unfold no_lt. simpl. rewrite Hc. reflexivity.
Qed.

Lemma escape_cdata_no_lt (s : string) : no_lt (escape_cdata s) = true.
Proof. unfold escape_cdata. apply replace_gt_no_lt, replace_lt_no_lt. Qed.

Lemma passes_concat (old : string) (l : list string) :
  Forall (passes old) l -> passes old (String.concat EmptyString l).
Proof.
  induction 1 as [|x l Hx _ IH]; [apply passes_nil|].
  rewrite concat_cons. apply passes_app; assumption.
Qed.

Lemma tostring_node (n : string) (c : element) (children : list element) :
  tostring (Element n None (c :: children) None)
  = open_tag n ++ String.concat EmptyString (map tostring (c :: children))
    ++ close_tag n.
Proof.
  unfold open_tag, close_tag. cbn [tostring has_text is_empty orb negb escape_opt].
  cbn [append]. rewrite !append_assoc, append_nil_r. cbn [append]. reflexivity.
Qed.

Lemma tostring_leaf (n v : string) :
  tostring (new_leaf n v)
  = if String.eqb v EmptyString then String "<" (n ++ " />")
    else open_tag n ++ escape_cdata v ++ close_tag n.
Proof.
  unfold new_leaf, opt_text, open_tag, close_tag.
  destruct (String.eqb v EmptyString) eqn:E;
    cbn [tostring has_text is_empty orb negb escape_opt map String.concat].
  - rewrite append_nil_r. reflexivity.
  - rewrite E. cbn [negb orb append]. rewrite !append_assoc, append_nil_r.
    cbn [append]. reflexivity.
Qed.

Lemma passes_leaf (old n v : string) :
  tag_passes (String "<" old) n -> passes (String "<" old) (tostring (new_leaf n v)).
Proof.
  intros (Ho & Hc & Hs). rewrite tostring_leaf.
  destruct (String.eqb v EmptyString); [exact Hs|].
  apply passes_app; [exact Ho|]. apply passes_app; [|exact Hc].
  apply passes_no_lt, escape_cdata_no_lt.
Qed.

Ltac tag_passes_literal :=
  split; [|split]; intros t; reflexivity.

Lemma passes_country (old : string) (f : fields) :
  tag_passes (String "<" old) "Countries" ->
  tag_passes (String "<" old) "Code" ->
  tag_passes (String "<" old) "OriginalName" ->
  tag_passes (String "<" old) "CommonName" ->
  tag_passes (String "<" old) "LocalName" ->
  tag_passes (String "<" old) "OfficialCurrency" ->
  tag_passes (String "<" old) "Name" ->
  tag_passes (String "<" old) "Symbol" ->
  passes (String "<" old) (tostring (simple_country f)).
Proof.
  intros Hco Hc Ho Hm Hl Hoc Hn Hs. unfold simple_country.
  rewrite tostring_node.
  apply passes_app; [apply Hco|]. apply passes_app; [|apply Hco].
  apply passes_concat. cbn [map].
  repeat (constructor; [solve [apply passes_leaf; assumption] |]).
  constructor; [|constructor].
  rewrite tostring_node.
  apply passes_app; [apply Hoc|]. apply passes_app; [|apply Hoc].
  apply passes_concat. cbn [map].
  repeat (constructor; [solve [apply passes_leaf; assumption] |]). constructor.
Qed.

Lemma passes_country_open (f : fields) : passes "<root>" (tostring (simple_country f)).
Proof. apply passes_country; tag_passes_literal. Qed.

Lemma passes_country_close (f : fields) : passes "</root>" (tostring (simple_country f)).
Proof. apply passes_country; tag_passes_literal. Qed.

(** Removing the temporary root leaves the serialised children side by
    side. *)
Lemma strip_root (fs : list fields) :
  fs <> [] ->
  replace "</root>" EmptyString
    (replace "<root>" EmptyString
       (tostring (Element "root" None (map simple_country fs) None)))
  = String.concat EmptyString (map (fun f => tostring (simple_country f)) fs).
Proof.
  intros Hne. destruct fs as [|f fs]; [congruence|].
  cbn [map]. rewrite tostring_node.
  change (simple_country f :: map simple_country fs)
    with (map simple_country (f :: fs)).
  rewrite map_map.
  set (body := String.concat EmptyString
                 (map (fun g => tostring (simple_country g)) (f :: fs))).
  assert (Ho : passes "<root>" body /\ passes "</root>" body).
  { subst body. split; apply passes_concat, Forall_forall; intros s Hin;
      apply in_map_iff in Hin as (g & <- & _);
      [apply passes_country_open | apply passes_country_close]. }
  destruct Ho as [Ho Hc].
  change (replace "<root>" EmptyString (open_tag "root" ++ body ++ close_tag "root"))
    with (replace "<root>" EmptyString (body ++ close_tag "root")).
  rewrite Ho.
  change (replace "<root>" EmptyString (close_tag "root")) with (close_tag "root").
  rewrite Hc. change (replace "</root>" EmptyString (close_tag "root")) with EmptyString.
  rewrite append_nil_r. reflexivity.
Qed.

Lemma simple_local_name_shaped (nn : json) :
  dict_of (entry_ok ["official"]) nn = true ->
  exists s, Simple.extract_local_name nn = Ok (JStr s).
Proof.
  destruct nn as [| | | | |d]; try discriminate. simpl. intros Hd.
  unfold Simple.extract_local_name. cbn [py_contains bind].
  destruct (assoc "hin" d) as [v|] eqn:Hhin; cbn [is_some].
  { exact (official_of_entry d "hin" v Hd Hhin). }
  destruct (assoc "jpn" d) as [v|] eqn:Hjpn; cbn [is_some].
  { exact (official_of_entry d "jpn" v Hd Hjpn). }
  destruct d as [|[k v] d]; cbn [truthy is_empty negb]; [eauto|].
  cbn [first_key bind]. exact (official_of_entry _ k v Hd (assoc_head k v d)).
Qed.

Lemma simple_extract_shaped (r : json) :
  well_shaped r = true ->
  exists f, Simple.extract_xml_data r = Ok (fields_extracted f).
Proof.
  destruct r as [| | | | |d]; try discriminate.
  unfold well_shaped. rewrite !andb_true_iff. intros [[Hc Hn] Hcur].
  unfold Simple.extract_xml_data. cbn [py_get bind].
  set (name_data := match assoc "name" d with Some v => v | None => JDict [] end).
  assert (Hname : name_ok name_data = true).
  { subst name_data. destruct (assoc "name" d); [exact Hn | reflexivity]. }
  destruct name_data as [| | | | |nd]; try discriminate.
  unfold name_ok in Hname. rewrite !andb_true_iff in Hname.
  destruct Hname as [[Ho Hm] Hnn]. cbn [py_get bind].
  set (nn := match assoc "nativeName" nd with Some v => v | None => JDict [] end).
  assert (Hnn' : dict_of (entry_ok ["official"]) nn = true).
  { subst nn. destruct (assoc "nativeName" nd); [exact Hnn | reflexivity]. }
  destruct (simple_local_name_shaped nn Hnn') as (l & ->). cbn [bind].
  set (cur := match assoc "currencies" d with Some v => v | None => JDict [] end).
  assert (Hcur' : dict_of (entry_ok ["name"; "symbol"]) cur = true).
  { subst cur. destruct (assoc "currencies" d); [exact Hcur | reflexivity]. }
  destruct (extract_currency_shaped cur Hcur') as (cc & cn & cs & -> & _).
  cbn [bind].
  assert (Hcs : exists c, match assoc "cca2" d with Some v => v | None => JStr "" end = JStr c).
  { destruct (assoc "cca2" d) as [v|]; simpl in *;
      [apply is_str_inv in Hc as [c ->]|]; eauto. }
  assert (Hos : exists o, match assoc "official" nd with Some v => v | None => JStr "" end = JStr o).
  { destruct (assoc "official" nd) as [v|]; simpl in *;
      [apply is_str_inv in Ho as [o ->]|]; eauto. }
  assert (Hms : exists m, match assoc "common" nd with Some v => v | None => JStr "" end = JStr m).
  { destruct (assoc "common" nd) as [v|]; simpl in *;
      [apply is_str_inv in Hm as [m ->]|]; eauto. }
  destruct Hcs as [c ->], Hos as [o ->], Hms as [m ->].
  exists (mkFields c o m l cc cn cs). reflexivity.
Qed.

Lemma fields_exist (extract : json -> outcome ExtractedCountry) (records : list json) :
  (forall r, well_shaped r = true -> exists f, extract r = Ok (fields_extracted f)) ->
  Forall (fun r => well_shaped r = true) records ->
  exists fs, Forall2 (fun r f => extract r = Ok (fields_extracted f)) records fs.
Proof.
  intros Hx. induction 1 as [|r records Hr _ [fs IH]]; [exists []; constructor|].
  destruct (Hx r Hr) as [f Hf]. exists (f :: fs). constructor; assumption.
Qed.

Lemma improved_extract_fields (r : json) :
  well_shaped r = true ->
  exists f, Improved.extract_xml_data r = Ok (fields_extracted f).
Proof.
  intros Hr.
  destruct (improved_extract_shaped r Hr) as (c & o & m & l & cc & cn & cs & Hx & _).
  exists (mkFields c o m l cc cn cs). exact Hx.
Qed.

Lemma create_leaf (n v : string) :
  Simple.create_xml_element n (JStr v) = Ok (new_leaf n v).
Proof.
  unfold Simple.create_xml_element, new_leaf, opt_text. cbn [truthy].
  destruct (String.eqb v EmptyString); reflexivity.
Qed.

Lemma simple_country_element (f : fields) :
  Simple.country_element (fields_extracted f) = Ok (simple_country f).
Proof.
  unfold Simple.country_element, fields_extracted, extracted.
  cbn [code original_name common_name local_name currency cur_code cur_name cur_symbol].
  rewrite !create_leaf. reflexivity.
Qed.

Lemma simple_build_loop (records : list json) (fs : list fields) :
  Forall2 (fun r f => Simple.extract_xml_data r = Ok (fields_extracted f)) records fs ->
  forall children,
    Simple.build_loop records children = Ok (children ++ map simple_country fs)%list.
Proof.
  induction 1 as [|r f records fs Hr _ IH]; intros children.
  - simpl. rewrite app_nil_r. reflexivity.
  - cbn [Simple.build_loop map]. rewrite Hr. cbn [bind].
    rewrite simple_country_element. cbn [bind]. rewrite IH, <- app_assoc. reflexivity.
Qed.

Lemma has_prefix_app (p s : string) : has_prefix p (p ++ s) = true.
Proof.
  induction p as [|c p IH]; [reflexivity|]. simpl. rewrite Ascii.eqb_refl. exact IH.
Qed.

(** The simple generator's document: the declaration, then the blocks
    side by side without a root. *)
Lemma simple_document (records : list json) (fs : list fields) :
  Forall2 (fun r f => Simple.extract_xml_data r = Ok (fields_extracted f)) records fs ->
  exists doc,
    Simple.render_document records = Ok doc
    /\ has_prefix xml_declaration doc = true
    /\ (records <> [] ->
        doc = xml_declaration ++ nl
              ++ String.concat EmptyString
                   (map (fun f => tostring (simple_country f)) fs)).
Proof.
  intros Hx. unfold Simple.render_document.
  rewrite (simple_build_loop records fs Hx). cbn [bind app].
  eexists. split; [reflexivity|]. split; [apply has_prefix_app|].
  intros Hne. rewrite strip_root; [reflexivity|].
  intros ->. inversion Hx. congruence.
Qed.

(** ** Reading the simple generator's elements back *)

Lemma replace_char_nil (a : ascii) (new : string) :
  replace (String a EmptyString) new EmptyString = EmptyString.
Proof. reflexivity. Qed.

Lemma replace_char_app (a : ascii) (new s1 s2 : string) :
  replace (String a EmptyString) new (s1 ++ s2)
  = replace (String a EmptyString) new s1 ++ replace (String a EmptyString) new s2.
Proof.
  induction s1 as [|c s1 IH]; [reflexivity|].
  cbn [append]. rewrite !replace_char, IH, append_assoc. reflexivity.
Qed.

(** Escaping works character by character. *)
Lemma escape_cdata_cons (c : ascii) (s : string) :
  escape_cdata (String c s) = escape_char c ++ escape_cdata s.
Proof.
  unfold escape_cdata, escape_char.
  rewrite (replace_char "&"), !replace_char_app. f_equal.
  rewrite (Ascii.eqb_sym c "&"), (Ascii.eqb_sym c "<"), (Ascii.eqb_sym c ">").
  destruct (Ascii.eqb "&" c); [reflexivity|].
  rewrite (replace_char "<"), replace_char_nil, append_nil_r.
  destruct (Ascii.eqb "<" c); [reflexivity|].
  rewrite (replace_char ">"), replace_char_nil, append_nil_r. reflexivity.
Qed.

Lemma lexes_escaped_char (c : ascii) (t : string) :
  is_plain c = true ->
  lexes (InText t) (escape_char c) (fun toks => toks) (InText (snoc t c)).
Proof.
  intros Hc rest. unfold escape_char.
  destruct (Ascii.eqb_spec c "&") as [->|Hamp].
  { cbn. rewrite bind_ret. reflexivity. }
  destruct (Ascii.eqb_spec c "<") as [->|Hlt].
  { cbn. rewrite bind_ret. reflexivity. }
  destruct (Ascii.eqb_spec c ">") as [->|Hgt].
  { cbn. rewrite bind_ret. reflexivity. }
  cbn [append lex].
  apply Ascii.eqb_neq in Hamp, Hlt, Hgt. rewrite Hamp, Hlt, Hgt, Hc. cbn [andb].
  rewrite bind_ret. reflexivity.
Qed.

Lemma lexes_escaped (v : string) :
  plain_text v = true ->
  forall t, lexes (InText t) (escape_cdata v) (fun toks => toks) (InText (t ++ v)).
Proof.
  induction v as [|c v IH]; intros Hv t.
  - rewrite append_nil_r. apply lexes_nil.
  - unfold plain_text in Hv. simpl in Hv. apply andb_true_iff in Hv as [Hc Hv].
    rewrite escape_cdata_cons.
    pose proof (lexes_app _ _ _ _ _ _ _ (lexes_escaped_char c t Hc) (IH Hv (snoc t c)))
      as H.
    unfold snoc in H. rewrite append_assoc in H. exact H.
Qed.

Lemma lex_tag_chars (n : string) :
  all_chars is_name_char n = true ->
  forall body s, lex (InTag body) (n ++ s) = lex (InTag (body ++ n)) s.
Proof.
  induction n as [|c n IH]; intros Hn body s.
  - rewrite append_nil_r. reflexivity.
  - simpl in Hn. apply andb_true_iff in Hn as [Hc Hn].
    apply is_name_char_inv in Hc as (H1 & H2 & H3 & H4 & H5 & H6 & H7 & _).
    cbn [append lex]. rewrite H1, H2, H3, H4, H5, H6, H7.
    rewrite andb_false_r. cbn [orb negb].
    rewrite (IH Hn). unfold snoc. rewrite append_assoc. reflexivity.
Qed.

Lemma span_name_short (n : string) :
  all_chars is_name_char n = true -> span_name (n ++ " /") = (n, " /").
Proof.
  induction n as [|c n IH]; [reflexivity|]. simpl.
  intros H. apply andb_true_iff in H as [-> Hn]. rewrite (IH Hn). reflexivity.
Qed.

Lemma no_colon_app (s1 s2 : string) :
  all_chars (fun c => negb (Ascii.eqb c ":")) (s1 ++ s2)
  = all_chars (fun c => negb (Ascii.eqb c ":")) s1
    && all_chars (fun c => negb (Ascii.eqb c ":")) s2.
Proof.
  induction s1 as [|c s1 IH]; simpl; [reflexivity|]. rewrite IH, andb_assoc. reflexivity.
Qed.

Lemma classify_short (n : string) :
  is_name n = true -> classify (n ++ " /") = Ok (TEmpty n).
Proof.
  intros Hn. destruct (is_name_inv n Hn) as (Hall & c & n' & -> & Hc).
  unfold classify. rewrite no_colon_app, (name_char_no_colon _ Hall). cbn [all_chars].
  cbn [Ascii.eqb Bool.eqb negb andb].
  rewrite (span_name_short _ Hall), Hn. cbn [lstrip_space is_space].
  cbn [append].
  destruct c as [[] [] [] [] [] [] [] []]; try discriminate Hc; reflexivity.
Qed.

(** The short form [<n />] of an element without content. *)
Lemma lexes_short (n t : string) :
  is_name n = true ->
  lexes (InText t) (String "<" (n ++ " />"))
    (fun toks => text_token t ++ TEmpty n :: toks)%list (InText EmptyString).
Proof.
  intros Hn rest. destruct (is_name_inv n Hn) as (Hall & _).
  cbn [append]. rewrite lex_text_lt, append_assoc, (lex_tag_chars n Hall).
  cbn [append].
  assert (Hstep : forall body s,
             lex (InTag body) (String " " (String "/" (String ">" s)))
             = tok <- classify (body ++ " /") ;;
               toks <- lex (InText EmptyString) s ;; Ok (tok :: toks)).
  { intros body s. cbn [lex]. cbn [Ascii.eqb Bool.eqb]. rewrite andb_false_r.
    cbn [orb is_plain is_space nat_of_ascii negb]. cbn.
    rewrite andb_false_r. unfold snoc. rewrite append_assoc. reflexivity. }
  rewrite Hstep, (classify_short n Hn). cbn [bind].
  destruct (lex (InText EmptyString) rest); reflexivity.
Qed.

Lemma lexes_new_leaf (n v : string) :
  is_name n = true -> plain_text v = true ->
  lexes (InText EmptyString) (tostring (new_leaf n v)) (new_leaf_tokens n v)
    (InText EmptyString).
Proof.
  intros Hn Hv. rewrite tostring_leaf. unfold new_leaf_tokens.
  destruct (String.eqb v EmptyString) eqn:E.
  - exact (lexes_short n EmptyString Hn).
  - pose proof (lexes_app _ _ _ _ _ _ _ (lexes_escaped v Hv EmptyString)
                  (lexes_close n (EmptyString ++ v) Hn)) as H1.
    pose proof (lexes_app _ _ _ _ _ _ _ (lexes_open n EmptyString Hn) H1) as H2.
    refine (lexes_ext _ _ _ _ _ H2 _). intros toks.
    cbn [append app text_token String.eqb]. unfold text_token. rewrite E. reflexivity.
Qed.

Lemma fields_plain_inv (f : fields) :
  fields_plain f = true ->
  plain_text (f_code f) = true /\ plain_text (f_original f) = true
  /\ plain_text (f_common f) = true /\ plain_text (f_local f) = true
  /\ plain_text (f_cur_code f) = true /\ plain_text (f_cur_name f) = true
  /\ plain_text (f_cur_symbol f) = true.
Proof. unfold fields_plain. rewrite !andb_true_iff. tauto. Qed.

Ltac simple_piece :=
  first [ apply lexes_new_leaf; [reflexivity | assumption]
        | apply (lexes_open _ EmptyString); reflexivity
        | apply (lexes_close _ EmptyString); reflexivity ].

Lemma lexes_simple_country (f : fields) :
  fields_plain f = true ->
  lexes (InText EmptyString) (tostring (simple_country f)) (simple_tokens f)
    (InText EmptyString).
Proof.
  intros Hf. apply fields_plain_inv in Hf as (H1 & H2 & H3 & H4 & H5 & H6 & H7).
  assert (H : exists k, lexes (InText EmptyString) (tostring (simple_country f)) k
                          (InText EmptyString)
                        /\ forall toks, k toks = simple_tokens f toks).
  { eexists. split.
    - unfold simple_country. rewrite tostring_node. cbn [map].
      rewrite !concat_cons, tostring_node. cbn [map].
      rewrite !concat_cons. cbn [String.concat]. rewrite !append_nil_r.
      rewrite !append_assoc.
      repeat (eapply lexes_app; [simple_piece|]). simple_piece.
    - intros toks. reflexivity. }
  destruct H as (k & Hk & Heq). exact (lexes_ext _ _ _ _ _ Hk Heq).
Qed.

Lemma build_new_leaf (n v : string) (rest : list token) (fr : frame)
  (outer : list frame) (root : option element) :
  build (new_leaf_tokens n v rest) (fr :: outer) root
  = build rest (add_child fr (new_leaf n v) :: outer) root.
Proof.
  unfold new_leaf_tokens, new_leaf, opt_text.
  destruct (String.eqb v EmptyString); cbn [build close_into add_text].
  - destruct fr as [[tag text] ch]. reflexivity.
  - rewrite String.eqb_refl. destruct fr as [[tag text] ch]. reflexivity.
Qed.

Lemma build_simple_country (f : fields) :
  build (simple_tokens f []) [] None = Ok (simple_country f).
Proof.
  unfold simple_tokens. cbn [build].
  rewrite !build_new_leaf. cbn [build add_child].
  rewrite !build_new_leaf. cbn [build add_child String.eqb Ascii.eqb Bool.eqb].
  reflexivity.
Qed.

Lemma text_or_empty_new_leaf (n v : string) : text_or_empty (new_leaf n v) = v.
Proof.
  unfold text_or_empty, new_leaf, opt_text. simpl.
  destruct (String.eqb_spec v EmptyString); auto.
Qed.

(** The serialised element parses back to the element itself. *)
Lemma parse_simple_country (f : fields) :
  fields_plain f = true ->
  parse_xml (xml_declaration ++ nl ++ tostring (simple_country f))
  = Ok (simple_country f).
Proof.
  intros Hf.
  assert (Hlex : lex (InText EmptyString)
                   (xml_declaration ++ nl ++ tostring (simple_country f))
                 = Ok (TDecl :: TText nl :: simple_tokens f [])).
  { rewrite (lexes_declaration (nl ++ tostring (simple_country f))).
    assert (Hnl : forall s, lex (InText EmptyString) (nl ++ String "<" s)
                            = toks <- lex (InTag EmptyString) s ;;
                              Ok (TText nl :: toks)).
    { intros s. reflexivity. }
    assert (Hs : forall s, lex (InText EmptyString) (String "<" s)
                           = toks <- lex (InTag EmptyString) s ;; Ok toks).
    { intros s. reflexivity. }
    pose proof (lexes_simple_country f Hf EmptyString) as Hc.
    rewrite append_nil_r in Hc.
    unfold simple_country in *. rewrite tostring_node in *.
    unfold open_tag in *. cbn [append] in Hc |- *.
    rewrite Hs in Hc. rewrite Hnl.
    destruct (lex (InTag EmptyString) _) as [toks| |]; cbn [bind] in Hc |- *;
      try discriminate.
    injection Hc as ->. reflexivity. }
  unfold parse_xml. rewrite Hlex. cbn [bind].
  change (build (TText nl :: simple_tokens f []) [] None)
    with (build (simple_tokens f []) [] None).
  apply build_simple_country.
Qed.

(** ** The shape of the documents *)

(** The claim C3 fails for the simple generator: for two records its
    output is the declaration followed by two [Countries] elements side by
    side, with no element around them, which no XML parser accepts. *)
Lemma simple_document_has_no_root :
  Simple.render_document [india; bare_record]
  = Ok (xml_declaration ++ nl ++ tostring (simple_country india_fields)
        ++ tostring (simple_country bare_fields))
  /\ (exists t1, parse_xml (tostring (simple_country india_fields)) = Ok t1
                 /\ tag_of t1 = "Countries")
  /\ (exists t2, parse_xml (tostring (simple_country bare_fields)) = Ok t2
                 /\ tag_of t2 = "Countries")
  /\ parse_xml (xml_declaration ++ nl ++ tostring (simple_country india_fields)
                ++ tostring (simple_country bare_fields))
     = Raise ParseError.
Proof.
  split; [reflexivity|].
  split; [eexists; split; reflexivity|].
  split; [eexists; split; reflexivity|]. reflexivity.
Qed.

(** The tokens of the serialised elements of several records, side by
    side. *)
Lemma lexes_simple_countries (fs : list fields) :
  Forall (fun f => fields_plain f = true) fs ->
  lexes (InText EmptyString)
    (String.concat EmptyString (map (fun f => tostring (simple_country f)) fs))
    (fun toks => fold_right simple_tokens toks fs) (InText EmptyString).
Proof.
  induction 1 as [|f fs Hf _ IH].
  - apply lexes_nil.
  - cbn [map fold_right]. rewrite concat_cons.
    exact (lexes_app _ _ _ _ _ _ _ (lexes_simple_country f Hf) IH).
Qed.

(** A line feed in front of the first tag is one more text token. *)
Lemma lex_after_line_feed (s : string) (toks : list token) :
  lex (InText EmptyString) (String "<" s) = Ok toks ->
  lex (InText EmptyString) (nl ++ String "<" s) = Ok (TText nl :: toks).
Proof.
  change (lex (InText EmptyString) (nl ++ String "<" s))
    with (toks <- lex (InTag EmptyString) s ;; Ok (TText nl :: toks)).
  change (lex (InText EmptyString) (String "<" s))
    with (toks <- lex (InTag EmptyString) s ;; Ok toks).
  destruct (lex (InTag EmptyString) s); cbn [bind]; try discriminate.
  intros H. injection H as ->. reflexivity.
Qed.

Lemma simple_country_starts (f : fields) :
  exists s, tostring (simple_country f) = String "<" s.
Proof. unfold simple_country. rewrite tostring_node. eexists. reflexivity. Qed.

Lemma lex_simple_document (f : fields) (fs : list fields) :
  Forall (fun f => fields_plain f = true) (f :: fs) ->
  lex (InText EmptyString)
    (xml_declaration ++ nl
     ++ String.concat EmptyString (map (fun f => tostring (simple_country f)) (f :: fs)))
  = Ok (TDecl :: TText nl :: fold_right simple_tokens [] (f :: fs)).
Proof.
  intros Hf. rewrite (lexes_declaration _).
  pose proof (lexes_simple_countries (f :: fs) Hf EmptyString) as H.
  rewrite append_nil_r in H. cbn [lex text_token String.eqb bind] in H.
  cbn [map] in H |- *. rewrite concat_cons in H |- *.
  destruct (simple_country_starts f) as (s & Hs). rewrite Hs in H |- *.
  set (body := String.concat EmptyString _) in *.
  change (String "<" s ++ body) with (String "<" (s ++ body)) in *.
  rewrite (lex_after_line_feed _ _ H). reflexivity.
Qed.

(** A complete element at the top level becomes the root. *)
Lemma build_simple_element (f : fields) (rest : list token) :
  build (simple_tokens f rest) [] None = build rest [] (Some (simple_country f)).
Proof.
  unfold simple_tokens. cbn [build].
  rewrite !build_new_leaf. cbn [build add_child].
  rewrite !build_new_leaf. cbn [build add_child String.eqb Ascii.eqb Bool.eqb].
  reflexivity.
Qed.

(** The serialised element alone is a document. *)
Lemma parse_simple_element (f : fields) :
  fields_plain f = true ->
  parse_xml (tostring (simple_country f)) = Ok (simple_country f).
Proof.
  intros Hf. pose proof (lexes_simple_country f Hf EmptyString) as H.
  rewrite append_nil_r in H. cbn [lex text_token String.eqb bind] in H.
  unfold parse_xml. rewrite H. cbn [bind].
  change (match simple_tokens f [] with TDecl :: toks' => build toks' [] None
          | _ => build (simple_tokens f []) [] None end)
    with (build (simple_tokens f []) [] None).
  apply build_simple_element.
Qed.

(** Two elements side by side are no document: the parser stops at the
    second one. *)
Lemma parse_simple_side_by_side (f g : fields) (fs : list fields) :
  Forall (fun f => fields_plain f = true) (f :: g :: fs) ->
  parse_xml (xml_declaration ++ nl
             ++ String.concat EmptyString
                  (map (fun f => tostring (simple_country f)) (f :: g :: fs)))
  = Raise ParseError.
Proof.
  intros Hf. unfold parse_xml. rewrite (lex_simple_document f (g :: fs) Hf).
  cbn [bind fold_right].
  change (build (TText nl :: simple_tokens f (simple_tokens g (fold_right simple_tokens [] fs))) [] None)
    with (build (simple_tokens f (simple_tokens g (fold_right simple_tokens [] fs))) [] None).
  rewrite build_simple_element. reflexivity.
Qed.

Lemma read_fields_simple_country (f : fields) :
  read_fields (simple_country f) = Some f.
Proof.
  unfold read_fields, simple_country. cbn [children_of].
  rewrite !text_or_empty_new_leaf. destruct f; reflexivity.
Qed.

(** The simple generator's document for every number of records. *)
Lemma simple_document_cases (records : list json) (fs : list fields) :
  Forall2 (fun r f => Simple.extract_xml_data r = Ok (fields_extracted f)) records fs ->
  Simple.render_document records
  = Ok (xml_declaration ++ nl
        ++ match fs with
           | [] => "<root />"
           | _ :: _ =>
               String.concat EmptyString
                 (map (fun f => tostring (simple_country f)) fs)
           end).
Proof.
  intros Hx. destruct (simple_document records fs Hx) as (doc & Hd & _ & Hs).
  destruct Hx as [|r f records fs Hr Hx]; [reflexivity|].
  rewrite Hd, Hs by discriminate. reflexivity.
Qed.

(** C3, as the code has it.  For records of the documented shape both
    generators return a document that begins with the declaration.  The
    improved generator's document is the declaration, the opening tag of
    the [CountriesCollection] root, one block per record and the closing
    tag; when every field text is printable ASCII (tab and line feed
    included) without [&], [<] and [>], it parses to that single root with
    one [Countries] child per record, holding the record's fields.  The
    simple generator removes its temporary root: for no record its
    document is the declaration followed by the empty element [<root />];
    for one or more records it is the declaration followed by the
    serialised [Countries] elements, one per record, side by side.  When
    the field texts are printable ASCII, each of these elements alone
    parses to a [Countries] element holding its record's fields, and the
    document has a single top-level element for no record ([root]) and
    for one record ([Countries]), while for two or more records it is not
    well-formed. *)
Theorem documents_of_both_generators (records : list json) :
  Forall (fun r => well_shaped r = true) records ->
  (exists fs doc,
      Forall2 (fun r f => Improved.extract_xml_data r = Ok (fields_extracted f))
        records fs
      /\ Improved.render_document records = Ok doc
      /\ doc = join nl ([xml_declaration; "<CountriesCollection>"]
                        ++ flat_map fields_block fs
                        ++ ["</CountriesCollection>"])%list
      /\ has_prefix xml_declaration doc = true
      /\ (Forall (fun f => fields_safe f = true) fs ->
          exists tree,
            parse_xml doc = Ok tree
            /\ tag_of tree = "CountriesCollection"
            /\ Forall (fun e => tag_of e = "Countries") (children_of tree)
            /\ map read_fields (children_of tree) = map Some fs))
  /\ (exists fs doc,
         Forall2 (fun r f => Simple.extract_xml_data r = Ok (fields_extracted f))
           records fs
         /\ Simple.render_document records = Ok doc
         /\ has_prefix xml_declaration doc = true
         /\ doc = xml_declaration ++ nl
                  ++ match fs with
                     | [] => "<root />"
                     | _ :: _ =>
                         String.concat EmptyString
                           (map (fun f => tostring (simple_country f)) fs)
                     end
         /\ (Forall (fun f => fields_plain f = true) fs ->
             Forall (fun f => exists e,
                                parse_xml (tostring (simple_country f)) = Ok e
                                /\ tag_of e = "Countries" /\ read_fields e = Some f) fs
             /\ match fs with
                | [] => parse_xml doc = Ok (Element "root" None [] None)
                | [f] => exists tree, parse_xml doc = Ok tree
                                      /\ tag_of tree = "Countries"
                                      /\ read_fields tree = Some f
                | _ :: _ :: _ => parse_xml doc = Raise ParseError
                end)).
Proof.
  intros Hr. split.
  - destruct (fields_exist _ records improved_extract_fields Hr) as [fs Hfs].
    exists fs. eexists. split; [exact Hfs|].
    unfold Improved.render_document. rewrite (document_lines_fields records fs Hfs).
    cbn [bind]. split; [reflexivity|]. split; [reflexivity|].
    rewrite join_document. split; [apply has_prefix_app|].
    intros Hs. destruct (parse_document fs Hs) as (tree & Hp & Ht & Hrf & Hc & _).
    exists tree. repeat split; assumption.
  - destruct (fields_exist _ records simple_extract_shaped Hr) as [fs Hfs].
    exists fs. eexists. split; [exact Hfs|].
    split; [exact (simple_document_cases records fs Hfs)|].
    split; [apply has_prefix_app|]. split; [reflexivity|].
    intros Hp. split.
    + apply Forall_forall. intros f Hin.
      exists (simple_country f). split.
      * apply parse_simple_element. exact (proj1 (Forall_forall _ _) Hp f Hin).
      * split; [reflexivity | apply read_fields_simple_country].
    + destruct fs as [|f [|g fs]].
      * reflexivity.
      * exists (simple_country f). cbn [map String.concat]. split.
        -- apply parse_simple_country. inversion Hp; assumption.
        -- split; [reflexivity | apply read_fields_simple_country].
      * apply parse_simple_side_by_side. exact Hp.
Qed.

Lemma documents_of_both_generators_witness :
  (exists doc tree,
      Improved.render_document [india; bare_record] = Ok doc
      /\ parse_xml doc = Ok tree
      /\ map read_fields (children_of tree) = [Some india_fields; Some bare_fields])
  /\ (exists doc, Simple.render_document [india; bare_record] = Ok doc
                  /\ has_prefix xml_declaration doc = true
                  /\ parse_xml doc = Raise ParseError).
Proof.
  destruct (documents_of_both_generators [india; bare_record]
              ltac:(repeat constructor))
    as [(fs & doc & Hfs & Hd & _ & _ & Hparse)
        (fs' & doc' & Hfs' & Hd' & Hp' & _ & Hside)].
  split.
  - assert (Hfs1 : fs = [india_fields; bare_fields]).
    { inversion Hfs as [|r f rs fs1 H1 Hrest]; subst.
      inversion Hrest as [|r2 f2 rs2 fs2 H2 Hnil]; subst. inversion Hnil; subst.
      destruct f, f2. injection H1 as <- <- <- <- <- <- <-.
      injection H2 as <- <- <- <- <- <- <-. reflexivity. }
    subst fs. destruct (Hparse ltac:(repeat constructor)) as (tree & Hp & _ & _ & Hr).
    exists doc, tree. repeat split; assumption.
  - assert (Hfs2 : fs' = [india_fields; bare_fields]).
    { inversion Hfs' as [|r f rs fs1 H1 Hrest]; subst.
      inversion Hrest as [|r2 f2 rs2 fs2 H2 Hnil]; subst. inversion Hnil; subst.
      destruct f, f2. injection H1 as <- <- <- <- <- <- <-.
      injection H2 as <- <- <- <- <- <- <-. reflexivity. }
    subst fs'. destruct (Hside ltac:(repeat constructor)) as [_ Hraise].
    exists doc'. repeat split; assumption.
Defined.

(** ** The self-check of the automation layer *)

Lemma connectivity_ok (w : world) (r : response) :
  net w (List.length (sent w)) (lookup_url "india") = Ok r ->
  raise_for_status r = Ok tt ->
  Automated.test_api_connectivity w
  = (Ok true, mkWorld (net w) (sent w ++ [lookup_url "india"])%list (disk w)).
Proof.
  intros Hnet Hst. unfold Automated.test_api_connectivity, bindM, http_get, lift.
  change "https://restcountries.com/v3.1/name/india" with (lookup_url "india").
  rewrite Hnet, Hst. reflexivity.
Qed.

(** When the probe succeeds, the lookups go as the contract describes, at
    least one record is fetched and every field is printable ASCII text
    (tab and line feed included) without [&], [<] and [>], the run
    succeeds and the count read back from the file is the number of
    fetched records. *)
Lemma validation_counts_fetched_records (names : list string) (d b : string)
  (w : world) (r : response) (fs : list fields) :
  net w (List.length (sent w)) (lookup_url "india") = Ok r ->
  raise_for_status r = Ok tt ->
  orderly (net w) (S (List.length (sent w))) names = true ->
  successes (net w) (S (List.length (sent w))) names <> [] ->
  Forall2 (fun r f => Improved.extract_xml_data r = Ok (fields_extracted f))
    (successes (net w) (S (List.length (sent w))) names) fs ->
  Forall (fun f => fields_safe f = true) fs ->
  simple_name d = true -> simple_name b = true ->
  is_file (disk w) (false, [d]) = false ->
  is_dir (disk w) (false, [d; b]) = false ->
  exists w' size,
    Automated.generate_xml_with_validation names (d ++ String slash b) w
    = (Ok (Automated.mkResult true (List.length names)
             (List.length (successes (net w) (S (List.length (sent w))) names))
             (d ++ String slash b) (Some size) []
             (if (List.length (successes (net w) (S (List.length (sent w))) names)
                  <? List.length names)%nat
              then [List.length names
                    - List.length (successes (net w) (S (List.length (sent w))) names)]
              else [])),
       w').
Proof.
  intros Hnet Hst Hord Hne Hx Hs Hd Hb Hfile Hdir.
  set (records := successes (net w) (S (List.length (sent w))) names) in *.
  destruct (improved_document_reads_back records fs Hx Hs)
    as (doc & tree & Hdoc & Hparse & _ & _ & _ & Hcount).
  set (w1 := mkWorld (net w) (sent w ++ [lookup_url "india"])%list (disk w)).
  assert (Hlen : List.length (sent w1) = S (List.length (sent w))).
  { apply sent_length_snoc. }
  assert (Hfetch : fetch_country_data names w1
                   = (Ok records,
                      mkWorld (net w) (sent w1 ++ map lookup_url names)%list (disk w))).
  { unfold fetch_country_data. rewrite fetch_loop_orderly; rewrite Hlen; auto. }
  set (w2 := mkWorld (net w) (sent w1 ++ map lookup_url names)%list (disk w)) in *.
  destruct (improved_formatter_writes records d b doc w2 Hdoc Hd Hb Hfile Hdir)
    as (fs' & Hgen & Hread & Hex).
  assert (Hname : String.eqb (d ++ String slash b) EmptyString = false).
  { apply simple_name_inv in Hd as (Hdne & _). destruct d; [congruence | reflexivity]. }
  exists (mkWorld (net w2) (sent w2) fs'), (String.length doc).
  unfold Automated.generate_xml_with_validation, Automated.validation_body, bindM.
  rewrite (connectivity_ok w r Hnet Hst). fold w1. cbn [negb].
  unfold Improved.generate_countries_xml, bindM. rewrite Hfetch.
  destruct records as [|r0 records'] eqn:Hrec; [congruence|]. cbn [is_empty].
  rewrite Hgen. unfold ret. rewrite Hname.
  unfold from_disk, lift. cbn [disk]. rewrite Hex. cbv beta iota.
  cbn [disk]. rewrite Hread. cbv beta iota. rewrite Hparse. cbv beta iota.
  rewrite Hcount. reflexivity.
Qed.

(** ** More on the fetcher *)

Lemma fetch_one_world (name : string) (acc : list json) (w : world) :
  snd (fetch_one name acc w)
  = mkWorld (net w) (sent w ++ [lookup_url name])%list (disk w).
Proof.
  unfold fetch_one, bindM, http_get, lift, ret. fold (lookup_url name).
  destruct (net w (List.length (sent w)) _) as [r| |]; simpl; auto.
  destruct (raise_for_status r) as [[]| |]; simpl; auto.
  destruct (json_body r) as [data| |]; simpl; auto.
  destruct (truthy data); simpl; auto.
  destruct (py_len data) as [n| |]; simpl; auto.
  destruct (0 <? n)%nat; simpl; auto.
  destruct (py_item0 data); simpl; auto.
Qed.

Lemma fetch_one_grows (name : string) (acc acc' : list json) (w : world) :
  fst (fetch_one name acc w) = Ok acc' ->
  List.length acc' <= S (List.length acc).
Proof.
  unfold fetch_one, bindM, http_get, lift, ret.
  destruct (net w (List.length (sent w)) _) as [r| |]; simpl; try discriminate.
  destruct (raise_for_status r) as [[]| |]; simpl; try discriminate.
  destruct (json_body r) as [data| |]; simpl; try discriminate.
  destruct (truthy data); simpl; [|intros [= <-]; lia].
  destruct (py_len data) as [n| |]; simpl; try discriminate.
  destruct (0 <? n)%nat; simpl; [|intros [= <-]; lia].
  destruct (py_item0 data); simpl; try discriminate.
  intros [= <-]. rewrite length_app. simpl. lia.
Qed.

Lemma fetch_loop_requests (names : list string) :
  forall (acc : list json) (w : world),
    disk (snd (fetch_loop names acc w)) = disk w
    /\ net (snd (fetch_loop names acc w)) = net w
    /\ exists k,
         k <= List.length names
         /\ sent (snd (fetch_loop names acc w))
            = (sent w ++ map lookup_url (firstn k names))%list
         /\ forall records,
              fst (fetch_loop names acc w) = Ok records ->
              k = List.length names
              /\ List.length records <= List.length acc + List.length names.
Proof.
  induction names as [|name rest IH]; intros acc w.
  - simpl. split; [reflexivity|]. split; [reflexivity|]. exists 0.
    rewrite app_nil_r. repeat split; auto. injection H as <-. lia.
  - cbn [fetch_loop]. pose proof (fetch_one_world name acc w) as Hw.
    pose proof (fun acc' => fetch_one_grows name acc acc' w) as Hg.
    destruct (fetch_one name acc w) as [[acc'| e |] w1]; simpl in Hw; subst w1.
    + specialize (Hg acc' eq_refl). simpl in Hg.
      destruct (IH acc' (mkWorld (net w) (sent w ++ [lookup_url name]) (disk w)))
        as (Hd & Hn & k & Hk & Hs & Hr).
      split; [exact Hd|]. split; [exact Hn|]. exists (S k).
      split; [simpl; lia|]. split.
      * rewrite Hs. cbn [sent firstn map]. rewrite <- app_assoc. reflexivity.
      * intros records Hrec. destruct (Hr records Hrec) as [-> Hl]. simpl. split; lia.
    + destruct (is_request_exception e).
      * destruct (IH acc (mkWorld (net w) (sent w ++ [lookup_url name]) (disk w)))
          as (Hd & Hn & k & Hk & Hs & Hr).
        split; [exact Hd|]. split; [exact Hn|]. exists (S k).
        split; [simpl; lia|]. split.
        -- rewrite Hs. cbn [sent firstn map]. rewrite <- app_assoc. reflexivity.
        -- intros records Hrec. destruct (Hr records Hrec) as [-> Hl]. simpl. split; lia.
      * split; [reflexivity|]. split; [reflexivity|]. exists 1.
        split; [simpl; lia|]. split; [reflexivity|]. discriminate.
    + split; [reflexivity|]. split; [reflexivity|]. exists 1.
      split; [simpl; lia|]. split; [reflexivity|]. discriminate.
Qed.

(** X1: whatever the network answers, the fetcher leaves the disk alone
    and requests the lookup URLs of a prefix of the names, in order; when it
    returns, it has requested every name once and holds at most one record
    per name. *)
Theorem fetcher_requests_a_prefix_of_the_names (names : list string) (w : world) :
  disk (snd (fetch_country_data names w)) = disk w
  /\ net (snd (fetch_country_data names w)) = net w
  /\ exists k,
       k <= List.length names
       /\ sent (snd (fetch_country_data names w))
          = (sent w ++ map lookup_url (firstn k names))%list
       /\ forall records,
            fst (fetch_country_data names w) = Ok records ->
            k = List.length names /\ List.length records <= List.length names.
Proof.
  unfold fetch_country_data.
  destruct (fetch_loop_requests names [] w) as (Hd & Hn & k & Hk & Hs & Hr).
  split; [exact Hd|]. split; [exact Hn|]. exists k. repeat split; auto;
    destruct (Hr records H) as [? ?]; auto.
Qed.

(** X2: what the loop does with a response of good status whose body is
    not a list.  A falsy body (null, false, 0, the empty string or object)
    is skipped like an empty list; a non-empty object makes [data[0]] raise
    [KeyError] and a number or [true] makes [len(data)] raise [TypeError],
    neither of which the handler catches, so the batch is aborted. *)
Theorem non_list_body (name : string) (rest : list string) (acc : list json)
  (w : world) (r : response) (data : json) :
  net w (List.length (sent w)) (lookup_url name) = Ok r ->
  raise_for_status r = Ok tt ->
  json_body r = Ok data ->
  let w1 := mkWorld (net w) (sent w ++ [lookup_url name])%list (disk w) in
  (truthy data = false ->
   fetch_loop (name :: rest) acc w = fetch_loop rest acc w1)
  /\ (forall k v d, data = JDict ((k, v) :: d) ->
      fetch_loop (name :: rest) acc w = (Raise KeyError, w1))
  /\ (truthy data = true -> (exists n, data = JNum n) \/ data = JBool true ->
      fetch_loop (name :: rest) acc w = (Raise TypeError, w1)).
Proof.
  intros Hnet Hst Hj w1.
  assert (Hstep : fetch_one name acc w
                  = (nonempty <- (if truthy data
                                  then n <- py_len data ;; Ok (0 <? n)%nat
                                  else Ok false) ;;
                     if (nonempty : bool)
                     then first <- py_item0 data ;; Ok (acc ++ [first])%list
                     else Ok acc, w1)).
  { unfold fetch_one, bindM, http_get, lift, ret. fold (lookup_url name).
    rewrite Hnet. cbn [net sent disk]. rewrite Hst, Hj. fold w1.
    destruct (truthy data); [|reflexivity].
    destruct (py_len data) as [n| |]; cbn [bind]; try reflexivity.
    destruct (0 <? n)%nat; [|reflexivity].
    destruct (py_item0 data); reflexivity. }
  cbn [fetch_loop]. rewrite Hstep. split; [|split].
  - intros ->. reflexivity.
  - intros k v d ->. reflexivity.
  - intros Ht [[n ->] | ->]; rewrite Ht; reflexivity.
Qed.

Lemma non_list_body_witness :
  fetch_country_data ["india"; "japan"] object_world
  = (Raise KeyError, mkWorld (net object_world) [lookup_url "india"] empty_disk).
Proof.
  exact (proj1 (proj2 (non_list_body "india" ["japan"] [] object_world
                         (mkResponse 200 (Ok (JDict [("status", JNum 404);
                                                     ("message", JStr "Not Found")])))
                         _ eq_refl eq_refl eq_refl))
           _ _ _ eq_refl).
Defined.

(** ** More on the extractors *)

Lemma priority_loop_skip (d : list (string * json)) (pre rest : list string) :
  (forall l, In l pre -> assoc l d = None) ->
  Improved.priority_loop (JDict d) (pre ++ rest)
  = Improved.priority_loop (JDict d) rest.
Proof.
  induction pre as [|l pre IH]; intros H; [reflexivity|].
  cbn [app Improved.priority_loop py_contains bind].
  rewrite (H l (or_introl eq_refl)). cbn [is_some].
  apply IH. intros l' Hl'. apply H. right. exact Hl'.
Qed.

(** X3: the improved extractor takes the official name of the first
    language of its priority list that the native names have, provided
    that name is not empty. *)
Theorem local_name_follows_the_priority_list (d e : list (string * json))
  (pre post : list string) (lang : string) :
  Improved.language_priority = (pre ++ lang :: post)%list ->
  (forall l, In l pre -> assoc l d = None) ->
  assoc lang d = Some (JDict e) ->
  truthy (or_empty (assoc "official" e)) = true ->
  Improved.extract_local_name (JDict d) = Ok (or_empty (assoc "official" e)).
Proof.
  intros Hp Hpre Hlang Ht. unfold Improved.extract_local_name.
  rewrite Hp, (priority_loop_skip d pre _ Hpre).
  cbn [Improved.priority_loop py_contains bind]. rewrite Hlang. cbn [is_some].
  unfold official_of. cbn [py_getitem]. rewrite Hlang. cbn [bind py_get].
  fold (or_empty (assoc "official" e)). rewrite Ht. reflexivity.
Qed.

Lemma local_name_follows_the_priority_list_witness :
  Improved.extract_local_name (JDict german_names)
  = Ok (JStr "Bundesrepublik Deutschland").
Proof.
  apply (local_name_follows_the_priority_list german_names
           [("official", JStr "Bundesrepublik Deutschland")]
           ["hin"; "jpn"] ["fra"; "spa"; "ara"; "zho"] "deu" eq_refl).
  - intros l [<- | [<- | []]]; reflexivity.
  - reflexivity.
  - reflexivity.
Defined.

(** X4: when the native names hold none of the priority languages, both
    extractors take the official name of the first entry, in the order of
    the mapping. *)
Theorem local_name_falls_back_to_the_first_entry (k : string)
  (e rest : list (string * json)) :
  (forall l, In l Improved.language_priority ->
             assoc l ((k, JDict e) :: rest) = None) ->
  Improved.extract_local_name (JDict ((k, JDict e) :: rest))
  = Ok (or_empty (assoc "official" e))
  /\ Simple.extract_local_name (JDict ((k, JDict e) :: rest))
     = Ok (or_empty (assoc "official" e)).
Proof.
  intros H. split.
  - unfold Improved.extract_local_name.
    rewrite <- (app_nil_r Improved.language_priority), (priority_loop_skip _ _ [] H).
    cbn [Improved.priority_loop bind truthy String.eqb negb is_empty andb first_key].
    unfold official_of. cbn [py_getitem]. rewrite assoc_head. reflexivity.
  - unfold Simple.extract_local_name. cbn [py_contains bind].
    rewrite (H "hin"), (H "jpn") by (simpl; auto). cbn [is_some truthy is_empty negb].
    cbn [first_key bind]. unfold official_of. cbn [py_getitem].
    rewrite assoc_head. reflexivity.
Qed.

Lemma local_name_falls_back_to_the_first_entry_witness :
  Improved.extract_local_name (JDict english_names)
  = Ok (JStr "Commonwealth of Australia")
  /\ Simple.extract_local_name (JDict english_names)
     = Ok (JStr "Commonwealth of Australia").
Proof.
  apply (local_name_falls_back_to_the_first_entry "eng"
           [("official", JStr "Commonwealth of Australia")]
           [("mri", JDict [("official", JStr "Aotearoa")])]).
  intros l [<- | [<- | [<- | [<- | [<- | [<- | [<- | []]]]]]]]; reflexivity.
Defined.

(** X5: the two extractors differ in the local name only: on every
    record for which both return, they give the same code, official name,
    common name and currency. *)
Theorem extractors_agree_outside_the_local_name (r : json) (x y : ExtractedCountry) :
  Improved.extract_xml_data r = Ok x ->
  Simple.extract_xml_data r = Ok y ->
  code x = code y /\ original_name x = original_name y
  /\ common_name x = common_name y /\ currency x = currency y.
Proof.
  unfold Improved.extract_xml_data, Simple.extract_xml_data.
  destruct (py_get r "name" (JDict [])) as [name_data| |]; try discriminate.
  cbn [bind].
  destruct (py_get r "currencies" (JDict [])) as [currencies| |]; try discriminate.
  cbn [bind].
  destruct (py_get name_data "nativeName" (JDict [])) as [nn| |]; try discriminate.
  cbn [bind].
  destruct (Improved.extract_local_name nn) as [li| |]; try discriminate.
  destruct (Simple.extract_local_name nn) as [ls| |]; try discriminate.
  cbn [bind].
  destruct (extract_currency currencies) as [cur| |]; try discriminate. cbn [bind].
  destruct (py_get r "cca2" _) as [c| |]; try discriminate. cbn [bind].
  destruct (py_get name_data "official" _) as [o| |]; try discriminate. cbn [bind].
  destruct (py_get name_data "common" _) as [m| |]; try discriminate. cbn [bind].
  intros [= <-] [= <-]. repeat split.
Qed.

Lemma extractors_agree_outside_the_local_name_witness :
  exists x y,
    Improved.extract_xml_data hindi_blank = Ok x
    /\ Simple.extract_xml_data hindi_blank = Ok y
    /\ local_name x <> local_name y
    /\ code x = code y /\ currency x = currency y.
Proof.
  do 2 eexists. split; [reflexivity|]. split; [reflexivity|].
  split; [discriminate|].
  destruct (extractors_agree_outside_the_local_name hindi_blank _ _ eq_refl eq_refl)
    as (Hc & _ & _ & Hcur).
  split; [exact Hc | exact Hcur].
Defined.

(** ** More on writing the document *)

Lemma lookup_set_file_other (p q : path) (content : string) (l : list (path * string)) :
  q <> p -> lookup_file q (set_file p content l) = lookup_file q l.
Proof.
  intros Hne. induction l as [|[p' old] l IH]; simpl.
  - rewrite (path_eqb_neq q p Hne). reflexivity.
  - destruct (path_eqb p p') eqn:E; simpl.
    + apply path_eqb_eq in E. subst p'. rewrite (path_eqb_neq q p Hne). reflexivity.
    + destruct (path_eqb q p'); [reflexivity | exact IH].
Qed.

(** The two steps that end both generators, on a path [d/b]. *)
Lemma write_steps (d b doc : string) (fs : filesystem) :
  simple_name d = true -> simple_name b = true ->
  is_file fs (false, [d]) = false ->
  is_dir fs (false, [d; b]) = false ->
  exists fs1 fs2,
    makedirs (dirname (d ++ String slash b)) fs = Ok fs1
    /\ write_file (d ++ String slash b) doc fs1 = Ok fs2
    /\ is_dir fs2 (false, [d]) = true
    /\ lookup_file (false, [d; b]) (files fs2) = Some doc
    /\ (forall q, q <> (false, [d; b]) ->
                  lookup_file q (files fs2) = lookup_file q (files fs))
    /\ (forall q, is_dir fs q = true -> is_dir fs2 q = true).
Proof.
  intros Hd Hb Hfile Hdir.
  destruct (makedirs_simple d fs Hd Hfile) as (fs1 & Hmk & Hfiles & Hd1 & Hdb).
  pose proof (simple_name_inv d Hd) as (Hne & _ & _).
  assert (Hname : String.eqb (d ++ String slash b) EmptyString = false).
  { destruct d; [congruence | reflexivity]. }
  assert (Hkeep : forall q, is_dir fs q = true -> is_dir fs1 q = true).
  { intros q Hq. unfold makedirs in Hmk.
    rewrite (nonempty_eqb d Hne), (resolve_simple d Hd) in Hmk.
    cbn [bind fst snd make_chain app] in Hmk.
    destruct (is_dir fs (false, [d])); [congruence|].
    rewrite Hfile in Hmk. injection Hmk as <-.
    unfold is_dir, add_dir in *. simpl.
    apply orb_true_iff in Hq as [Hq | Hq]; rewrite Hq, ?orb_true_r; reflexivity. }
  exists fs1, (mkFS (dirs fs1) (set_file (false, [d; b]) doc (files fs1))).
  rewrite dirname_of_child by assumption. split; [exact Hmk|]. split.
  - unfold write_file. rewrite Hname, resolve_child by assumption.
    cbn [bind fst snd check_ancestors app]. rewrite Hd1. cbn [bind].
    rewrite Hdb, Hdir, ends_with_slash_child by assumption. reflexivity.
  - split; [exact Hd1|]. cbn [files]. split; [apply lookup_set_file|]. split.
    + intros q Hq. rewrite lookup_set_file_other, Hfiles by exact Hq. reflexivity.
    + intros q Hq. exact (Hkeep q Hq).
Qed.

(** X6: on an output path [d/b] both generators create the directory [d]
    when it is missing, write the document to [d/b], replacing what the
    file held, and return the path; no other file changes, no directory
    disappears and no request is sent. *)
Theorem generators_write_only_the_output_file (records : list json)
  (d b : string) (w : world) :
  simple_name d = true -> simple_name b = true ->
  is_file (disk w) (false, [d]) = false ->
  is_dir (disk w) (false, [d; b]) = false ->
  (forall doc, Improved.render_document records = Ok doc ->
     exists fs,
       Improved.generate_formatted_xml records (d ++ String slash b) w
       = (Ok (d ++ String slash b), mkWorld (net w) (sent w) fs)
       /\ is_dir fs (false, [d]) = true
       /\ lookup_file (false, [d; b]) (files fs) = Some doc
       /\ (forall q, q <> (false, [d; b]) ->
                     lookup_file q (files fs) = lookup_file q (files (disk w)))
       /\ (forall q, is_dir (disk w) q = true -> is_dir fs q = true))
  /\ (forall doc, Simple.render_document records = Ok doc ->
        exists fs,
          Simple.generate_xml records (d ++ String slash b) w
          = (Ok (d ++ String slash b), mkWorld (net w) (sent w) fs)
          /\ is_dir fs (false, [d]) = true
          /\ lookup_file (false, [d; b]) (files fs) = Some doc
          /\ (forall q, q <> (false, [d; b]) ->
                        lookup_file q (files fs) = lookup_file q (files (disk w)))
          /\ (forall q, is_dir (disk w) q = true -> is_dir fs q = true)).
Proof.
  intros Hd Hb Hfile Hdir. split; intros doc Hdoc;
    destruct (write_steps d b doc (disk w) Hd Hb Hfile Hdir)
      as (fs1 & fs2 & Hmk & Hwr & H1 & H2 & H3 & H4);
    exists fs2; (split; [|repeat split; assumption]).
  - unfold Improved.generate_formatted_xml, bindM, lift, on_disk, ret.
    rewrite Hdoc, Hmk. cbn [disk net sent]. rewrite Hwr. reflexivity.
  - unfold Simple.generate_xml, bindM, lift, on_disk, ret.
    rewrite Hdoc, Hmk. cbn [disk net sent]. rewrite Hwr. reflexivity.
Qed.

Lemma generators_write_only_the_output_file_witness :
  exists fs,
    Improved.generate_formatted_xml [india] "output/countries.xml" used_world
    = (Ok "output/countries.xml", mkWorld (net used_world) [] fs)
    /\ lookup_file (false, ["notes.txt"]) (files fs) = Some "keep me"
    /\ lookup_file (false, ["output"; "countries.xml"]) (files fs) <> Some "stale".
Proof.
  destruct (proj1 (generators_write_only_the_output_file [india] "output"
                     "countries.xml" used_world eq_refl eq_refl eq_refl eq_refl)
              _ eq_refl) as (fs & Hgen & _ & Hdoc & Hother & _).
  exists fs. split; [exact Hgen|]. split.
  - rewrite Hother by discriminate. reflexivity.
  - rewrite Hdoc. discriminate.
Defined.

(** X7: the simple generator on no record.  [generate_countries_xml]
    returns [None] and writes nothing when nothing was fetched; [generate_xml]
    itself, given the empty list, writes the declaration followed by
    [<root />], because an empty root is serialised in the short form that
    the removal of [<root>] and [</root>] does not match. *)
Theorem simple_generator_on_no_record (names : list string) (output_file d b : string)
  (w w1 : world) :
  fetch_country_data names w = (Ok [], w1) ->
  simple_name d = true -> simple_name b = true ->
  is_file (disk w) (false, [d]) = false ->
  is_dir (disk w) (false, [d; b]) = false ->
  Simple.generate_countries_xml names output_file w = (Ok None, w1)
  /\ disk w1 = disk w
  /\ exists fs,
       Simple.generate_xml [] (d ++ String slash b) w
       = (Ok (d ++ String slash b), mkWorld (net w) (sent w) fs)
       /\ lookup_file (false, [d; b]) (files fs)
          = Some (xml_declaration ++ nl ++ "<root />").
Proof.
  intros Hf Hd Hb Hfile Hdir. split; [|split].
  - unfold Simple.generate_countries_xml, bindM. rewrite Hf. reflexivity.
  - pose proof (fetch_loop_disk names [] w) as H.
    unfold fetch_country_data in Hf. rewrite Hf in H. exact H.
  - destruct (write_steps d b (xml_declaration ++ nl ++ "<root />") (disk w)
                Hd Hb Hfile Hdir) as (fs1 & fs2 & Hmk & Hwr & _ & Hdoc & _).
    exists fs2. split; [|exact Hdoc].
    unfold Simple.generate_xml, bindM, lift, on_disk, ret.
    change (Simple.render_document []) with (Ok (xml_declaration ++ nl ++ "<root />")).
    rewrite Hmk. cbn [disk net sent]. rewrite Hwr. reflexivity.
Qed.

Lemma simple_generator_on_no_record_witness :
  Simple.generate_countries_xml ["atlantis"] "output/countries.xml" offline_world
  = (Ok None, mkWorld (net offline_world) [lookup_url "atlantis"] empty_disk).
Proof.
  exact (proj1 (simple_generator_on_no_record ["atlantis"] "output/countries.xml"
                  "output" "countries.xml" offline_world _
                  eq_refl eq_refl eq_refl eq_refl eq_refl)).
Defined.

(** ** More on the automation layer *)

Lemma validation_body_cases (names : list string) (out : string) (w w' : world)
  (res : Automated.result) :
  Automated.validation_body names out w = (Ok res, w') ->
  res = Automated.with_error (Automated.initial_result names out)
          Automated.ConnectivityTestFailed
  \/ res = Automated.with_error (Automated.initial_result names out)
             Automated.FileNotCreated
  \/ exists n size,
       res = Automated.mkResult true (List.length names) n out (Some size) []
               (if (n <? List.length names)%nat then [List.length names - n] else []).
Proof.
  unfold Automated.validation_body, bindM.
  destruct (Automated.test_api_connectivity w) as [[[]| |] w0]; try discriminate.
  2:{ cbn [negb]. unfold ret. intros [= <- _]. left. reflexivity. }
  cbn [negb].
  destruct (Improved.generate_countries_xml names out w0) as [[[p|]| |] w2];
    try discriminate.
  - destruct (String.eqb p EmptyString).
    + unfold ret. intros [= <- _]. right. left. reflexivity.
    + unfold from_disk.
      destruct (path_exists p (disk w2)) as [[]| |]; try discriminate.
      * destruct (read_file p (disk w2)) as [doc| |]; try discriminate.
        unfold lift. destruct (parse_xml doc) as [tree| |]; try discriminate.
        unfold ret. intros [= <- _]. right. right. eauto.
      * unfold ret. intros [= <- _]. right. left. reflexivity.
  - unfold ret. intros [= <- _]. right. left. reflexivity.
Qed.

(** X8: [generate_xml_with_validation] never raises, and the report it
    returns is coherent: it records the number of requested names and the
    output path; [success] holds exactly when the error list is empty; a
    failed run has one error, no count, no size and no warning; a successful
    run warns exactly when it counted fewer countries than were requested. *)
Theorem validation_report_is_coherent (names : list string) (out : string) (w : world) :
  (forall e w', Automated.generate_xml_with_validation names out w <> (Raise e, w'))
  /\ forall res w',
       Automated.generate_xml_with_validation names out w = (Ok res, w') ->
       Automated.countries_requested res = List.length names
       /\ Automated.output_file res = out
       /\ (Automated.success res = true <-> Automated.errors res = [])
       /\ (Automated.success res = false ->
           (exists e, Automated.errors res = [e])
           /\ Automated.countries_processed res = 0
           /\ Automated.file_size res = None
           /\ Automated.warnings res = [])
       /\ (Automated.success res = true ->
           (Automated.warnings res <> [] <->
            Automated.countries_processed res < List.length names)).
Proof.
  split.
  - intros e w'. unfold Automated.generate_xml_with_validation.
    destruct (Automated.validation_body names out w) as [[res| |] w0]; discriminate.
  - intros res w'. unfold Automated.generate_xml_with_validation.
    destruct (Automated.validation_body names out w) as [[res0|e0|] w0] eqn:Hb;
      try discriminate.
    + intros [= <- _].
      destruct (validation_body_cases names out w w0 res0 Hb)
        as [-> | [-> | (n & size & ->)]].
      * cbn. repeat split; try discriminate; eauto.
      * cbn. repeat split; try discriminate; eauto.
      * cbn [Automated.success Automated.countries_requested
               Automated.countries_processed Automated.output_file
               Automated.file_size Automated.errors Automated.warnings].
        destruct (Nat.ltb_spec n (List.length names)) as [Hlt | Hge];
          repeat split; try discriminate; auto; try congruence; try lia.
    + intros [= <- _]. cbn. repeat split; try discriminate; eauto.
Qed.

(** X9: when the connectivity probe fails, the run stops there: the
    probe is the only request, no lookup is sent for any name, the disk is
    untouched, and the report holds the connectivity error. *)
Theorem failed_probe_stops_the_run (names : list string) (out : string) (w : world) :
  probe_failed (net w (List.length (sent w)) (lookup_url "india")) = true ->
  Automated.generate_xml_with_validation names out w
  = (Ok (Automated.mkResult false (List.length names) 0 out None
           [Automated.ConnectivityTestFailed] []),
     mkWorld (net w) (sent w ++ [lookup_url "india"])%list (disk w)).
Proof.
  intros Hp.
  assert (Ht : Automated.test_api_connectivity w
               = (Ok false,
                  mkWorld (net w) (sent w ++ [lookup_url "india"])%list (disk w))).
  { unfold Automated.test_api_connectivity, bindM, http_get, lift.
    change "https://restcountries.com/v3.1/name/india" with (lookup_url "india").
    destruct (net w (List.length (sent w)) (lookup_url "india")) as [r|e|];
      simpl in Hp; try discriminate; [|reflexivity].
    cbn [fst snd]. destruct (raise_for_status r); try discriminate. reflexivity. }
  unfold Automated.generate_xml_with_validation, Automated.validation_body, bindM.
  rewrite Ht. reflexivity.
Qed.

Lemma failed_probe_stops_the_run_witness :
  Automated.generate_xml_with_validation ["india"; "japan"] "output/countries.xml"
    offline_world
  = (Ok (Automated.mkResult false 2 0 "output/countries.xml" None
           [Automated.ConnectivityTestFailed] []),
     mkWorld (net offline_world) [lookup_url "india"] empty_disk).
Proof.
  exact (failed_probe_stops_the_run ["india"; "japan"] "output/countries.xml"
           offline_world eq_refl).
Defined.

(** ** The simple generator's round trip *)

(** X10: the simple generator's document for one record reads back.
    Whatever printable ASCII text the fields hold, the characters [&], [<]
    and [>] included, the document parses to a single [Countries] element
    whose leaves hold the fields unchanged. *)
Theorem simple_generator_round_trip (r : json) (f : fields) :
  Simple.extract_xml_data r = Ok (fields_extracted f) ->
  fields_plain f = true ->
  exists doc tree,
    Simple.render_document [r] = Ok doc
    /\ parse_xml doc = Ok tree
    /\ tag_of tree = "Countries"
    /\ read_fields tree = Some f.
Proof.
  intros Hx Hf.
  destruct (simple_document [r] [f] (Forall2_cons _ _ Hx (Forall2_nil _)))
    as (doc & Hdoc & _ & Hshape).
  specialize (Hshape ltac:(discriminate)). cbn [map String.concat] in Hshape.
  exists doc, (simple_country f). split; [exact Hdoc|]. split.
  - rewrite Hshape. apply parse_simple_country. exact Hf.
  - split; [reflexivity|]. unfold read_fields, simple_country. cbn [children_of].
    rewrite !text_or_empty_new_leaf. destruct f; reflexivity.
Qed.

Lemma simple_generator_round_trip_witness :
  exists doc tree,
    Simple.render_document [ampersand_record] = Ok doc
    /\ parse_xml doc = Ok tree
    /\ read_fields tree = Some ampersand_fields.
Proof.
  destruct (simple_generator_round_trip ampersand_record ampersand_fields
              eq_refl eq_refl) as (doc & tree & Hd & Hp & _ & Hr).
  exists doc, tree. repeat split; assumption.
Defined.

(** ** The country list of the command line *)

Lemma all_chars_app (p : ascii -> bool) (s1 s2 : string) :
  all_chars p (s1 ++ s2) = all_chars p s1 && all_chars p s2.
Proof.
  induction s1 as [|c s1 IH]; simpl; [reflexivity|]. rewrite IH, andb_assoc. reflexivity.
Qed.

Lemma split_on_pieces (sep : ascii) (s : string) :
  Forall (fun x => all_chars (fun c => negb (Ascii.eqb c sep)) x = true)
    (split_on sep s)
  /\ split_on sep s <> [].
Proof.
  induction s as [|c s [IH Hne]]; simpl.
  - split; [repeat constructor | discriminate].
  - destruct (Ascii.eqb c sep) eqn:E.
    + split; [constructor; [reflexivity | exact IH] | discriminate].
    + destruct (split_on sep s) as [|h t]; [congruence|].
      inversion IH; subst. split; [|discriminate].
      constructor; [simpl; rewrite E; assumption | assumption].
Qed.

Lemma split_on_length (s : string) :
  List.length (split_on comma s) = S (commas s).
Proof.
  induction s as [|c s IH]; simpl; [reflexivity|].
  destruct (Ascii.eqb c comma); simpl; [rewrite IH; reflexivity|].
  destruct (split_on comma s); simpl in *; [discriminate | exact IH].
Qed.

Lemma split_on_plain (sep : ascii) (s : string) :
  all_chars (fun c => negb (Ascii.eqb c sep)) s = true -> split_on sep s = [s].
Proof.
  induction s as [|c s IH]; simpl; [reflexivity|].
  intros H. apply andb_true_iff in H as [Hc Hs]. apply negb_true_iff in Hc.
  rewrite Hc, (IH Hs). reflexivity.
Qed.

Lemma split_on_app (sep : ascii) (x rest : string) :
  all_chars (fun c => negb (Ascii.eqb c sep)) x = true ->
  split_on sep (x ++ String sep rest) = x :: split_on sep rest.
Proof.
  induction x as [|c x IH]; simpl.
  - intros _. rewrite Ascii.eqb_refl. reflexivity.
  - intros H. apply andb_true_iff in H as [Hc Hx]. apply negb_true_iff in Hc.
    rewrite Hc, (IH Hx). reflexivity.
Qed.

(** *** Stripping *)

Lemma lstrip_sub (p : ascii -> bool) (s : string) :
  all_chars p s = true -> all_chars p (lstrip s) = true.
Proof.
  induction s as [|c s IH]; simpl; [auto|].
  intros H. destruct (is_py_space c); [|exact H].
  apply andb_true_iff in H as [_ Hs]. auto.
Qed.

Lemma rstrip_sub (p : ascii -> bool) (s : string) :
  all_chars p s = true -> all_chars p (rstrip s) = true.
Proof.
  induction s as [|c s IH]; simpl; [auto|].
  intros H. apply andb_true_iff in H as [Hc Hs].
  destruct (String.eqb (rstrip s) EmptyString && is_py_space c); [reflexivity|].
  simpl. rewrite Hc. auto.
Qed.

Lemma lstrip_starts_clean (s : string) : starts_clean (lstrip s) = true.
Proof.
  induction s as [|c s IH]; simpl; [reflexivity|].
  destruct (is_py_space c) eqn:E; [exact IH|]. simpl. rewrite E. reflexivity.
Qed.

Lemma rstrip_starts_clean (s : string) :
  starts_clean s = true -> starts_clean (rstrip s) = true.
Proof.
  destruct s as [|c s]; simpl; [auto|]. intros H.
  destruct (String.eqb (rstrip s) EmptyString && is_py_space c); [reflexivity | exact H].
Qed.

Lemma rstrip_ends_clean (s : string) : ends_clean (rstrip s) = true.
Proof.
  induction s as [|c s IH]; [reflexivity|]. cbn [rstrip].
  destruct (rstrip s) as [|c' r] eqn:E.
  - cbn [String.eqb andb]. destruct (is_py_space c) eqn:Ec; [reflexivity|].
    simpl. rewrite Ec. reflexivity.
  - cbn [String.eqb andb]. exact IH.
Qed.

Lemma lstrip_clean (s : string) : starts_clean s = true -> lstrip s = s.
Proof.
  destruct s as [|c s]; simpl; [auto|]. intros H. apply negb_true_iff in H.
  rewrite H. reflexivity.
Qed.

Lemma rstrip_clean (s : string) : ends_clean s = true -> rstrip s = s.
Proof.
  induction s as [|c s IH]; [reflexivity|]. cbn [rstrip ends_clean].
  destruct s as [|c' s'].
  - intros H. apply negb_true_iff in H. simpl. rewrite H. reflexivity.
  - intros H. rewrite (IH H). reflexivity.
Qed.

(** *** Lower case *)

Lemma lower_char_facts (c : ascii) :
  is_upper (lower_char c) = false
  /\ is_py_space (lower_char c) = is_py_space c
  /\ Ascii.eqb (lower_char c) comma = Ascii.eqb c comma
  /\ (is_ascii_char c = true -> is_ascii_char (lower_char c) = true)
  /\ (is_upper c = false -> lower_char c = c).
Proof.
  destruct c as [[] [] [] [] [] [] [] []]; repeat split; try reflexivity;
    try discriminate.
Qed.

Lemma lower_no_upper (s : string) :
  all_chars (fun c => negb (is_upper c)) (lower s) = true.
Proof.
  induction s as [|c s IH]; simpl; [reflexivity|].
  destruct (lower_char_facts c) as (-> & _). exact IH.
Qed.

Lemma lower_no_comma (s : string) :
  all_chars (fun c => negb (Ascii.eqb c comma)) s = true ->
  all_chars (fun c => negb (Ascii.eqb c comma)) (lower s) = true.
Proof.
  induction s as [|c s IH]; simpl; [auto|].
  destruct (lower_char_facts c) as (_ & _ & -> & _).
  intros H. apply andb_true_iff in H as [-> Hs]. auto.
Qed.

Lemma lower_ascii (s : string) :
  all_chars is_ascii_char s = true -> all_chars is_ascii_char (lower s) = true.
Proof.
  induction s as [|c s IH]; simpl; [auto|].
  destruct (lower_char_facts c) as (_ & _ & _ & Ha & _).
  intros H. apply andb_true_iff in H as [Hc Hs]. rewrite (Ha Hc). auto.
Qed.

Lemma lower_starts_clean (s : string) : starts_clean (lower s) = starts_clean s.
Proof.
  destruct s as [|c s]; [reflexivity|]. simpl.
  destruct (lower_char_facts c) as (_ & -> & _). reflexivity.
Qed.

Lemma lower_ends_clean (s : string) : ends_clean (lower s) = ends_clean s.
Proof.
  induction s as [|c s IH]; [reflexivity|]. cbn [lower ends_clean].
  destruct s as [|c' s']; cbn [lower].
  - destruct (lower_char_facts c) as (_ & -> & _). reflexivity.
  - exact IH.
Qed.

Lemma lower_clean (s : string) :
  all_chars (fun c => negb (is_upper c)) s = true -> lower s = s.
Proof.
  induction s as [|c s IH]; simpl; [auto|].
  intros H. apply andb_true_iff in H as [Hc Hs]. apply negb_true_iff in Hc.
  destruct (lower_char_facts c) as (_ & _ & _ & _ & Hl).
  rewrite (Hl Hc), (IH Hs). reflexivity.
Qed.

(** *** The list *)

Lemma split_on_sub (p : ascii -> bool) (sep : ascii) (s : string) :
  all_chars p s = true -> Forall (fun x => all_chars p x = true) (split_on sep s).
Proof.
  induction s as [|c s IH]; simpl; [repeat constructor|].
  intros H. apply andb_true_iff in H as [Hc Hs]. specialize (IH Hs).
  destruct (Ascii.eqb c sep); [constructor; [reflexivity | exact IH]|].
  destruct (split_on sep s) as [|h t]; [repeat constructor; simpl; rewrite Hc; auto|].
  inversion IH; subst. constructor; [simpl; rewrite Hc; assumption | assumption].
Qed.

Lemma clean_piece (x : string) :
  all_chars is_ascii_char x = true ->
  all_chars (fun c => negb (Ascii.eqb c comma)) x = true ->
  String.eqb (lower (strip x)) EmptyString = false ->
  clean_name (lower (strip x)) = true.
Proof.
  intros Ha Hc Hne. unfold clean_name, strip in *.
  rewrite lower_ascii by (apply rstrip_sub, lstrip_sub, Ha).
  rewrite Hne, lower_no_comma by (apply rstrip_sub, lstrip_sub, Hc).
  rewrite lower_starts_clean, lower_ends_clean, lower_no_upper.
  rewrite rstrip_starts_clean by apply lstrip_starts_clean.
  rewrite rstrip_ends_clean. reflexivity.
Qed.

Lemma parse_country_list_clean (countries_input : string) (countries : list string) :
  Cli.parse_country_list countries_input = Ok countries ->
  Forall (fun name => clean_name name = true) countries
  /\ List.length countries <= S (commas countries_input).
Proof.
  unfold Cli.parse_country_list.
  destruct (all_chars is_ascii_char countries_input) eqn:Ha; [|discriminate].
  cbn [negb]. destruct (String.eqb countries_input EmptyString).
  { intros [= <-]. split; [constructor | simpl; lia]. }
  intros [= <-]. split.
  - apply Forall_forall. intros name Hin. apply filter_In in Hin as [Hin Hne].
    apply in_map_iff in Hin as (x & <- & Hx). apply negb_true_iff in Hne.
    pose proof (proj1 (split_on_pieces comma countries_input)) as Hc.
    pose proof (split_on_sub is_ascii_char comma countries_input Ha) as Hs.
    rewrite Forall_forall in Hc, Hs. apply clean_piece; auto.
  - eapply Nat.le_trans; [apply filter_length_le|].
    rewrite length_map, split_on_length. apply le_n.
Qed.

(** X11: every name [parse_country_list] returns is ASCII, not empty,
    free of commas, without white space at either end and in lower case,
    and there is at most one name more than the input has commas. *)
Theorem parsed_names_are_clean (countries_input : string) (countries : list string) :
  Cli.parse_country_list countries_input = Ok countries ->
  Forall (fun name => clean_name name = true) countries
  /\ List.length countries <= S (commas countries_input).
Proof. apply parse_country_list_clean. Qed.

Lemma parsed_names_are_clean_witness :
  Cli.parse_country_list " India, ,new Zealand ,,JAPAN"
  = Ok ["india"; "new zealand"; "japan"]
  /\ Forall (fun name => clean_name name = true) ["india"; "new zealand"; "japan"].
Proof.
  split; [reflexivity|].
  exact (proj1 (parsed_names_are_clean " India, ,new Zealand ,,JAPAN" _ eq_refl)).
Defined.

Lemma clean_name_inv (s : string) :
  clean_name s = true ->
  all_chars is_ascii_char s = true /\ String.eqb s EmptyString = false
  /\ all_chars (fun c => negb (Ascii.eqb c comma)) s = true
  /\ starts_clean s = true /\ ends_clean s = true
  /\ all_chars (fun c => negb (is_upper c)) s = true.
Proof.
  unfold clean_name. rewrite !andb_true_iff, negb_true_iff. tauto.
Qed.

Lemma join_comma_cons (x y : string) (l : list string) :
  join "," (x :: y :: l) = x ++ String comma (join "," (y :: l)).
Proof. reflexivity. Qed.

Lemma split_join (l : list string) :
  l <> [] ->
  Forall (fun name => clean_name name = true) l ->
  split_on comma (join "," l) = l
  /\ all_chars is_ascii_char (join "," l) = true
  /\ String.eqb (join "," l) EmptyString = false.
Proof.
  intros Hne H. induction H as [|x l Hx Hl IH]; [congruence|].
  apply clean_name_inv in Hx as (Ha & Hn & Hc & _).
  destruct l as [|y l].
  - cbn [join]. rewrite (split_on_plain comma x Hc). auto.
  - destruct (IH ltac:(discriminate)) as (Hs & Hasc & _).
    rewrite join_comma_cons, (split_on_app comma x _ Hc), Hs.
    split; [reflexivity|]. split.
    + rewrite all_chars_app, Ha. cbn [all_chars andb]. rewrite Hasc. reflexivity.
    + destruct x; [discriminate | reflexivity].
Qed.

Lemma clean_names_fixed (l : list string) :
  Forall (fun name => clean_name name = true) l ->
  filter (fun country => negb (String.eqb country EmptyString))
    (map (fun country => lower (strip country)) l) = l.
Proof.
  induction 1 as [|x l Hx _ IH]; [reflexivity|].
  apply clean_name_inv in Hx as (_ & Hn & _ & Hs & He & Hu).
  assert (Hx : lower (strip x) = x).
  { unfold strip. rewrite (lstrip_clean x Hs), (rstrip_clean x He). apply lower_clean, Hu. }
  simpl. rewrite Hx, Hn. simpl. f_equal. exact IH.
Qed.

Lemma parse_of_join (countries : list string) :
  Forall (fun name => clean_name name = true) countries ->
  Cli.parse_country_list (join "," countries) = Ok countries.
Proof.
  intros H. destruct countries as [|x l]; [reflexivity|].
  destruct (split_join (x :: l) ltac:(discriminate) H) as (Hs & Ha & Hn).
  unfold Cli.parse_country_list. rewrite Ha, Hn, Hs. cbn [negb].
  rewrite (clean_names_fixed _ H). reflexivity.
Qed.

(** X12: joining names with commas and parsing the result gives the
    names back, for names as [parse_country_list] returns them. *)
Theorem join_then_parse (countries : list string) :
  Forall (fun name => clean_name name = true) countries ->
  Cli.parse_country_list (join "," countries) = Ok countries.
Proof. apply parse_of_join. Qed.

Lemma join_then_parse_witness :
  Cli.parse_country_list (join "," ["india"; "new zealand"; "japan"])
  = Ok ["india"; "new zealand"; "japan"].
Proof.
  apply join_then_parse. repeat constructor.
Defined.

(** X13: parsing is idempotent: the parsed list, joined with commas and
    parsed again, is unchanged. *)
Theorem parse_is_idempotent (countries_input : string) (countries : list string) :
  Cli.parse_country_list countries_input = Ok countries ->
  Cli.parse_country_list (join "," countries) = Ok countries.
Proof.
  intros H. apply parse_of_join. exact (proj1 (parse_country_list_clean _ _ H)).
Qed.

Lemma parse_is_idempotent_witness :
  Cli.parse_country_list (join "," ["india"; "new zealand"; "japan"])
  = Ok ["india"; "new zealand"; "japan"].
Proof.
  exact (parse_is_idempotent " India, ,new Zealand ,,JAPAN" _ eq_refl).
Defined.

(** ** The command line *)

Lemma connectivity_failed (w : world) :
  probe_failed (net w (List.length (sent w)) (lookup_url "india")) = true ->
  Automated.test_api_connectivity w
  = (Ok false, mkWorld (net w) (sent w ++ [lookup_url "india"])%list (disk w)).
Proof.
  intros Hp. unfold Automated.test_api_connectivity, bindM, http_get, lift.
  change "https://restcountries.com/v3.1/name/india" with (lookup_url "india").
  destruct (net w (List.length (sent w)) (lookup_url "india")) as [r|e|];
    simpl in Hp; try discriminate; [|reflexivity].
  cbn [fst snd]. destruct (raise_for_status r); try discriminate. reflexivity.
Qed.

(** X14: in test-only mode [main] sends the connectivity probe and
    nothing else, leaves the disk alone and exits with status 0 when the
    probe succeeds and 1 when it fails, whatever the other options are. *)
Theorem test_only_mode (json_loads : string -> outcome json) (args : Cli.arguments)
  (w : world) :
  Cli.arg_test_only args = true ->
  let o := net w (List.length (sent w)) (lookup_url "india") in
  let w1 := mkWorld (net w) (sent w ++ [lookup_url "india"])%list (disk w) in
  (probe_failed o = true -> Cli.main json_loads args w = (Ok 1, w1))
  /\ (forall r, o = Ok r -> raise_for_status r = Ok tt ->
                Cli.main json_loads args w = (Ok 0, w1)).
Proof.
  intros Ht o w1. unfold Cli.main. rewrite Ht. unfold bindM. split.
  - intros Hp. rewrite (connectivity_failed w Hp). reflexivity.
  - intros r Ho Hs. rewrite (connectivity_ok w r Ho Hs). reflexivity.
Qed.

Lemma test_only_mode_witness :
  Cli.main sample_loads (Cli.mkArguments "india" "output/countries.xml" None true)
    offline_world
  = (Ok 1, mkWorld (net offline_world) [lookup_url "india"] empty_disk)
  /\ Cli.main sample_loads (Cli.mkArguments "india" "output/countries.xml" None true)
       india_world
     = (Ok 0, mkWorld (net india_world) [lookup_url "india"] empty_disk).
Proof.
  split.
  - exact (proj1 (test_only_mode sample_loads
                    (Cli.mkArguments "india" "output/countries.xml" None true)
                    offline_world eq_refl) eq_refl).
  - exact (proj2 (test_only_mode sample_loads
                    (Cli.mkArguments "india" "output/countries.xml" None true)
                    india_world eq_refl) _ eq_refl eq_refl).
Defined.

Lemma lstrip_blank (x : string) : all_chars is_py_space x = true -> lstrip x = EmptyString.
Proof.
  induction x as [|c x IH]; simpl; [reflexivity|].
  intros H. apply andb_true_iff in H as [-> Hx]. exact (IH Hx).
Qed.

Lemma blank_piece (x : string) :
  all_chars (fun c => Ascii.eqb c comma || is_py_space c) x = true ->
  all_chars (fun c => negb (Ascii.eqb c comma)) x = true ->
  lower (strip x) = EmptyString.
Proof.
  intros H1 H2. unfold strip. rewrite lstrip_blank; [reflexivity|].
  induction x as [|c x IH]; simpl in *; [reflexivity|].
  apply andb_true_iff in H1 as [Hc H1]. apply andb_true_iff in H2 as [Hn H2].
  apply negb_true_iff in Hn. rewrite Hn in Hc. simpl in Hc. rewrite Hc. auto.
Qed.

Lemma blank_is_ascii (s : string) :
  all_chars (fun c => Ascii.eqb c comma || is_py_space c) s = true ->
  all_chars is_ascii_char s = true.
Proof.
  induction s as [|c s IH]; simpl; [reflexivity|].
  intros H. apply andb_true_iff in H as [Hc Hs]. rewrite (IH Hs), andb_true_r.
  destruct c as [[] [] [] [] [] [] [] []]; try discriminate Hc; reflexivity.
Qed.

(** A country list made of commas and white space names no country. *)
Lemma blank_list_is_empty (s : string) :
  all_chars (fun c => Ascii.eqb c comma || is_py_space c) s = true ->
  Cli.parse_country_list s = Ok [].
Proof.
  intros H. unfold Cli.parse_country_list. rewrite (blank_is_ascii s H). cbn [negb].
  destruct (String.eqb s EmptyString); [reflexivity|]. f_equal.
  pose proof (proj1 (split_on_pieces comma s)) as Hc.
  pose proof (split_on_sub _ comma s H) as Hs.
  induction (split_on comma s) as [|x l IH]; [reflexivity|].
  inversion Hc; subst. inversion Hs; subst.
  cbn [map filter]. rewrite blank_piece by assumption. cbn. apply IH; assumption.
Qed.

(** X15: when no config file is given and the country list holds nothing
    but commas and white space (the empty list included), [main] exits
    with status 1 without sending a request or touching the disk. *)
Theorem no_country_exits_early (json_loads : string -> outcome json)
  (args : Cli.arguments) (w : world) :
  Cli.arg_test_only args = false ->
  Cli.arg_config args = None ->
  all_chars (fun c => Ascii.eqb c comma || is_py_space c) (Cli.arg_countries args) = true ->
  Cli.main json_loads args w = (Ok 1, w).
Proof.
  intros Ht Hc Hb. unfold Cli.main, bindM, ret, lift.
  rewrite Ht, Hc, (blank_list_is_empty _ Hb). reflexivity.
Qed.

Lemma no_country_exits_early_witness :
  Cli.main sample_loads (Cli.mkArguments " , ,," "output/countries.xml" None false)
    india_world
  = (Ok 1, india_world).
Proof.
  exact (no_country_exits_early sample_loads
           (Cli.mkArguments " , ,," "output/countries.xml" None false)
           india_world eq_refl eq_refl eq_refl).
Defined.

(** X16: a config path that names nothing on the disk is ignored without
    a word: the run is the one [--countries] alone would give. *)
Theorem missing_config_is_ignored (json_loads : string -> outcome json)
  (args : Cli.arguments) (p : string) (w : world) :
  Cli.arg_test_only args = false ->
  Cli.arg_config args = Some p ->
  path_exists p (disk w) = Ok false ->
  Cli.main json_loads args w
  = Cli.main json_loads
      (Cli.mkArguments (Cli.arg_countries args) (Cli.arg_output args) None false) w.
Proof.
  intros Ht Hc Hp. unfold Cli.main, bindM, ret, lift, from_disk.
  rewrite Ht, Hc. cbn [Cli.arg_test_only Cli.arg_config Cli.arg_countries Cli.arg_output].
  destruct (String.eqb p EmptyString); [reflexivity|]. rewrite Hp. reflexivity.
Qed.

Lemma missing_config_is_ignored_witness :
  Cli.main sample_loads
    (Cli.mkArguments "india" "output/countries.xml" (Some "config/countries.json") false)
    india_world
  = Cli.main sample_loads
      (Cli.mkArguments "india" "output/countries.xml" None false) india_world.
Proof.
  exact (missing_config_is_ignored sample_loads
           (Cli.mkArguments "india" "output/countries.xml"
              (Some "config/countries.json") false)
           "config/countries.json" india_world eq_refl eq_refl eq_refl).
Defined.












(** X18: a config file that exists decides the run alone.  When it
    cannot be read or decoded, or [countries] is not a sized value, [main]
    exits with status 1 before any request; when it has no [countries] key
    or an empty list, likewise, whatever [--countries] says; when it holds
    a list of names, the run is made with those names as they are, neither
    trimmed nor lower-cased. *)
Theorem config_file_decides_the_run (json_loads : string -> outcome json)
  (args : Cli.arguments) (p : string) (w : world) :
  Cli.arg_test_only args = false ->
  Cli.arg_config args = Some p ->
  path_exists p (disk w) = Ok true ->
  (forall e, fst (Cli.load_config json_loads p w) = Raise e ->
             Cli.main json_loads args w = (Ok 1, w))
  /\ (forall text d,
        read_file p (disk w) = Ok text -> json_loads text = Ok (JDict d) ->
        (assoc "countries" d = None \/ assoc "countries" d = Some (JList [])) ->
        Cli.main json_loads args w = (Ok 1, w))
  /\ (forall text d l names,
        read_file p (disk w) = Ok text -> json_loads text = Ok (JDict d) ->
        assoc "countries" d = Some (JList l) -> l <> [] ->
        Cli.strings_of l = Some names ->
        Cli.main json_loads args w = Cli.run names (Cli.arg_output args) w).
Proof.
  intros Ht Hc Hp.
  assert (Hpne : String.eqb p EmptyString = false).
  { destruct p; [discriminate Hp | reflexivity]. }
  assert (Hmain : Cli.main json_loads args w
                  = match Cli.load_config json_loads p w with
                    | (Ok countries, w') =>
                        if truthy countries
                        then (names <~ lift (Cli.names_of countries) ;;
                              Cli.run names (Cli.arg_output args)) w'
                        else (Ok 1, w')
                    | (Raise _, w') => (Ok 1, w')
                    | (Unmodelled, w') => (Unmodelled, w')
                    end).
  { unfold Cli.main. rewrite Ht, Hc, Hpne. unfold bindM at 1, from_disk.
    rewrite Hp. reflexivity. }
  assert (Hw : snd (Cli.load_config json_loads p w) = w).
  { unfold Cli.load_config, bindM, from_disk, lift, ret.
    destruct (read_file p (disk w)); cbn; try reflexivity.
    destruct (json_loads a); cbn; try reflexivity.
    destruct (py_get a0 "countries" (JList [])); cbn; try reflexivity.
    destruct (py_len a1); reflexivity. }
  assert (Hload : forall text d,
             read_file p (disk w) = Ok text -> json_loads text = Ok (JDict d) ->
             forall l, match assoc "countries" d with Some v => v | None => JList [] end
                       = JList l ->
             Cli.load_config json_loads p w = (Ok (JList l), w)).
  { intros text d Hr Hj l Hl. unfold Cli.load_config, bindM, from_disk, lift, ret.
    rewrite Hr, Hj. cbn [py_get]. rewrite Hl. reflexivity. }
  rewrite Hmain. split; [|split].
  - intros e He. destruct (Cli.load_config json_loads p w) as [o w0].
    simpl in He, Hw. subst. reflexivity.
  - intros text d Hr Hj Hd. rewrite (Hload text d Hr Hj []); [reflexivity|].
    destruct Hd as [-> | ->]; reflexivity.
  - intros text d l names Hr Hj Hd Hne Hs. rewrite (Hload text d Hr Hj l).
    + destruct l; [congruence|]. cbn [truthy is_empty negb].
      unfold bindM, lift, Cli.names_of. rewrite Hs. reflexivity.
    + rewrite Hd. reflexivity.
Qed.

Lemma config_file_decides_the_run_witness :
  Cli.main sample_loads
    (Cli.mkArguments "japan" "output/countries.xml" (Some "config/broken.json") false)
    config_world
  = (Ok 1, config_world)
  /\ Cli.main sample_loads
       (Cli.mkArguments "japan" "output/countries.xml"
          (Some "config/countries.json") false)
       config_world
     = Cli.run ["india"] "output/countries.xml" config_world.
Proof.
  split.
  - exact (proj1 (config_file_decides_the_run sample_loads
                    (Cli.mkArguments "japan" "output/countries.xml"
                       (Some "config/broken.json") false)
                    "config/broken.json" config_world eq_refl eq_refl eq_refl)
             ValueError eq_refl).
  - exact (proj2 (proj2 (config_file_decides_the_run sample_loads
                           (Cli.mkArguments "japan" "output/countries.xml"
                              (Some "config/countries.json") false)
                           "config/countries.json" config_world
                           eq_refl eq_refl eq_refl))
             "{countries: [india]}" [("countries", JList [JStr "india"])]
             [JStr "india"] ["india"] eq_refl eq_refl eq_refl
             ltac:(discriminate) eq_refl).
Defined.

(** X19: the whole run from the command line.  With no config file, a
    country list that parses to [names], an output path [d/b] that is
    free, a probe that succeeds, lookups that go as the contract describes
    and fetch at least one record, and fetched records whose seven fields
    are printable ASCII text (tab and line feed included) without [&],
    [<] and [>], [main] exits with status 0. *)
Theorem main_succeeds (json_loads : string -> outcome json) (args : Cli.arguments)
  (names : list string) (d b : string) (w : world) (r : response) (fs : list fields) :
  Cli.arg_test_only args = false ->
  Cli.arg_config args = None ->
  Cli.parse_country_list (Cli.arg_countries args) = Ok names ->
  Cli.arg_output args = d ++ String slash b ->
  net w (List.length (sent w)) (lookup_url "india") = Ok r ->
  raise_for_status r = Ok tt ->
  orderly (net w) (S (List.length (sent w))) names = true ->
  successes (net w) (S (List.length (sent w))) names <> [] ->
  Forall2 (fun r f => Improved.extract_xml_data r = Ok (fields_extracted f))
    (successes (net w) (S (List.length (sent w))) names) fs ->
  Forall (fun f => fields_safe f = true) fs ->
  simple_name d = true -> simple_name b = true ->
  is_file (disk w) (false, [d]) = false ->
  is_dir (disk w) (false, [d; b]) = false ->
  exists w', Cli.main json_loads args w = (Ok 0, w').
Proof.
  intros Ht Hc Hp Ho Hnet Hst Hord Hne Hx Hs Hd Hb Hfile Hdir.
  destruct (validation_counts_fetched_records names d b w r fs
              Hnet Hst Hord Hne Hx Hs Hd Hb Hfile Hdir) as (w' & size & Hv).
  exists w'. unfold Cli.main, bindM, ret, lift. rewrite Ht, Hc, Hp, Ho.
  unfold Cli.run. destruct names as [|n names']; [simpl in Hne; congruence|].
  cbn [is_empty]. unfold bindM. rewrite Hv. reflexivity.
Qed.

Lemma main_succeeds_witness :
  exists w',
    Cli.main sample_loads
      (Cli.mkArguments " India " "output/countries.xml" None false) india_world
    = (Ok 0, w').
Proof.
  exact (main_succeeds sample_loads
           (Cli.mkArguments " India " "output/countries.xml" None false)
           ["india"] "output" "countries.xml" india_world
           (mkResponse 200 (Ok (JList [india]))) [india_fields]
           eq_refl eq_refl eq_refl eq_refl eq_refl eq_refl eq_refl
           ltac:(discriminate) ltac:(repeat constructor) ltac:(repeat constructor)
           eq_refl eq_refl eq_refl eq_refl).
Defined.

(** X20: the self-check of the automation layer.  When the probe
    succeeds, the lookups go as the contract describes, at least one record
    is fetched, the seven fields of every fetched record are printable
    ASCII text (tab and line feed included) without [&], [<] and [>], and
    the output path [d/b] is free, the run succeeds and the number of
    countries read back from the file is the number of fetched records,
    with a warning exactly when that is fewer than the names. *)
Theorem self_check_counts_fetched_records (names : list string) (d b : string)
  (w : world) (r : response) (fs : list fields) :
  net w (List.length (sent w)) (lookup_url "india") = Ok r ->
  raise_for_status r = Ok tt ->
  orderly (net w) (S (List.length (sent w))) names = true ->
  successes (net w) (S (List.length (sent w))) names <> [] ->
  Forall2 (fun r f => Improved.extract_xml_data r = Ok (fields_extracted f))
    (successes (net w) (S (List.length (sent w))) names) fs ->
  Forall (fun f => fields_safe f = true) fs ->
  simple_name d = true -> simple_name b = true ->
  is_file (disk w) (false, [d]) = false ->
  is_dir (disk w) (false, [d; b]) = false ->
  exists w' size,
    Automated.generate_xml_with_validation names (d ++ String slash b) w
    = (Ok (Automated.mkResult true (List.length names)
             (List.length (successes (net w) (S (List.length (sent w))) names))
             (d ++ String slash b) (Some size) []
             (if (List.length (successes (net w) (S (List.length (sent w))) names)
                  <? List.length names)%nat
              then [List.length names
                    - List.length (successes (net w) (S (List.length (sent w))) names)]
              else [])),
       w').
Proof. apply validation_counts_fetched_records. Qed.

Lemma self_check_counts_fetched_records_witness :
  exists w' size,
    Automated.generate_xml_with_validation ["india"] "output/countries.xml" india_world
    = (Ok (Automated.mkResult true 1 1 "output/countries.xml" (Some size) [] []), w').
Proof.
  exact (self_check_counts_fetched_records ["india"] "output" "countries.xml"
           india_world (mkResponse 200 (Ok (JList [india]))) [india_fields]
           eq_refl eq_refl eq_refl ltac:(discriminate)
           ltac:(repeat constructor) ltac:(repeat constructor)
           eq_refl eq_refl eq_refl eq_refl).
Defined.

(** ** The example script *)

(** X21: [fetch_single_country] sends one request and, when the lookup
    fails with a request exception or finds nothing, returns the empty
    dictionary instead of raising; otherwise it returns the first record
    of the answer, the one the generators' fetcher keeps. *)
Theorem single_fetch_returns_record_or_empty (name : string) (w : world) :
  lookup_ok (net w (List.length (sent w)) (lookup_url name)) = true ->
  Examples.fetch_single_country name w
  = (Ok (match fetched_record (net w (List.length (sent w)) (lookup_url name)) with
         | x :: _ => x
         | [] => JDict []
         end),
     mkWorld (net w) (sent w ++ [lookup_url name])%list (disk w)).
Proof.
  intros Hok. unfold Examples.fetch_single_country, bindM, http_get, lift, ret.
  fold (lookup_url name).
  destruct (net w (List.length (sent w)) (lookup_url name)) as [r|e|] eqn:Hnet;
    simpl in Hok |- *.
  - destruct (raise_for_status r) as [[]|e|] eqn:Hst; simpl.
    + destruct (json_body r) as [data|e|] eqn:Hj; simpl.
      * destruct data as [| | | |l|]; try discriminate.
        destruct l as [|x l]; reflexivity.
      * rewrite Hok. reflexivity.
      * discriminate.
    + unfold raise_for_status in Hst.
      destruct ((400 <=? status_code r)%Z && (status_code r <? 600)%Z);
        [injection Hst as <- | discriminate]. reflexivity.
    + unfold raise_for_status in Hst.
      destruct ((400 <=? status_code r)%Z && (status_code r <? 600)%Z); discriminate.
  - rewrite Hok. reflexivity.
  - discriminate.
Qed.

Lemma single_fetch_returns_record_or_empty_witness :
  Examples.fetch_single_country "atlantis" offline_world
  = (Ok (JDict []), mkWorld (net offline_world) [lookup_url "atlantis"] empty_disk)
  /\ Examples.fetch_single_country "india" india_world
     = (Ok india, mkWorld (net india_world) [lookup_url "india"] empty_disk).
Proof.
  split.
  - exact (single_fetch_returns_record_or_empty "atlantis" offline_world eq_refl).
  - exact (single_fetch_returns_record_or_empty "india" india_world eq_refl).
Defined.

(** X22: the example extractor against the simple generator's.  On every
    record for which both return they give the same code, official name
    and common name; the currency is the same when the record has one,
    but for a record without currency the example returns the empty
    dictionary, without the [code], [name] and [symbol] keys that the
    generators fill with empty strings. *)
Theorem example_extractor_leaves_currency_empty (r : json) (x : Examples.Relevant)
  (y : ExtractedCountry) :
  Examples.extract_xml_relevant_data r = Ok x ->
  Simple.extract_xml_data r = Ok y ->
  Examples.code x = code y
  /\ Examples.original_name x = original_name y
  /\ Examples.common_name x = common_name y
  /\ match Examples.currency x with
     | Some c => currency y = c
     | None => currency y = empty_currency
     end
  /\ (no_entries (get_path ["currencies"] r) -> Examples.currency x = None).
Proof.
  unfold Examples.extract_xml_relevant_data, Simple.extract_xml_data.
  destruct r as [| | | | |d]; try discriminate. cbn [py_get bind get_path].
  set (cur := match assoc "currencies" d with Some v => v | None => JDict [] end).
  destruct (py_get _ "nativeName" (JDict [])) as [nn| |]; try discriminate.
  cbn [bind].
  destruct (Examples.extract_local_name nn) as [le| |]; try discriminate.
  destruct (Simple.extract_local_name nn) as [ls| |]; try discriminate.
  cbn [bind]. unfold Examples.extract_currency, extract_currency.
  assert (Hcur : no_entries (match assoc "currencies" d with
                             | Some v' => Some v'
                             | None => None
                             end) -> truthy cur = false).
  { subst cur. destruct (assoc "currencies" d) as [v|]; intros [H|H];
      try discriminate; [injection H as -> |]; reflexivity. }
  destruct (truthy cur) eqn:Ht.
  - destruct (first_key cur) as [k| |]; try discriminate. cbn [bind].
    destruct (py_getitem cur k) as [cd| |]; try discriminate. cbn [bind].
    destruct (py_get cd "name" _) as [n| |]; try discriminate. cbn [bind].
    destruct (py_get cd "symbol" _) as [s| |]; try discriminate. cbn [bind].
    destruct (py_get _ "official" _) as [o| |]; try discriminate. cbn [bind].
    destruct (py_get _ "common" _) as [m| |]; try discriminate. cbn [bind].
    intros [= <-] [= <-]. cbn. repeat split.
    intros H. specialize (Hcur H). congruence.
  - cbn [bind].
    destruct (py_get _ "official" _) as [o| |]; try discriminate. cbn [bind].
    destruct (py_get _ "common" _) as [m| |]; try discriminate. cbn [bind].
    intros [= <-] [= <-]. cbn. repeat split.
Qed.

Lemma example_extractor_leaves_currency_empty_witness :
  exists x y,
    Examples.extract_xml_relevant_data bare_record = Ok x
    /\ Simple.extract_xml_data bare_record = Ok y
    /\ Examples.currency x = None
    /\ currency y = empty_currency.
Proof.
  do 2 eexists. split; [reflexivity|]. split; [reflexivity|].
  destruct (example_extractor_leaves_currency_empty bare_record _ _ eq_refl eq_refl)
    as (_ & _ & _ & _ & Hnone).
  split; [apply Hnone; left |]; reflexivity.
Defined.
